(** * A.V.A — a rule-based assistant: shallow embedding and verified properties

    The development follows the Python sources:

    - [assistant/features/todo.py]        -> [Module Todo]
    - [assistant/features/calculator.py]  -> [Module Calculator]
    - [assistant/features/dictionary.py]  -> [Module Dictionary]
    - [assistant/chatbot.py]              -> [Module Chatbot], [Module Pipeline]
    - [app.py]                            -> [Module App]

    Python strings are sequences of Unicode code points; [Module PyStr] models
    them as lists of [N].  The parts of the Unicode character database that
    the code reaches through [str.lower], [re] and [int] are concrete on
    ASCII and a parameter ([UnicodeDB]) beyond it.  [Module Regex] is a small
    backtracking matcher for the fragment of [re] the sources use. *)

From Stdlib Require Import List NArith ZArith Bool Arith Lia.
From Stdlib Require Strings.String Strings.Ascii.
Import String.StringSyntax.
Delimit Scope string_scope with string.
From Stdlib Require Import Floats.SpecFloat.
Set Warnings "-register-all".
Import ListNotations.


(* ================================================================= *)
(** * Python strings *)
(* ================================================================= *)

(** What the interpreter's Unicode tables answer for code points above 127.
    Nothing in the sources fixes them; the theorems that need a fact about
    them state it as a hypothesis. *)
Class UnicodeDB : Type := {
  (** [str.isalnum] (the non-underscore part of the regex class [\w]) *)
  uni_isalnum : N -> bool;
  (** value of a decimal digit (regex class [\d], argument of [int]) *)
  uni_decimal : N -> option N;
  (** [str.lower] of a string that is not pure ASCII *)
  uni_lower : list N -> list N;
  (** [re.IGNORECASE] comparison of a pattern character with a subject
      character when one of the two is not ASCII *)
  uni_caseless_eq : N -> N -> bool
}.

Module PyStr.

Definition pystr := list N.

Fixpoint pystr_eqb (a b : pystr) : bool :=
  match a, b with
  | [], [] => true
  | x :: a', y :: b' => (x =? y)%N && pystr_eqb a' b'
  | _, _ => false
  end.

(** Source literals are written as UTF-8 text and decoded to code points. *)
Fixpoint utf8_decode (bs : list N) : pystr :=
  match bs with
  | [] => []
  | b0 :: t0 =>
    if (b0 <? 128)%N then b0 :: utf8_decode t0
    else if (b0 <? 224)%N then
      match t0 with
      | b1 :: t1 => ((b0 - 192) * 64 + (b1 - 128))%N :: utf8_decode t1
      | _ => []
      end
    else if (b0 <? 240)%N then
      match t0 with
      | b1 :: b2 :: t2 =>
        ((b0 - 224) * 4096 + (b1 - 128) * 64 + (b2 - 128))%N :: utf8_decode t2
      | _ => []
      end
    else
      match t0 with
      | b1 :: b2 :: b3 :: t3 =>
        ((b0 - 240) * 262144 + (b1 - 128) * 4096 + (b2 - 128) * 64 + (b3 - 128))%N
          :: utf8_decode t3
      | _ => []
      end
  end.

Definition u (s : String.string) : pystr :=
  utf8_decode (map Ascii.N_of_ascii (String.list_ascii_of_string s)).

Arguments u s%_string.

Definition in_range (lo hi c : N) : bool := ((lo <=? c) && (c <=? hi))%N.

Definition is_ascii (c : N) : bool := (c <? 128)%N.
Definition is_upper_az (c : N) : bool := in_range 65 90 c.
Definition is_lower_az (c : N) : bool := in_range 97 122 c.
Definition is_digit09 (c : N) : bool := in_range 48 57 c.

(** [Py_UNICODE_ISSPACE]: the characters [str.strip], [str.split] and the
    regex class [\s] treat as whitespace. *)
Definition is_space (c : N) : bool :=
  in_range 9 13 c || in_range 28 32 c || (c =? 133)%N || (c =? 160)%N
  || (c =? 5760)%N || in_range 8192 8202 c || (c =? 8232)%N || (c =? 8233)%N
  || (c =? 8239)%N || (c =? 8287)%N || (c =? 12288)%N.

Definition ascii_lower (c : N) : N := if is_upper_az c then (c + 32)%N else c.

Section WithUnicode.
Context {U : UnicodeDB}.

(** A word character of [\w]: alphanumeric or underscore. *)
Definition is_word (c : N) : bool :=
  if is_ascii c
  then is_lower_az c || is_upper_az c || is_digit09 c || (c =? 95)%N
  else uni_isalnum c.

(** Decimal digit value, for [\d] and [int]. *)
Definition decimal_value (c : N) : option N :=
  if is_ascii c
  then (if is_digit09 c then Some (c - 48)%N else None)
  else uni_decimal c.

(** [s.lower()]: CPython lowers a pure ASCII string byte by byte and sends
    any other string through the Unicode case mapping. *)
Definition lower (s : pystr) : pystr :=
  if forallb is_ascii s then map ascii_lower s else uni_lower s.

(** Character comparison under [re.IGNORECASE]; [p] is the pattern's. *)
Definition caseless_eq (p c : N) : bool :=
  if is_ascii p && is_ascii c
  then (ascii_lower c =? ascii_lower p)%N
  else uni_caseless_eq p c.

End WithUnicode.

Fixpoint lstrip (s : pystr) : pystr :=
  match s with
  | c :: s' => if is_space c then lstrip s' else s
  | [] => []
  end.

Definition rstrip (s : pystr) : pystr := rev (lstrip (rev s)).

(** [s.strip()] *)
Definition strip (s : pystr) : pystr := rstrip (lstrip s).

(** No whitespace at the front, resp. at the back. *)
Definition starts_clean (s : pystr) : Prop :=
  match s with c :: _ => is_space c = false | [] => True end.

Definition ends_clean (s : pystr) : Prop := starts_clean (rev s).

(** [s.startswith(p)] *)
Fixpoint startswith (p s : pystr) : bool :=
  match p, s with
  | [], _ => true
  | a :: p', b :: s' => (a =? b)%N && startswith p' s'
  | _ :: _, [] => false
  end.

(** [not s] for a string *)
Definition is_empty (s : pystr) : bool :=
  match s with [] => true | _ => false end.

End PyStr.

(** An interpreter whose tables stop at ASCII: beyond it no character is
    alphanumeric, a digit, or cased. Used to run the definitions. *)
Definition ascii_tables : UnicodeDB := {|
  uni_isalnum := fun _ => false;
  uni_decimal := fun _ => None;
  uni_lower := map PyStr.ascii_lower;
  uni_caseless_eq := fun p c => (PyStr.ascii_lower c =? PyStr.ascii_lower p)%N
|}.

(* ================================================================= *)
(** * assistant/features/todo.py *)
(* ================================================================= *)

Module Todo.
Import PyStr.

(** A task is the dictionary [add_task] builds. *)
Record task : Type := mkTask {
  id : Z;
  title : pystr;
  status : pystr;
  created_at : pystr
}.

Definition task_eqb (a b : task) : bool :=
  (id a =? id b)%Z && pystr_eqb (title a) (title b)
  && pystr_eqb (status a) (status b) && pystr_eqb (created_at a) (created_at b).

(** The module's state: the global list [tasks] and the content of
    [tasks.json] ([None] while the file does not exist). *)
Record store : Type := mkStore {
  tasks : list task;
  file : option (list task)
}.

(** Module initialisation: [tasks] is the file's content, or [[]]. *)
Definition load (f : option (list task)) : store :=
  match f with
  | Some l => mkStore l f
  | None => mkStore [] None
  end.

Definition empty_store : store := load None.

(** [_save_tasks()] rewrites the file with the current list. *)
Definition _save_tasks (s : store) : store := mkStore (tasks s) (Some (tasks s)).

(** What callers pass as [task_id]: the dispatcher hands over an integer
    when the argument parses as one, and the string otherwise. *)
Inductive task_ref : Type :=
| RefInt (n : Z)
| RefStr (s : pystr).

(** [t["id"] == task_id]; an integer never equals a string. *)
Definition id_matches (r : task_ref) (t : task) : bool :=
  match r with
  | RefInt n => (id t =? n)%Z
  | RefStr _ => false
  end.

Section WithUnicode.
Context {U : UnicodeDB}.

(** [add_task(title)]; [now] is [datetime.now().isoformat()]. *)
Definition add_task (now : pystr) (title0 : pystr) (s : store) : pystr * store :=
  let title := strip title0 in
  if is_empty title then (u "Task cannot be empty", s)
  else if existsb (fun t => pystr_eqb (lower (Todo.title t)) (lower title)) (tasks s)
  then (u "Task already exists", s)
  else
    let t := mkTask (Z.of_nat (length (tasks s)) + 1) title (u "pending") now in
    (u "Task added: " ++ title, _save_tasks (mkStore (tasks s ++ [t]) (file s))).

End WithUnicode.

(** [get_tasks(status)] *)
Definition get_tasks (st : option pystr) (s : store) : list task :=
  match st with
  | None => tasks s
  | Some w =>
    if pystr_eqb w (u "pending") || pystr_eqb w (u "done")
    then filter (fun t => pystr_eqb (status t) w) (tasks s)
    else []
  end.

(** [list.remove(x)]: drops the first element equal to [x]. *)
Fixpoint list_remove (x : task) (l : list task) : list task :=
  match l with
  | [] => []
  | y :: l' => if task_eqb y x then l' else y :: list_remove x l'
  end.

(** [remove_task(task_id)] *)
Definition remove_task (r : task_ref) (s : store) : pystr * store :=
  match find (id_matches r) (tasks s) with
  | Some t =>
    (u "Removed task: " ++ title t,
     _save_tasks (mkStore (list_remove t (tasks s)) (file s)))
  | None => (u "Task not found", s)
  end.

(** The loop of [mark_done]: the first task whose id matches gets the
    status ["done"], in place. *)
Fixpoint set_done_first (r : task_ref) (l : list task) : option (task * list task) :=
  match l with
  | [] => None
  | t :: l' =>
    if id_matches r t
    then let t' := mkTask (id t) (title t) (u "done") (created_at t) in
         Some (t', t' :: l')
    else match set_done_first r l' with
         | Some (t', l'') => Some (t', t :: l'')
         | None => None
         end
  end.

(** [mark_done(task_id)] *)
Definition mark_done (r : task_ref) (s : store) : pystr * store :=
  match set_done_first r (tasks s) with
  | Some (t, l) => (u "Marked done: " ++ title t, _save_tasks (mkStore l (file s)))
  | None => (u "Task not found", s)
  end.

(** ** Sequences of operations and what they keep *)

(** One mutating call from outside the module. *)
Inductive command : Type :=
| CmdAdd (now title : pystr)
| CmdRemove (r : task_ref)
| CmdDone (r : task_ref).

Section Commands.
Context {U : UnicodeDB}.

Definition step (s : store) (c : command) : store :=
  match c with
  | CmdAdd now title => snd (add_task now title s)
  | CmdRemove r => snd (remove_task r s)
  | CmdDone r => snd (mark_done r s)
  end.

Definition run (cs : list command) (s : store) : store := fold_left step cs s.

(** No two stored titles are equal up to letter case. *)
Definition unique_titles (l : list task) : Prop :=
  NoDup (map (fun t => lower (title t)) l).

End Commands.

(** The status is one of the two the module writes. *)
Definition known_status (t : task) : Prop :=
  status t = u "pending" \/ status t = u "done".

(** Starting the module again on the file gives the same state. *)
Definition reloads (s : store) : Prop := load (file s) = s.

Section Scenario.
Context {U : UnicodeDB}.

(** The store after: add "a", add "b", remove 1, add "c". *)
Definition after_add_add_remove_add (now : pystr) : store :=
  let s1 := snd (add_task now (u "a") empty_store) in
  let s2 := snd (add_task now (u "b") s1) in
  let s3 := snd (remove_task (RefInt 1) s2) in
  snd (add_task now (u "c") s3).

End Scenario.

End Todo.

(* ================================================================= *)
(** * The fragment of Python's [re] the sources use *)
(* ================================================================= *)

Module Regex.
Import PyStr.

(** Members of a bracketed set. *)
Inductive set_item : Type :=
| SChar (c : N)
| SRange (lo hi : N)
| SSpace.                       (* \s inside a set *)

(** Things that match exactly one character. *)
Inductive charset : Type :=
| CLit (ignorecase : bool) (c : N)
| CAny                          (* .  : any character but newline *)
| CSpace                        (* \s *)
| CDigit                        (* \d *)
| CSet (negated : bool) (items : list set_item).

Inductive node : Type :=
| Chr (k : charset)
| Rep (k : charset) (lo : nat) (hi : option nat)   (* greedy repetition *)
| Bol                           (* ^ *)
| Eol                           (* $ *)
| Eos                           (* end of the subject, for fullmatch *)
| WordB                         (* \b *)
| GroupOpen
| GroupClose.

Definition regex := list node.

Section WithUnicode.
Context {U : UnicodeDB}.

Definition set_item_match (c : N) (i : set_item) : bool :=
  match i with
  | SChar x => (c =? x)%N
  | SRange lo hi => in_range lo hi c
  | SSpace => is_space c
  end.

Definition char_match (k : charset) (c : N) : bool :=
  match k with
  | CLit ci x => if ci then caseless_eq x c else (c =? x)%N
  | CAny => negb (c =? 10)%N
  | CSpace => is_space c
  | CDigit => match decimal_value c with Some _ => true | None => false end
  | CSet neg items => xorb neg (existsb (set_item_match c) items)
  end.

Definition is_word_opt (o : option N) : bool :=
  match o with Some c => is_word c | None => false end.

(** Group 1 while matching: where it opened, and its text once closed. *)
Definition capture := (option pystr * option pystr)%type.

Definition no_capture : capture := (None, None).

Definition close_group (st : capture) (rest : pystr) : capture :=
  (fst st,
   match fst st with
   | Some opened => Some (firstn (List.length opened - List.length rest) opened)
   | None => None
   end).

Definition below (hi : option nat) (n : nat) : bool :=
  match hi with Some h => n <? h | None => true end.

(** Greedy repetition of a one-character matcher: take as many characters
    as possible and give them back one at a time while the rest of the
    pattern ([cont]) fails. *)
Fixpoint rep_loop {R : Type} (k : charset) (lo : nat) (hi : option nat)
    (cont : option N -> pystr -> option R)
    (n : nat) (prev : option N) (rest : pystr) {struct rest} : option R :=
  let stop := if lo <=? n then cont prev rest else None in
  match rest with
  | c :: rest' =>
    if char_match k c && below hi n then
      match rep_loop k lo hi cont (S n) (Some c) rest' with
      | Some res => Some res
      | None => stop
      end
    else stop
  | [] => stop
  end.

(** Match [r] at the current position: [prev] is the character before it
    ([None] at the start of the subject), [rest] what follows.  The result
    is the unmatched remainder and the text of group 1. *)
Fixpoint exec (r : regex) (prev : option N) (rest : pystr) (st : capture)
    {struct r} : option (pystr * option pystr) :=
  match r with
  | [] => Some (rest, snd st)
  | Chr k :: r' =>
    match rest with
    | c :: rest' => if char_match k c then exec r' (Some c) rest' st else None
    | [] => None
    end
  | Rep k lo hi :: r' =>
    rep_loop k lo hi (fun p s => exec r' p s st) 0 prev rest
  | Bol :: r' =>
    match prev with None => exec r' prev rest st | Some _ => None end
  | Eol :: r' =>
    match rest with
    | [] => exec r' prev rest st
    | [c] => if (c =? 10)%N then exec r' prev rest st else None
    | _ => None
    end
  | Eos :: r' =>
    match rest with [] => exec r' prev rest st | _ => None end
  | WordB :: r' =>
    if xorb (is_word_opt prev) (is_word_opt (hd_error rest))
    then exec r' prev rest st else None
  | GroupOpen :: r' => exec r' prev rest (Some rest, snd st)
  | GroupClose :: r' => exec r' prev rest (close_group st rest)
  end.

(** [pattern.match(s)]: at the start only. *)
Definition re_match (r : regex) (s : pystr) : option (pystr * option pystr) :=
  exec r None s no_capture.

(** [pattern.fullmatch(s)]: the match must end where the subject ends. *)
Definition re_fullmatch (r : regex) (s : pystr) : option (pystr * option pystr) :=
  exec (r ++ [Eos]) None s no_capture.

Fixpoint search_from (r : regex) (prev : option N) (s : pystr)
    : option (pystr * option pystr) :=
  match exec r prev s no_capture with
  | Some res => Some res
  | None =>
    match s with
    | c :: s' => search_from r (Some c) s'
    | [] => None
    end
  end.

(** [pattern.search(s)]: the leftmost position where the pattern matches. *)
Definition re_search (r : regex) (s : pystr) : option (pystr * option pystr) :=
  search_from r None s.

(** [m.group(1)] of a successful match. *)
Definition group1 (m : pystr * option pystr) : pystr :=
  match snd m with Some g => g | None => [] end.

(** [pattern.sub("", s)]: every non-overlapping match, leftmost first, is
    deleted. An empty match deletes nothing. *)
Fixpoint sub_empty_from (fuel : nat) (r : regex) (prev : option N) (s : pystr) : pystr :=
  match fuel with
  | O => s
  | S fuel' =>
    match s with
    | [] => []
    | c :: s' =>
      match exec r prev s no_capture with
      | Some (rest, _) =>
        if List.length rest <? List.length s
        then sub_empty_from fuel' r
               (nth_error s (List.length s - List.length rest - 1)) rest
        else c :: sub_empty_from fuel' r (Some c) s'
      | None => c :: sub_empty_from fuel' r (Some c) s'
      end
    end
  end.

Definition re_sub_empty (r : regex) (s : pystr) : pystr :=
  sub_empty_from (List.length s) r None s.

(** ** What a match is

    [Matches r prev rest st out g]: the pattern [r] can match a prefix of
    [rest] leaving [out], with group 1 equal to [g] at the end.  The matcher
    above finds one such match, by priority; this relation describes all. *)

(** The character before the position reached after reading [taken]. *)
Definition last_opt (taken : pystr) (prev : option N) : option N :=
  fold_left (fun _ c => Some c) taken prev.

Definition within (hi : option nat) (n : nat) : Prop :=
  match hi with Some h => n <= h | None => True end.

(** What the next character must be for a run of [k] to end here. *)
Definition run_ends (k : charset) (rest : pystr) : Prop :=
  match rest with c :: _ => char_match k c = false | [] => True end.

Inductive Matches : regex -> option N -> pystr -> capture -> pystr -> option pystr -> Prop :=
| M_nil prev rest st :
    Matches [] prev rest st rest (snd st)
| M_chr k r c prev rest st out g :
    char_match k c = true ->
    Matches r (Some c) rest st out g ->
    Matches (Chr k :: r) prev (c :: rest) st out g
| M_rep k lo hi r taken prev rest st out g :
    forallb (char_match k) taken = true ->
    lo <= List.length taken ->
    within hi (List.length taken) ->
    Matches r (last_opt taken prev) rest st out g ->
    Matches (Rep k lo hi :: r) prev (taken ++ rest) st out g
| M_bol r rest st out g :
    Matches r None rest st out g ->
    Matches (Bol :: r) None rest st out g
| M_eol r prev rest st out g :
    rest = [] \/ rest = [10%N] ->
    Matches r prev rest st out g ->
    Matches (Eol :: r) prev rest st out g
| M_eos r prev st out g :
    Matches r prev [] st out g ->
    Matches (Eos :: r) prev [] st out g
| M_wordb r prev rest st out g :
    xorb (is_word_opt prev) (is_word_opt (hd_error rest)) = true ->
    Matches r prev rest st out g ->
    Matches (WordB :: r) prev rest st out g
| M_open r prev rest st out g :
    Matches r prev rest (Some rest, snd st) out g ->
    Matches (GroupOpen :: r) prev rest st out g
| M_close r prev rest st out g :
    Matches r prev rest (close_group st rest) out g ->
    Matches (GroupClose :: r) prev rest st out g.

End WithUnicode.

(** ** Reading a pattern *)

(** [re.escape(p)] puts a backslash before the characters that are special
    in a pattern. *)
Definition special_chars : pystr := u "()[]{}?*+-|^$\.&~# " ++ [9; 10; 13; 11; 12]%N.

Definition re_escape (p : pystr) : pystr :=
  flat_map (fun c => if existsb (N.eqb c) special_chars then [92%N; c] else [c]) p.

Definition chr (s : String.string) : N := hd 0%N (u s).
Arguments chr s%_string.

Definition is_ascii_alnum (c : N) : bool :=
  is_lower_az c || is_upper_az c || is_digit09 c.

(** Inside brackets, up to the closing one. *)
Fixpoint parse_set (fuel : nat) (p : pystr) (acc : list set_item)
    : option (list set_item * pystr) :=
  match fuel with
  | O => None
  | S fuel' =>
    match p with
    | [] => None
    | c :: p1 =>
      if (c =? chr "]")%N then Some (rev acc, p1)
      else if (c =? chr "\")%N then
        match p1 with
        | e :: p2 =>
          if (e =? chr "s")%N then parse_set fuel' p2 (SSpace :: acc)
          else if is_ascii_alnum e then None
          else parse_set fuel' p2 (SChar e :: acc)
        | [] => None
        end
      else
        match p1 with
        | d :: hi :: p3 =>
          if (d =? chr "-")%N && negb (hi =? chr "]")%N && negb (hi =? chr "\")%N
          then parse_set fuel' p3 (SRange c hi :: acc)
          else parse_set fuel' p1 (SChar c :: acc)
        | _ => parse_set fuel' p1 (SChar c :: acc)
        end
    end
  end.

(** A quantifier after a one-character matcher. *)
Definition quantified (k : charset) (p : pystr) : node * pystr :=
  match p with
  | q :: p' =>
    if (q =? chr "+")%N then (Rep k 1 None, p')
    else if (q =? chr "*")%N then (Rep k 0 None, p')
    else if (q =? chr "?")%N then (Rep k 0 (Some 1), p')
    else (Chr k, p)
  | [] => (Chr k, p)
  end.

(** The pattern syntax of the sources: literals, escapes [\s \d \b] and
    escaped punctuation, [.], [^], [$], one pair of parentheses, bracketed
    sets, and the quantifiers [+ * ?] on one-character matchers. [None] for
    anything else. *)
Fixpoint parse (fuel : nat) (ignorecase : bool) (p : pystr) : option regex :=
  match fuel with
  | O => match p with [] => Some [] | _ => None end
  | S fuel' =>
    let one (k : charset) (p' : pystr) :=
      let (nd, p'') := quantified k p' in
      option_map (cons nd) (parse fuel' ignorecase p'') in
    let zero (nd : node) (p' : pystr) :=
      option_map (cons nd) (parse fuel' ignorecase p') in
    match p with
    | [] => Some []
    | c :: p1 =>
      if (c =? chr "\")%N then
        match p1 with
        | e :: p2 =>
          if (e =? chr "s")%N then one CSpace p2
          else if (e =? chr "d")%N then one CDigit p2
          else if (e =? chr "b")%N then zero WordB p2
          else if is_ascii_alnum e then None
          else one (CLit ignorecase e) p2
        | [] => None
        end
      else if (c =? chr ".")%N then one CAny p1
      else if (c =? chr "^")%N then zero Bol p1
      else if (c =? chr "$")%N then zero Eol p1
      else if (c =? chr "(")%N then zero GroupOpen p1
      else if (c =? chr ")")%N then zero GroupClose p1
      else if (c =? chr "[")%N then
        match p1 with
        | x :: p2 =>
          let (neg, body) := if (x =? chr "^")%N then (true, p2) else (false, p1) in
          match parse_set (List.length body) body [] with
          | Some (items, p3) => one (CSet neg items) p3
          | None => None
          end
        | [] => None
        end
      else if existsb (N.eqb c) (u "*+?{}|") then None
      else one (CLit ignorecase c) p1
    end
  end.

(** [re.compile(p)] and [re.compile(p, re.IGNORECASE)]; a pattern outside
    the fragment compiles to [None]. *)
Definition compile (ignorecase : bool) (p : pystr) : option regex :=
  parse (List.length p) ignorecase p.

(** A run of literal characters. *)
Definition literals (ignorecase : bool) (s : pystr) : regex :=
  map (fun c => Chr (CLit ignorecase c)) s.

(** Comparing compiled patterns. *)
Definition set_item_eqb (a b : set_item) : bool :=
  match a, b with
  | SChar x, SChar y => (x =? y)%N
  | SRange l h, SRange l' h' => (l =? l')%N && (h =? h')%N
  | SSpace, SSpace => true
  | _, _ => false
  end.

Fixpoint list_eqb {A : Type} (eqb : A -> A -> bool) (a b : list A) : bool :=
  match a, b with
  | [], [] => true
  | x :: a', y :: b' => eqb x y && list_eqb eqb a' b'
  | _, _ => false
  end.

Definition charset_eqb (a b : charset) : bool :=
  match a, b with
  | CLit i x, CLit j y => Bool.eqb i j && (x =? y)%N
  | CAny, CAny => true
  | CSpace, CSpace => true
  | CDigit, CDigit => true
  | CSet n l, CSet n' l' => Bool.eqb n n' && list_eqb set_item_eqb l l'
  | _, _ => false
  end.

Definition node_eqb (a b : node) : bool :=
  match a, b with
  | Chr k, Chr k' => charset_eqb k k'
  | Rep k lo hi, Rep k' lo' hi' =>
    charset_eqb k k' && (lo =? lo') &&
    match hi, hi' with
    | Some h, Some h' => h =? h'
    | None, None => true
    | _, _ => false
    end
  | Bol, Bol | Eol, Eol | Eos, Eos | WordB, WordB
  | GroupOpen, GroupOpen | GroupClose, GroupClose => true
  | _, _ => false
  end.

Definition compiles_to (ignorecase : bool) (p : pystr) (r : regex) : bool :=
  match compile ignorecase p with
  | Some r' => list_eqb node_eqb r' r
  | None => false
  end.

End Regex.

(* ================================================================= *)
(** * assistant/features/calculator.py *)
(* ================================================================= *)

Module Calculator.
Import PyStr Regex.

(** ** Python values and exceptions that [eval] can produce here

    After the character check only digits, [+ - * / % . ( )] reach [eval],
    so the objects are integers, floats (binary64), complex numbers (from
    fractional powers of negative numbers), the empty tuple [()] and
    [Ellipsis] ([...]).  [VStr] is for the messages [evaluate] returns. *)
Inductive pyval : Type :=
| VInt (n : Z)
| VFloat (f : spec_float)
| VComplex (re im : spec_float)
| VEmptyTuple
| VEllipsis
| VStr (s : pystr).

(** All of these derive from [Exception]. *)
Inductive pyexn : Type :=
| ZeroDivisionError
| OverflowError
| TypeError
| SyntaxError
| ValueError.

Inductive outcome : Type :=
| Returns (v : pyval)
| Raises (e : pyexn).

Inductive binop : Type := Add | Sub | Mul | Div | FloorDiv | Mod | Pow.

(** What the model takes from the interpreter's C runtime instead of
    defining it: the operations built on the platform's [fmod], [floor]
    and [pow], complex arithmetic, and the width of an index. *)
Record runtime : Type := {
  (** [x ** y] except for an integer to a non-negative integer power *)
  rt_pow : pyval -> pyval -> outcome;
  (** [x // y] and [x % y] on floats, [y] not zero *)
  rt_float_floordiv : spec_float -> spec_float -> outcome;
  rt_float_mod : spec_float -> spec_float -> outcome;
  (** a binary operation with a complex operand *)
  rt_complex : binop -> pyval -> pyval -> outcome;
  (** whether an integer fits [Py_ssize_t] (sequence repetition) *)
  rt_index_fits : Z -> bool
}.

(** ** Floats *)

Definition prec : Z := 53.
Definition emax : Z := 1024.

(** The float nearest to [a / b], for integers [a] and [b > 0]. *)
Definition float_of_ratio (a : Z) (b : positive) : spec_float :=
  match a with
  | Z0 => S754_zero false
  | Zpos p => SFdiv prec emax (S754_finite false p 0) (S754_finite false b 0)
  | Zneg p => SFdiv prec emax (S754_finite true p 0) (S754_finite false b 0)
  end.

(** [float(n)] for an integer: nearest float, [OverflowError] beyond the
    range. *)
Definition float_of_int (n : Z) : option spec_float :=
  match float_of_ratio n 1 with
  | S754_infinity _ => None
  | f => Some f
  end.

(** [a / b] on integers, [b] not zero: the nearest float. *)
Definition int_true_divide (a b : Z) : outcome :=
  match a, b with
  | _, Z0 => Raises ZeroDivisionError
  | Z0, Zpos _ => Returns (VFloat (S754_zero false))
  | Z0, Zneg _ => Returns (VFloat (S754_zero true))
  | _, Zpos q =>
    match float_of_ratio a q with
    | S754_infinity _ => Raises OverflowError
    | f => Returns (VFloat f)
    end
  | _, Zneg q =>
    match float_of_ratio (- a) q with
    | S754_infinity _ => Raises OverflowError
    | f => Returns (VFloat f)
    end
  end.

Definition is_zero (f : spec_float) : bool :=
  match f with S754_zero _ => true | _ => false end.

(** [f.is_integer()] *)
Definition is_integer (f : spec_float) : bool :=
  match f with
  | S754_zero _ => true
  | S754_finite _ m e =>
    match e with
    | Zneg k => (Zpos m mod 2 ^ Zpos k =? 0)%Z
    | _ => true
    end
  | _ => false
  end.

(** [int(f)] for a finite float: truncation toward zero. *)
Definition int_of_float (f : spec_float) : Z :=
  match f with
  | S754_finite s m e =>
    let a := match e with
             | Zneg k => (Zpos m / 2 ^ Zpos k)%Z
             | _ => (Zpos m * 2 ^ e)%Z
             end in
    if s then (- a)%Z else a
  | _ => 0%Z
  end.

(** The float [f] is exactly the integer [n]: its value [m * 2^e] has no
    fractional part. *)
Definition denotes_integer (f : spec_float) (n : Z) : Prop :=
  match f with
  | S754_zero _ => n = 0%Z
  | S754_finite s m e =>
    match e with
    | Zneg k => (n * 2 ^ Zpos k = if s then Zneg m else Zpos m)%Z
    | _ => (n = (if s then Zneg m else Zpos m) * 2 ^ e)%Z
    end
  | _ => False
  end.


(** ** Tokens *)

Inductive token : Type :=
| TNum (v : pyval)
| TPlus | TMinus | TStar | TSlash | TPercent
| TDoubleStar | TDoubleSlash
| TLParen | TRParen
| TDot | TEllipsis.

Fixpoint take_digits (s : pystr) : pystr * pystr :=
  match s with
  | c :: s' =>
    if is_digit09 c
    then let (d, r) := take_digits s' in (c :: d, r)
    else ([], s)
  | [] => ([], [])
  end.

Definition digits_value (d : pystr) : Z :=
  fold_left (fun acc c => (10 * acc + Z.of_N (c - 48))%Z) d 0%Z.

(** A decimal integer literal: no leading zero unless it is all zeros. *)
Definition int_literal (d : pystr) : option pyval :=
  match d with
  | c :: _ :: _ =>
    if (c =? 48)%N && negb (forallb (N.eqb 48) d) then None
    else Some (VInt (digits_value d))
  | _ => Some (VInt (digits_value d))
  end.

(** A literal with a point: integer digits [d1], fraction digits [d2]. *)
Definition float_literal (d1 d2 : pystr) : pyval :=
  VFloat (float_of_ratio (digits_value (d1 ++ d2))
                         (Z.to_pos (10 ^ Z.of_nat (List.length d2)))).

Fixpoint tokenize (fuel : nat) (s : pystr) : option (list token) :=
  match fuel with
  | O => match s with [] => Some [] | _ => None end
  | S fuel' =>
    let emit (t : token) (r : pystr) := option_map (cons t) (tokenize fuel' r) in
    match s with
    | [] => Some []
    | c :: s' =>
      if is_digit09 c then
        let (d1, r) := take_digits s in
        match r with
        | 46%N :: r' =>
          let (d2, r'') := take_digits r' in emit (TNum (float_literal d1 d2)) r''
        | _ =>
          match int_literal d1 with
          | Some v => emit (TNum v) r
          | None => None
          end
        end
      else if (c =? 46)%N then
        match s' with
        | d :: _ =>
          if is_digit09 d then
            let (d2, r) := take_digits s' in emit (TNum (float_literal [] d2)) r
          else
            match s' with
            | 46%N :: 46%N :: r => emit TEllipsis r
            | _ => emit TDot s'
            end
        | [] => emit TDot s'
        end
      else if (c =? 42)%N then
        match s' with
        | 42%N :: r => emit TDoubleStar r
        | _ => emit TStar s'
        end
      else if (c =? 47)%N then
        match s' with
        | 47%N :: r => emit TDoubleSlash r
        | _ => emit TSlash s'
        end
      else if (c =? 43)%N then emit TPlus s'
      else if (c =? 45)%N then emit TMinus s'
      else if (c =? 37)%N then emit TPercent s'
      else if (c =? 40)%N then emit TLParen s'
      else if (c =? 41)%N then emit TRParen s'
      else None
    end
  end.

(** ** Expressions *)

Inductive expr : Type :=
| ENum (v : pyval)
| EEllipsis
| EEmptyTuple
| ENeg (e : expr)
| EPos (e : expr)
| EBin (op : binop) (e1 e2 : expr)
| ECall (f : expr) (arg : option expr).   (* f(), f(e), f( *e ), f( **e ) *)

(** The expression grammar, as far as these tokens reach:
<<
   sum     ::= term   (('+' | '-') term)*
   term    ::= factor (('*' | '/' | '//' | '%') factor)*
   factor  ::= ('+' | '-') factor | power
   power   ::= primary ['**' factor]
   primary ::= atom ('(' [['*' | '**'] sum] ')')*
   atom    ::= NUMBER | '...' | '(' ')' | '(' sum ')'
>>
    [fuel] bounds the nesting of calls. *)
Fixpoint parse_sum (fuel : nat) (ts : list token) : option (expr * list token) :=
  match fuel with
  | O => None
  | S f =>
    match parse_term f ts with
    | Some (e, ts') => sum_loop f e ts'
    | None => None
    end
  end
with sum_loop (fuel : nat) (e : expr) (ts : list token) : option (expr * list token) :=
  match fuel with
  | O => None
  | S f =>
    match ts with
    | TPlus :: ts' =>
      match parse_term f ts' with
      | Some (e2, ts'') => sum_loop f (EBin Add e e2) ts''
      | None => None
      end
    | TMinus :: ts' =>
      match parse_term f ts' with
      | Some (e2, ts'') => sum_loop f (EBin Sub e e2) ts''
      | None => None
      end
    | _ => Some (e, ts)
    end
  end
with parse_term (fuel : nat) (ts : list token) : option (expr * list token) :=
  match fuel with
  | O => None
  | S f =>
    match parse_factor f ts with
    | Some (e, ts') => term_loop f e ts'
    | None => None
    end
  end
with term_loop (fuel : nat) (e : expr) (ts : list token) : option (expr * list token) :=
  match fuel with
  | O => None
  | S f =>
    let next (op : binop) (ts' : list token) :=
      match parse_factor f ts' with
      | Some (e2, ts'') => term_loop f (EBin op e e2) ts''
      | None => None
      end in
    match ts with
    | TStar :: ts' => next Mul ts'
    | TSlash :: ts' => next Div ts'
    | TDoubleSlash :: ts' => next FloorDiv ts'
    | TPercent :: ts' => next Mod ts'
    | _ => Some (e, ts)
    end
  end
with parse_factor (fuel : nat) (ts : list token) : option (expr * list token) :=
  match fuel with
  | O => None
  | S f =>
    match ts with
    | TPlus :: ts' =>
      match parse_factor f ts' with
      | Some (e, ts'') => Some (EPos e, ts'')
      | None => None
      end
    | TMinus :: ts' =>
      match parse_factor f ts' with
      | Some (e, ts'') => Some (ENeg e, ts'')
      | None => None
      end
    | _ => parse_power f ts
    end
  end
with parse_power (fuel : nat) (ts : list token) : option (expr * list token) :=
  match fuel with
  | O => None
  | S f =>
    match parse_primary f ts with
    | Some (e, TDoubleStar :: ts') =>
      match parse_factor f ts' with
      | Some (e2, ts'') => Some (EBin Pow e e2, ts'')
      | None => None
      end
    | r => r
    end
  end
with parse_primary (fuel : nat) (ts : list token) : option (expr * list token) :=
  match fuel with
  | O => None
  | S f =>
    match parse_atom f ts with
    | Some (e, ts') => trailer_loop f e ts'
    | None => None
    end
  end
with trailer_loop (fuel : nat) (e : expr) (ts : list token) : option (expr * list token) :=
  match fuel with
  | O => None
  | S f =>
    let argument (ts' : list token) :=
      match parse_sum f ts' with
      | Some (a, TRParen :: ts'') => trailer_loop f (ECall e (Some a)) ts''
      | _ => None
      end in
    match ts with
    | TLParen :: TRParen :: ts' => trailer_loop f (ECall e None) ts'
    | TLParen :: TStar :: ts' => argument ts'
    | TLParen :: TDoubleStar :: ts' => argument ts'
    | TLParen :: ts' => argument ts'
    | _ => Some (e, ts)
    end
  end
with parse_atom (fuel : nat) (ts : list token) : option (expr * list token) :=
  match fuel with
  | O => None
  | S f =>
    match ts with
    | TNum v :: ts' => Some (ENum v, ts')
    | TEllipsis :: ts' => Some (EEllipsis, ts')
    | TLParen :: TRParen :: ts' => Some (EEmptyTuple, ts')
    | TLParen :: ts' =>
      match parse_sum f ts' with
      | Some (e, TRParen :: ts'') => Some (e, ts'')
      | _ => None
      end
    | _ => None
    end
  end.

(** The whole token list must be one expression. *)
Definition parse (ts : list token) : option expr :=
  match parse_sum (16 * (List.length ts + 1)) ts with
  | Some (e, []) => Some e
  | _ => None
  end.

(** ** Evaluation *)

Section WithRuntime.
Variable rt : runtime.

Definition to_float (v : pyval) : option (option spec_float) :=
  match v with
  | VInt n => Some (float_of_int n)          (* [Some None]: OverflowError *)
  | VFloat f => Some (Some f)
  | _ => None
  end.

Definition float_binop (op : binop) (x y : spec_float) : outcome :=
  match op with
  | Add => Returns (VFloat (SFadd prec emax x y))
  | Sub => Returns (VFloat (SFsub prec emax x y))
  | Mul => Returns (VFloat (SFmul prec emax x y))
  | Div => if is_zero y then Raises ZeroDivisionError
           else Returns (VFloat (SFdiv prec emax x y))
  | FloorDiv => if is_zero y then Raises ZeroDivisionError
                else rt_float_floordiv rt x y
  | Mod => if is_zero y then Raises ZeroDivisionError
           else rt_float_mod rt x y
  | Pow => rt_pow rt (VFloat x) (VFloat y)
  end.

Definition int_binop (op : binop) (a b : Z) : outcome :=
  match op with
  | Add => Returns (VInt (a + b))
  | Sub => Returns (VInt (a - b))
  | Mul => Returns (VInt (a * b))
  | Div => int_true_divide a b
  | FloorDiv => if (b =? 0)%Z then Raises ZeroDivisionError else Returns (VInt (a / b))
  | Mod => if (b =? 0)%Z then Raises ZeroDivisionError else Returns (VInt (a mod b))
  | Pow => if (0 <=? b)%Z then Returns (VInt (a ^ b)) else rt_pow rt (VInt a) (VInt b)
  end.

Definition is_sequence_or_ellipsis (v : pyval) : bool :=
  match v with VEmptyTuple | VEllipsis | VStr _ => true | _ => false end.

Definition is_complex (v : pyval) : bool :=
  match v with VComplex _ _ => true | _ => false end.

Definition repeat_empty (n : Z) : outcome :=
  if rt_index_fits rt n then Returns VEmptyTuple else Raises OverflowError.

Definition apply_binop (op : binop) (x y : pyval) : outcome :=
  match op, x, y with
  | Add, VEmptyTuple, VEmptyTuple => Returns VEmptyTuple
  | Mul, VEmptyTuple, VInt n => repeat_empty n
  | Mul, VInt n, VEmptyTuple => repeat_empty n
  | _, _, _ =>
    if is_sequence_or_ellipsis x || is_sequence_or_ellipsis y then Raises TypeError
    else if is_complex x || is_complex y then rt_complex rt op x y
    else
      match x, y with
      | VInt a, VInt b => int_binop op a b
      | _, _ =>
        match op with
        | Pow => rt_pow rt x y
        | _ =>
          match to_float x, to_float y with
          | Some (Some fx), Some (Some fy) => float_binop op fx fy
          | Some None, _ => Raises OverflowError
          | Some (Some _), Some None => Raises OverflowError
          | _, _ => Raises TypeError
          end
        end
      end
  end.

Definition negate (v : pyval) : outcome :=
  match v with
  | VInt n => Returns (VInt (- n))
  | VFloat f => Returns (VFloat (SFopp f))
  | VComplex re im => Returns (VComplex (SFopp re) (SFopp im))
  | _ => Raises TypeError
  end.

Definition positive_of (v : pyval) : outcome :=
  match v with
  | VInt _ | VFloat _ | VComplex _ _ => Returns v
  | _ => Raises TypeError
  end.

(** Operands are evaluated left to right; the first exception wins.
    Calling a number, a tuple or [Ellipsis] raises [TypeError] once the
    argument has been evaluated. *)
Fixpoint eval_expr (e : expr) : outcome :=
  match e with
  | ENum v => Returns v
  | EEllipsis => Returns VEllipsis
  | EEmptyTuple => Returns VEmptyTuple
  | ENeg e1 =>
    match eval_expr e1 with
    | Returns v => negate v
    | Raises x => Raises x
    end
  | EPos e1 =>
    match eval_expr e1 with
    | Returns v => positive_of v
    | Raises x => Raises x
    end
  | EBin op e1 e2 =>
    match eval_expr e1 with
    | Returns v1 =>
      match eval_expr e2 with
      | Returns v2 => apply_binop op v1 v2
      | Raises x => Raises x
      end
    | Raises x => Raises x
    end
  | ECall f arg =>
    match eval_expr f with
    | Returns _ =>
      match arg with
      | Some a =>
        match eval_expr a with
        | Returns _ => Raises TypeError
        | Raises x => Raises x
        end
      | None => Raises TypeError
      end
    | Raises x => Raises x
    end
  end.

(** [eval(expr, {"__builtins__": None}, {})] on a string over the
    calculator's alphabet. *)
Definition py_eval (s : pystr) : outcome :=
  match tokenize (List.length s) s with
  | Some ts =>
    match parse ts with
    | Some e => eval_expr e
    | None => Raises SyntaxError
    end
  | None => Raises SyntaxError
  end.

Section WithUnicode.
Context {U : UnicodeDB}.

(** [expr.replace(" ", "")] *)
Definition remove_spaces (s : pystr) : pystr :=
  filter (fun c => negb (c =? 32)%N) s.

(** [re.fullmatch(r"[0-9+\-*/%.()]+", expr)] *)
Definition valid_characters (s : pystr) : bool :=
  match compile false (u "[0-9+\-*/%.()]+") with
  | Some r => match re_fullmatch r s with Some _ => true | None => false end
  | None => false
  end.

(** [evaluate(expr)] *)
Definition evaluate (expr0 : pystr) : pyval :=
  let expr := remove_spaces expr0 in
  if negb (valid_characters expr) then VStr (u "Invalid characters in expression")
  else
    match py_eval expr with
    | Returns (VFloat f) => if is_integer f then VInt (int_of_float f) else VFloat f
    | Returns v => v
    | Raises ZeroDivisionError => VStr (u "Division by zero is not allowed")
    | Raises _ => VStr (u "Invalid expression")
    end.

End WithUnicode.
End WithRuntime.

(** ** Reading [evaluate] from outside *)

(** The alphabet of [evaluate]'s check: digits, [+ - * / % .] and
    parentheses. *)
Definition allowed_char (c : N) : bool :=
  is_digit09 c || existsb (N.eqb c) (u "+-*/%.()").

(** What [evaluate] makes of an outcome of [eval]. *)
Definition returned (o : outcome) : pyval :=
  match o with
  | Returns (VFloat f) => if is_integer f then VInt (int_of_float f) else VFloat f
  | Returns v => v
  | Raises ZeroDivisionError => VStr (u "Division by zero is not allowed")
  | Raises _ => VStr (u "Invalid expression")
  end.

(** A decimal integer as one writes it: digits, no needless leading zero. *)
Definition plain_number (d : pystr) : bool :=
  forallb is_digit09 d &&
  match d with
  | [] => false
  | [_] => true
  | c :: _ => negb (c =? 48)%N
  end.

(** How a binary operator is written. *)
Definition op_text (op : binop) : pystr :=
  match op with
  | Add => u "+" | Sub => u "-" | Mul => u "*" | Div => u "/"
  | FloorDiv => u "//" | Mod => u "%" | Pow => u "**"
  end.

(** The token of a binary operator. *)
Definition op_token (op : binop) : token :=
  match op with
  | Add => TPlus | Sub => TMinus | Mul => TStar | Div => TSlash
  | FloorDiv => TDoubleSlash | Mod => TPercent | Pow => TDoubleStar
  end.

(** A runtime to run the definitions with: every operation it is asked
    for raises. *)
Definition bare_runtime : runtime := {|
  rt_pow := fun _ _ => Raises ValueError;
  rt_float_floordiv := fun _ _ => Raises ValueError;
  rt_float_mod := fun _ _ => Raises ValueError;
  rt_complex := fun _ _ _ => Raises TypeError;
  rt_index_fits := fun n => (- 2 ^ 63 <=? n)%Z && (n <? 2 ^ 63)%Z
|}.

End Calculator.

(* ================================================================= *)
(** * assistant/features/dictionary.py *)
(* ================================================================= *)

Module Dictionary.
Import PyStr.

(** What [response.json()] hands back. *)
Inductive json : Type :=
| JNull
| JBool (b : bool)
| JInt (n : Z)
| JFloat (f : spec_float)
| JStr (s : pystr)
| JArr (l : list json)
| JObj (members : list (pystr * json)).

(** [v[0]]; [None] stands for the exception Python raises. *)
Definition index0 (v : json) : option json :=
  match v with
  | JArr (x :: _) => Some x
  | JStr (c :: _) => Some (JStr [c])
  | _ => None
  end.

(** [v[k]] for a string key: only a dictionary has one, and of two members
    with the same key the parser kept the later. *)
Fixpoint lookup (k : pystr) (l : list (pystr * json)) : option json :=
  match l with
  | [] => None
  | (k', x) :: l' =>
    match lookup k l' with
    | Some y => Some y
    | None => if pystr_eqb k' k then Some x else None
    end
  end.

Definition getitem (k : pystr) (v : json) : option json :=
  match v with
  | JObj l => lookup k l
  | _ => None
  end.

Definition bind {A B : Type} (o : option A) (f : A -> option B) : option B :=
  match o with Some a => f a | None => None end.

Section WithService.
(** [requests.get(url, timeout=5).json()]; [None] when the request or the
    decoding raises. *)
Variable http_get_json : pystr -> option json.

(** [get_meaning(word)] *)
Definition get_meaning (word : pystr) : json :=
  let url := u "https://api.dictionaryapi.dev/api/v2/entries/en/" ++ word in
  match
    bind (http_get_json url) (fun res =>
    bind (index0 res) (fun r0 =>
    bind (getitem (u "meanings") r0) (fun ms =>
    bind (index0 ms) (fun m0 =>
    bind (getitem (u "definitions") m0) (fun ds =>
    bind (index0 ds) (fun d0 =>
    getitem (u "definition") d0))))))
  with
  | Some v => v
  | None => JStr (u "Meaning not found.")
  end.

End WithService.

(** Truth value of an object, as [x if x else y] tests it. *)
Definition truthy (v : json) : bool :=
  match v with
  | JNull => false
  | JBool b => b
  | JInt n => negb (n =? 0)%Z
  | JFloat (S754_zero _) => false
  | JFloat _ => true
  | JStr s => negb (is_empty s)
  | JArr l => match l with [] => false | _ => true end
  | JObj l => match l with [] => false | _ => true end
  end.

(** The answer of the lookup service for a word with an empty definition. *)
Definition empty_definition : json :=
  JArr [JObj [(u "meanings",
               JArr [JObj [(u "definitions",
                            JArr [JObj [(u "definition", JStr [])]])]])]].

End Dictionary.

(* ================================================================= *)
(** * assistant/chatbot.py *)
(* ================================================================= *)

Module Chatbot.
Import PyStr Regex Dictionary.

Record intent : Type := mkIntent {
  intent_name : pystr;
  patterns : list pystr;
  responses : list pystr
}.

(** The table [intents], in declaration order. *)
Definition intents : list intent :=
  [
  mkIntent (u "greet")
    [
      u "hi"; u "hello"; u "hey"; u "good morning"; u "good evening";
      u "morning"; u "gm"; u "good afternoon"; u "afternoon"; u "good night";
      u "night"; u "hiya"; u "yo"; u "sup"; u "hey there"; u "whatâ€™s up";
      u "whats up"; u "wassup"; u "wazzup"; u "long time no see";
      u "nice to meet you"; u "pleased to meet you"; u "howdy";
      u "greetings"; u "salutations"; u "hola"; u "bonjour"; u "namaste";
      u "salaam"; u "ciao"; u "aloha"; u "hiya buddy"; u "hi assistant";
      u "hello friend"; u "yo assistant"; u "are you there";
      u "anyone there"; u "knock knock"; u "hi bot"; u "hello ai";
      u "hello there"; u "hi there"
    ]
    [
      u "Hello! How can I help you today?"; u "Hey there!";
      u "Hi, whatâ€™s up?"; u "Hello friend! How are you doing?";
      u "Greetings! How may I help?"; u "Hi there, nice to see you!";
      u "Hey! Iâ€™m here to assist you."
    ];
  mkIntent (u "goodbye")
    [
      u "bye"; u "goodbye"; u "see you"; u "see ya"; u "later";
      u "talk to you later"; u "catch you later"; u "farewell";
      u "take care"; u "see you soon"; u "bye bye"; u "good night";
      u "nighty night"; u "adios"; u "ciao"
    ]
    [
      u "Goodbye!"; u "See you later!"; u "Bye! Take care.";
      u "Catch you later!"; u "Farewell, friend!"; u "Bye bye ðŸ‘‹"
    ];
  mkIntent (u "thanks")
    [
      u "thanks"; u "thank you"; u "thx"; u "ty"; u "thanks a lot";
      u "thank you very much"; u "many thanks"; u "appreciate it";
      u "thanks so much"; u "cheers"; u "much obliged"
    ]
    [
      u "You're welcome!"; u "Glad I could help!"; u "Anytime!";
      u "No problem at all!"; u "My pleasure!"; u "Donâ€™t mention it ðŸ™‚"
    ];
  mkIntent (u "how_are_you")
    [
      u "how are you"; u "how are you doing"; u "howâ€™s it going";
      u "how do you do"; u "you good"; u "are you okay";
      u "whatâ€™s up with you"; u "how have you been"
    ]
    [
      u "Iâ€™m doing great! How about you?";
      u "Iâ€™m fine, thanks for asking."; u "Iâ€™m feeling awesome today!";
      u "Iâ€™m all good â€” ready to help you!";
      u "Iâ€™m doing well, how are you doing?"
    ];
  mkIntent (u "who_are_you")
    [
      u "who are you"; u "what are you"; u "what is your name";
      u "who am i talking to"; u "identify yourself"
    ]
    [
      u "Iâ€™m your AI Virtual Assistant ðŸ¤–";
      u "Iâ€™m Ava, your personal AI helper!";
      u "Iâ€™m your assistant, here to chat and help you."
    ];
  mkIntent (u "feelings")
    [
      u "i am sad"; u "i feel lonely"; u "iâ€™m happy"; u "i am excited";
      u "i feel bored"; u "iâ€™m angry"; u "i feel nervous"; u "i feel good";
      u "i feel great"
    ]
    [
      u "I hear you. Do you want to talk about it?";
      u "Thatâ€™s great to hear! ðŸŽ‰";
      u "Iâ€™m here for you whenever you need me.";
      u "Itâ€™s okay to feel that way sometimes.";
      u "Iâ€™m glad youâ€™re sharing your feelings with me."
    ];
  mkIntent (u "compliment")
    [
      u "you are smart"; u "you are nice"; u "you are awesome";
      u "you are cool"; u "you are funny"; u "you are helpful"; u "good job";
      u "well done"
    ]
    [
      u "Aww, thank you! ðŸ˜Š"; u "That means a lot!";
      u "Glad you think so!"; u "Youâ€™re awesome too!"
    ];
  mkIntent (u "insult")
    [
      u "you are stupid"; u "you are dumb"; u "you are useless";
      u "you are bad"; u "you are annoying"; u "you are boring"
    ]
    [
      u "Thatâ€™s not very nice ðŸ˜”";
      u "Iâ€™m still learning, please be patient with me.";
      u "Iâ€™m sorry you feel that way."
    ]
  ].

Section WithUnicode.
Context {U : UnicodeDB}.

(** [re.search(pat, s)] and friends on a pattern given as text. *)
Definition search (ignorecase : bool) (pat s : pystr) : option (pystr * option pystr) :=
  match compile ignorecase pat with
  | Some r => re_search r s
  | None => None
  end.

Definition fullmatch (pat s : pystr) : option (pystr * option pystr) :=
  match compile false pat with
  | Some r => re_fullmatch r s
  | None => None
  end.

Definition match_start (pat s : pystr) : option (pystr * option pystr) :=
  match compile false pat with
  | Some r => re_match r s
  | None => None
  end.

Definition sub_empty (pat s : pystr) : pystr :=
  match compile false pat with
  | Some r => re_sub_empty r s
  | None => s
  end.

Definition matched {A : Type} (m : option A) : bool :=
  match m with Some _ => true | None => false end.

(** One entry of [_compiled_intents]: the pattern [\b<escaped p>\b],
    case-insensitive. *)
Definition intent_regex (p : pystr) : pystr := u "\b" ++ re_escape p ++ u "\b".

Definition pattern_search (p : pystr) (msg : pystr) : bool :=
  matched (search true (intent_regex p) msg).

(** The compiled form of [intent_regex p]: the characters of [p], each
    compared case-insensitively, between two word boundaries. *)
Definition word_bounded (p : pystr) : regex :=
  WordB :: map (fun c => Chr (CLit true c)) p ++ [WordB].

(** ** Whole words, in the specification's terms

    [p] occurs at the front of [s], letter case aside. *)
Fixpoint caseless_prefix (p s : pystr) : bool :=
  match p, s with
  | [], _ => true
  | a :: p', c :: s' => caseless_eq a c && caseless_prefix p' s'
  | _ :: _, [] => false
  end.

(** The character right behind an occurrence of [p] at the front of [s]. *)
Definition char_after (p s : pystr) : option N := hd_error (skipn (List.length p) s).

(** [p] occurs at the front of [s] as a whole word: no word character
    right before it ([prev]) and none right behind it. *)
Definition whole_word_at (p : pystr) (prev : option N) (s : pystr) : bool :=
  caseless_prefix p s && negb (is_word_opt prev) && negb (is_word_opt (char_after p s)).

(** [p] occurs somewhere in [s] as a whole word. *)
Fixpoint whole_word_in (p : pystr) (prev : option N) (s : pystr) : bool :=
  whole_word_at p prev s
  || match s with c :: s' => whole_word_in p (Some c) s' | [] => false end.

(** Wherever [p] occurs in [s] it is part of a longer word: a word
    character stands right before or right behind the occurrence. *)
Fixpoint only_inside_words (p : pystr) (prev : option N) (s : pystr) : bool :=
  (if caseless_prefix p s
   then is_word_opt prev || is_word_opt (char_after p s) else true)
  && match s with c :: s' => only_inside_words p (Some c) s' | [] => true end.

(** The characters [_normalize] keeps: [a-z], [0-9] and whitespace. *)
Definition normal_char (c : N) : bool := is_lower_az c || is_digit09 c || is_space c.

(** [_normalize(s)] *)
Definition _normalize (s : pystr) : pystr :=
  strip (sub_empty (u "[^a-z0-9\s]+") (lower s)).

(** [_is_dictionary_query(user_msg)] *)
Definition dictionary_patterns : list pystr :=
  [ u "meaning of (.+)"; u "what does (.+) mean"; u "define (.+)";
    u "definition of (.+)" ].

Fixpoint first_capture (pats : list pystr) (msg : pystr) : option pystr :=
  match pats with
  | [] => None
  | pat :: pats' =>
    match search true pat msg with
    | Some m => Some (strip (group1 m))
    | None => first_capture pats' msg
    end
  end.

Definition _is_dictionary_query (user_msg : pystr) : option pystr :=
  first_capture dictionary_patterns user_msg.

(** [_is_calculator_query(user_msg_raw)] *)
Definition phrasal : list pystr :=
  [ u "^\s*what\s+is\s+(.+)$"; u "^\s*calculate\s+(.+)$"; u "^\s*solve\s+(.+)$" ].

Definition has_operator (s : pystr) : bool := matched (search false (u "[+\-*/%]") s).

Fixpoint phrasal_loop (pats : list pystr) (msg : pystr) : option pystr :=
  match pats with
  | [] => None
  | pat :: pats' =>
    match search false pat msg with
    | Some m =>
      let expr := strip (sub_empty (u "[^0-9+\-*/%.()\s]") (group1 m)) in
      if has_operator expr then Some expr else phrasal_loop pats' msg
    | None => phrasal_loop pats' msg
    end
  end.

Definition _is_calculator_query (user_msg_raw : pystr) : option pystr :=
  let msg := lower user_msg_raw in
  match phrasal_loop phrasal msg with
  | Some expr => Some expr
  | None =>
    if matched (fullmatch (u "[0-9+\-*/%.()\s]+") msg) && has_operator msg
    then Some (strip msg)
    else None
  end.

(** ** The phrasal form, in the specification's terms *)

(** Digits, [+ - * / % .], parentheses and whitespace. *)
Definition expr_char (c : N) : bool :=
  is_digit09 c || existsb (N.eqb c) (u "+-*/%.()") || is_space c.

(** The arithmetic operators [+ - * / %]. *)
Definition operator_char (c : N) : bool := existsb (N.eqb c) (u "+-*/%").

(** The words that introduce an expression; "what" and "is" may stand any
    whitespace apart. *)
Inductive phrase_keyword : pystr -> Prop :=
| kw_what_is (sp : pystr) :
    sp <> [] -> forallb is_space sp = true ->
    phrase_keyword (u "what" ++ sp ++ u "is")
| kw_calculate : phrase_keyword (u "calculate")
| kw_solve : phrase_keyword (u "solve").

(** [msg] reads: whitespace, keyword, whitespace, a remainder [R] on one
    line, and possibly a final newline. *)
Definition phrasal_form (msg kw R : pystr) : Prop :=
  exists ws sep nl,
    msg = ws ++ kw ++ sep ++ R ++ nl /\
    forallb is_space ws = true /\
    phrase_keyword kw /\
    sep <> [] /\ forallb is_space sep = true /\
    R <> [] /\ forallb (fun c => negb (c =? 10)%N) R = true /\
    (nl = [] \/ nl = [10%N]).

(** What [\s+(.+)$], the common end of the three phrasal patterns,
    compiles to. *)
Definition phrase_tail : regex :=
  [Rep CSpace 1 None; GroupOpen; Rep CAny 1 None; GroupClose; Eol].

(** [int(s)] on a string of decimal digits. *)
Definition py_int (s : pystr) : option Z :=
  match s with
  | [] => None
  | _ =>
    fold_left (fun acc c =>
                 match acc, decimal_value c with
                 | Some n, Some d => Some (10 * n + Z.of_N d)%Z
                 | _, _ => None
                 end) s (Some 0%Z)
  end.


(** Second component of the tuple [_is_todo_query] returns. *)
Inductive todo_arg : Type :=
| ArgNone
| ArgStr (s : pystr)
| ArgInt (n : Z).

(** [_is_todo_query(user_msg)] *)
Definition _is_todo_query (user_msg0 : pystr) : option (pystr * todo_arg) :=
  let user_msg := lower (strip user_msg0) in
  if startswith (u "add task ") user_msg then
    Some (u "add", ArgStr (strip (skipn 9 user_msg)))
  else if matched (match_start (u "show tasks?") user_msg) then
    Some (u "show", ArgNone)
  else if startswith (u "remove task ") user_msg then
    let task_name := strip (skipn 12 user_msg) in
    if negb (is_empty task_name) then Some (u "remove", ArgStr task_name) else None
  else if startswith (u "mark done ") user_msg then
    match match_start (u "mark done (\d+)") user_msg with
    | Some m =>
      match py_int (group1 m) with
      | Some n => Some (u "done", ArgInt n)
      | None => None
      end
    | None => None
    end
  else None.

(** Step 3 of [get_response]: the reply list of the first intent, in table
    order, one of whose patterns is found in the message. *)
Fixpoint match_intents (table : list intent) (user_msg : pystr) : option (list pystr) :=
  match table with
  | [] => None
  | i :: table' =>
    if existsb (fun p => pattern_search p user_msg) (patterns i)
    then Some (responses i)
    else match_intents table' user_msg
  end.

(** [random.choice(seq)] when the generator draws index [rnd]; [None] is
    the [IndexError] of an empty sequence. *)
Definition random_choice {A : Type} (rnd : nat) (seq : list A) : option A :=
  nth_error seq (rnd mod List.length seq).

(** What the matching theorems use of a table entry: it compiles to its
    word-bounded form, and begins and ends with an ASCII letter. *)
Definition is_ascii_letter (c : N) : bool := is_lower_az c || is_upper_az c.

Definition well_formed_pattern (p : pystr) : bool :=
  compiles_to true (intent_regex p) (word_bounded p)
  && match p with c :: _ => is_ascii_letter c | [] => false end
  && is_ascii_letter (last p 0%N).

(** Step 3 with its reply drawn: [None] when no intent matches,
    [Some None] for the [IndexError] of an empty reply list. *)
Definition intent_stage (rnd : nat) (user_msg : pystr) : option (option pystr) :=
  option_map (random_choice rnd) (match_intents intents user_msg).

Section GetResponse.
Variable http_get_json : pystr -> option json.
Variable rnd : nat.
(** Steps 5 to 9 of [get_response] (calculator, to-do commands, fuzzy
    matching, fallback), entered when steps 1 to 4 produce no reply. *)
Variable later_steps : pystr -> option json.

Definition say_something : pystr := u "Please say something so I can help.".

(** [get_response(user_msg)]; [None] stands for a raised exception. *)
Definition get_response (user_msg : pystr) : option json :=
  if is_empty user_msg || is_empty (strip user_msg) then Some (JStr say_something)
  else
    let normalized := _normalize user_msg in
    if is_empty normalized then Some (JStr say_something)
    else
      match intent_stage rnd user_msg with
      | Some reply => option_map JStr reply
      | None =>
        match _is_dictionary_query normalized with
        | Some (c :: w) =>
          let word := c :: w in
          let meaning := get_meaning http_get_json word in
          if truthy meaning then Some meaning
          else Some (JStr (u "Sorry, I couldnâ€™t find the meaning of '" ++ word ++ u "'."))
        | _ => later_steps user_msg
        end
      end.

End GetResponse.
End WithUnicode.

End Chatbot.

(* ================================================================= *)
(** * assistant/chatbot.py: steps 5 to 9 of [get_response] *)
(* ================================================================= *)

Module Pipeline.
Import PyStr Regex Calculator Dictionary Todo Chatbot.

(** The list [_fallback_responses]. *)
Definition _fallback_responses : list pystr :=
  [
    u "Sorry, I didnâ€™t get that. Could you rephrase?";
    u "Hmm, Iâ€™m not sure I understood you ðŸ¤”";
    u "I didnâ€™t quite catch that, can you try again?";
    u "Iâ€™m still learning! Can you say it differently?";
    u "Could you clarify what you mean?";
    u "Oops, that went over my head. Can you explain again?"
  ].

(** ** Library functions the steps use *)

(** [str(n)] for an integer. *)
Fixpoint decimal_digits (fuel : nat) (n : N) (acc : pystr) : pystr :=
  match fuel with
  | O => acc
  | S fuel' =>
    let acc' := (48 + n mod 10)%N :: acc in
    if (n <? 10)%N then acc' else decimal_digits fuel' (n / 10)%N acc'
  end.

Definition str_of_N (n : N) : pystr := decimal_digits (S (N.to_nat (N.log2 n))) n [].

Definition str_of_Z (z : Z) : pystr :=
  match z with
  | Z0 => [48%N]
  | Zpos p => str_of_N (Npos p)
  | Zneg p => 45%N :: str_of_N (Npos p)
  end.

(** [sep.join(parts)] *)
Fixpoint join (sep : pystr) (parts : list pystr) : pystr :=
  match parts with
  | [] => []
  | [p] => p
  | p :: rest => p ++ sep ++ join sep rest
  end.

(** [s.split()]: the maximal runs of non-whitespace. [cur] is the run being
    read, backwards. *)
Fixpoint split_from (cur : pystr) (s : pystr) : list pystr :=
  match s with
  | [] => match cur with [] => [] | _ => [rev cur] end
  | c :: s' =>
    if is_space c
    then match cur with
         | [] => split_from [] s'
         | _ => rev cur :: split_from [] s'
         end
    else split_from (c :: cur) s'
  end.

Definition split (s : pystr) : list pystr := split_from [] s.

(** [d[k] = v] on a dictionary kept in insertion order: a known key keeps
    its place and takes the new value. *)
Fixpoint dict_set (k v : pystr) (d : list (pystr * pystr)) : list (pystr * pystr) :=
  match d with
  | [] => [(k, v)]
  | (k', v') :: d' =>
    if pystr_eqb k' k then (k', v) :: d' else (k', v') :: dict_set k v d'
  end.

Fixpoint dict_get (k : pystr) (d : list (pystr * pystr)) : option pystr :=
  match d with
  | [] => None
  | (k', v) :: d' => if pystr_eqb k' k then Some v else dict_get k d'
  end.

(** [x in l] for strings. *)
Definition member (x : pystr) (l : list pystr) : bool := existsb (pystr_eqb x) l.

(** The table [_single_word_to_intent]: every pattern without a space, with
    the name of the intent that listed it last. *)
Definition _single_word_to_intent : list (pystr * pystr) :=
  fold_left
    (fun d i =>
       fold_left
         (fun d p => if existsb (N.eqb 32) p then d
                     else dict_set p (intent_name i) d)
         (patterns i) d)
    intents [].

(** [intents[name]["responses"]] *)
Definition responses_of (name : pystr) : option (list pystr) :=
  option_map responses (find (fun i => pystr_eqb (intent_name i) name) intents).

Section WithUnicode.
Context {U : UnicodeDB}.

(** Digits with single underscores between them, as [int] accepts. *)
Fixpoint int_digits (s : pystr) (acc : Z) (after_digit : bool) : option Z :=
  match s with
  | [] => if after_digit then Some acc else None
  | c :: s' =>
    if (c =? 95)%N
    then (if after_digit then int_digits s' acc false else None)
    else match decimal_value c with
         | Some d => int_digits s' (10 * acc + Z.of_N d)%Z true
         | None => None
         end
  end.

(** [int(s)] for a string: surrounding whitespace, a sign, decimal digits.
    [None] is the [ValueError]. *)
Definition int_of_str (s : pystr) : option Z :=
  match strip s with
  | 43%N :: ds => int_digits ds 0%Z false
  | 45%N :: ds => option_map Z.opp (int_digits ds 0%Z false)
  | ds => int_digits ds 0%Z false
  end.

Section Steps.
(** The calculator's runtime. *)
Variable rt : runtime.
(** [repr] of a float and of a complex number. *)
Variable float_repr : spec_float -> pystr.
Variable complex_repr : spec_float -> spec_float -> pystr.
(** The interpreter's limit on the digits of an integer turned into text
    ([None]: no limit). *)
Variable max_str_digits : option nat.
(** [difflib.get_close_matches(word, possibilities, n=1, cutoff=c)] *)
Variable get_close_matches : pystr -> list pystr -> spec_float -> list pystr.
Variable http_get_json : pystr -> option json.
Variable rnd : nat.
(** [datetime.now().isoformat()] at the time of the call. *)
Variable now : pystr.

(** [str(n)]; [None] when the interpreter refuses the length. *)
Definition str_of_int (n : Z) : option pystr :=
  match max_str_digits with
  | Some limit =>
    if limit <? List.length (str_of_Z (Z.abs n)) then None else Some (str_of_Z n)
  | None => Some (str_of_Z n)
  end.

(** [f"{v}"] *)
Definition py_str (v : pyval) : option pystr :=
  match v with
  | VInt n => str_of_int n
  | VFloat f => Some (float_repr f)
  | VComplex re im => Some (complex_repr re im)
  | VEmptyTuple => Some (u "()")
  | VEllipsis => Some (u "Ellipsis")
  | VStr s => Some s
  end.

(** One line of the task list. *)
Definition format_task (t : task) : option pystr :=
  option_map
    (fun i => i ++ u ". ["
              ++ (if pystr_eqb (status t) (u "done") then u "Done" else u "Pending")
              ++ u "] " ++ title t)
    (str_of_int (id t)).

Fixpoint format_tasks (l : list task) : option (list pystr) :=
  match l with
  | [] => Some []
  | t :: l' =>
    match format_task t, format_tasks l' with
    | Some x, Some xs => Some (x :: xs)
    | _, _ => None
    end
  end.

(** [try: int(arg) ... except: arg]: what is passed to the store. *)
Definition task_ref_of (arg : todo_arg) : task_ref :=
  match arg with
  | ArgInt n => RefInt n
  | ArgStr a => match int_of_str a with Some n => RefInt n | None => RefStr a end
  | ArgNone => RefStr []          (* [None] equals no id either *)
  end.

(** Step 6, the to-do commands. *)
Definition todo_step (cmd : pystr) (arg : todo_arg) (s : store)
    : option (option (json * store)) :=
  if pystr_eqb cmd (u "add") then
    match arg with
    | ArgStr a => let (m, s') := add_task now a s in Some (Some (JStr m, s'))
    | _ => Some None
    end
  else if pystr_eqb cmd (u "show") then
    match get_tasks None s with
    | [] => Some (Some (JStr (u "No tasks found."), s))
    | l => Some (option_map (fun lines => (JStr (join [10%N] lines), s))
                            (format_tasks l))
    end
  else if pystr_eqb cmd (u "remove") then
    let (m, s') := remove_task (task_ref_of arg) s in Some (Some (JStr m, s'))
  else if pystr_eqb cmd (u "done") then
    let (m, s') := mark_done (task_ref_of arg) s in Some (Some (JStr m, s'))
  else None.

(** The reply to a suggestion. *)
Definition did_you_mean (word : pystr) (replies : list pystr) : option json :=
  option_map (fun r => JStr (u "(Did you mean **" ++ word ++ u "**?)" ++ [10%N] ++ r))
             (random_choice rnd replies).

(** Step 7: the first word of the message with a close single-word
    pattern. *)
Fixpoint token_step (vocab : list pystr) (tokens : list pystr) : option (option json) :=
  match tokens with
  | [] => None
  | t :: tokens' =>
    match get_close_matches t vocab (float_of_ratio 4 5) with
    | w :: _ =>
      match dict_get w _single_word_to_intent with
      | Some name =>
        match responses_of name with
        | Some replies => Some (did_you_mean w replies)
        | None => Some None
        end
      | None => Some None
      end
    | [] => token_step vocab tokens'
    end
  end.

(** Step 8: the whole message against every pattern; the intent is the
    first one that lists the suggestion. *)
Definition message_step (normalized : pystr) : option (option json) :=
  match get_close_matches normalized (flat_map patterns intents) (float_of_ratio 3 4) with
  | w :: _ =>
    match find (fun i => member w (patterns i)) intents with
    | Some i => Some (did_you_mean w (responses i))
    | None => None
    end
  | [] => None
  end.

(** Steps 5 to 9, with the store they leave. [None] is an exception that
    leaves [get_response]. *)
Definition later_steps (s : store) (user_msg : pystr) : option (json * store) :=
  let with_store (r : option json) := option_map (fun j => (j, s)) r in
  match _is_calculator_query (lower user_msg) with
  | Some (c :: e) =>
    with_store (option_map (fun t => JStr (u "The result is: " ++ t))
                           (py_str (evaluate rt (c :: e))))
  | _ =>
    match
      match _is_todo_query user_msg with
      | Some (cmd, arg) => todo_step cmd arg s
      | None => None
      end
    with
    | Some r => r
    | None =>
      match token_step (map fst _single_word_to_intent) (split (_normalize user_msg)) with
      | Some r => with_store r
      | None =>
        match message_step (_normalize user_msg) with
        | Some r => with_store r
        | None => with_store (option_map JStr (random_choice rnd _fallback_responses))
        end
      end
    end
  end.

(** The whole of [get_response], with the task store it reads and leaves. *)
Definition respond (s : store) (user_msg : pystr) : option (json * store) :=
  if is_empty user_msg || is_empty (strip user_msg)
  then Some (JStr say_something, s)
  else if is_empty (_normalize user_msg) then Some (JStr say_something, s)
  else
    match intent_stage rnd user_msg with
    | Some reply => option_map (fun r => (JStr r, s)) reply
    | None =>
      match _is_dictionary_query (_normalize user_msg) with
      | Some (c :: w) =>
        let word := c :: w in
        let meaning := get_meaning http_get_json word in
        if truthy meaning then Some (meaning, s)
        else Some (JStr (u "Sorry, I couldnâ€™t find the meaning of '" ++ word ++ u "'."), s)
      | _ => later_steps s user_msg
      end
    end.

End Steps.

(** ** Reading [get_response] from outside *)

(** Steps 1 to 4 give no reply: the message is not blank, neither before
    nor after normalisation, no intent pattern occurs in it, and it asks for
    no definition. *)
Definition falls_through (user_msg : pystr) : bool :=
  negb (is_empty (strip user_msg))
  && negb (is_empty (_normalize user_msg))
  && negb (matched (match_intents intents user_msg))
  && match _is_dictionary_query (_normalize user_msg) with
     | Some (_ :: _) => false
     | _ => true
     end.

(** Step 5 gives no reply either. *)
Definition not_calculation (user_msg : pystr) : bool :=
  match _is_calculator_query (lower user_msg) with
  | Some (_ :: _) => false
  | _ => true
  end.

(** An ASCII character that is neither a letter nor a digit. *)
Definition ascii_other (c : N) : bool :=
  is_ascii c && negb (is_ascii_letter c) && negb (is_digit09 c).

(** An entry of [_single_word_to_intent] names an intent of the table that
    lists the word and has a reply. *)
Definition suggestion_entry_ok (e : pystr * pystr) : bool :=
  match find (fun i => pystr_eqb (intent_name i) (snd e)) intents with
  | Some i => member (fst e) (patterns i) && negb (Nat.eqb (List.length (responses i)) 0)
  | None => false
  end.

(** ** A conversation: one call of [get_response] after the other *)

(** What a call finds outside the program: the answers of the lookup
    service, the draw of [random.choice] and the clock. *)
Record turn : Type := mkTurn {
  turn_fetch : pystr -> option json;
  turn_rnd : nat;
  turn_now : pystr;
  turn_msg : pystr
}.

Section Conversation.
Variable rt : runtime.
Variable float_repr : spec_float -> pystr.
Variable complex_repr : spec_float -> spec_float -> pystr.
Variable max_str_digits : option nat.
Variable get_close_matches : pystr -> list pystr -> spec_float -> list pystr.

Definition answer (s : store) (t : turn) : option (json * store) :=
  respond rt float_repr complex_repr max_str_digits get_close_matches
          (turn_fetch t) (turn_rnd t) (turn_now t) s (turn_msg t).

(** The store after the call. A call that raises has written nothing. *)
Definition after (s : store) (t : turn) : store :=
  match answer s t with
  | Some (_, s') => s'
  | None => s
  end.

Definition converse (ts : list turn) (s : store) : store := fold_left after ts s.

End Conversation.
End WithUnicode.

End Pipeline.

(* ================================================================= *)
(** * app.py *)
(* ================================================================= *)

Module App.
Import PyStr Calculator Dictionary Todo Chatbot Pipeline.

(** What the view function gives back to Flask: a JSON object with a
    status code, or an exception that leaves the function. *)
Inductive api_result : Type :=
| Answer (status : nat) (body : list (pystr * json))
| Unhandled.

(** [x or y] *)
Definition or_else (x : option json) (y : json) : json :=
  match x with
  | Some v => if truthy v then v else y
  | None => y
  end.

Section WithUnicode.
Context {U : UnicodeDB}.

Section ChatApi.
Variable rt : runtime.
Variable float_repr : spec_float -> pystr.
Variable complex_repr : spec_float -> spec_float -> pystr.
Variable max_str_digits : option nat.
Variable get_close_matches : pystr -> list pystr -> spec_float -> list pystr.
Variable http_get_json : pystr -> option json.
Variable rnd : nat.
Variable now : pystr.

(** [chat_api()]. [is_json] is [request.is_json]; [body] is
    [request.get_json(silent=True)], [None] when the body does not parse. *)
Definition chat_api (is_json : bool) (body : option json) (s : store)
    : api_result * store :=
  if negb is_json then
    (Answer 415 [(u "error", JStr (u "Content-Type must be application/json"))], s)
  else
    match or_else body (JObj []) with
    | JObj members =>
      match or_else (lookup (u "message") members) (JStr []) with
      | JStr message =>
        let user_msg := strip message in
        if is_empty user_msg then
          (Answer 400 [(u "error", JStr (u "Field 'message' cannot be empty"))], s)
        else
          match respond rt float_repr complex_repr max_str_digits get_close_matches
                        http_get_json rnd now s user_msg with
          | Some (reply, s') => (Answer 200 [(u "reply", reply)], s')
          | None =>
            (Answer 500 [(u "error", JStr (u "Internal error while generating reply"))], s)
          end
      | _ => (Unhandled, s)             (* no [strip] on a number, a list, ... *)
      end
    | _ => (Unhandled, s)               (* no [get] on a list, a string, ... *)
    end.

End ChatApi.
End WithUnicode.

(** Is the value a JSON object, resp. a string? *)
Definition is_object (v : json) : bool :=
  match v with JObj _ => true | _ => false end.

Definition is_text (v : json) : bool :=
  match v with JStr _ => true | _ => false end.

End App.

(* ================================================================= *)
(** * Facts about Python strings *)
(* ================================================================= *)

Module PyStrFacts.
Import PyStr.

Lemma pystr_eqb_eq (a b : pystr) : pystr_eqb a b = true <-> a = b.
Proof.
  revert b. induction a as [|x a IH]; intros [|y b]; simpl; try (split; congruence).
  rewrite andb_true_iff, N.eqb_eq, IH. split.
  - intros [-> ->]. reflexivity.
  - intros E. injection E as -> ->. auto.
Qed.

Lemma pystr_eqb_refl (a : pystr) : pystr_eqb a a = true.
Proof. now apply pystr_eqb_eq. Qed.

(** Turning the boolean range tests into arithmetic. *)
Ltac bools :=
  unfold is_space, is_upper_az, is_lower_az, is_digit09, is_ascii, in_range in *;
  repeat match goal with
  | H : _ && _ = true |- _ => apply andb_true_iff in H; destruct H
  | H : _ || _ = true |- _ => apply orb_true_iff in H; destruct H
  | H : _ && _ = false |- _ => apply andb_false_iff in H; destruct H
  | H : _ || _ = false |- _ => apply orb_false_iff in H; destruct H
  | H : negb _ = true |- _ => apply negb_true_iff in H
  | H : negb _ = false |- _ => apply negb_false_iff in H
  | H : (_ <=? _)%N = true |- _ => apply N.leb_le in H
  | H : (_ <=? _)%N = false |- _ => apply N.leb_gt in H
  | H : (_ <? _)%N = true |- _ => apply N.ltb_lt in H
  | H : (_ <? _)%N = false |- _ => apply N.ltb_ge in H
  | H : (_ =? _)%N = true |- _ => apply N.eqb_eq in H
  | H : (_ =? _)%N = false |- _ => apply N.eqb_neq in H
  end.

(** ** [strip] *)

Lemma lstrip_spec (s : pystr) :
  exists ws, s = ws ++ lstrip s /\ forallb is_space ws = true /\ starts_clean (lstrip s).
Proof.
  induction s as [|c s (ws & E & Hws & Hc)]; simpl.
  - exists []. auto.
  - destruct (is_space c) eqn:Ec.
    + exists (c :: ws). simpl. rewrite Ec, Hws. split; [congruence | auto].
    + exists []. simpl. auto.
Qed.

Lemma lstrip_unique (ws x : pystr) :
  forallb is_space ws = true -> starts_clean x -> lstrip (ws ++ x) = x.
Proof.
  intros Hws Hx. induction ws as [|c ws IH]; simpl in *.
  - destruct x as [|c x]; simpl in *; auto. now rewrite Hx.
  - apply andb_true_iff in Hws as [Hc Hws]. rewrite Hc. auto.
Qed.

Lemma rstrip_spec (s : pystr) :
  exists ws, s = rstrip s ++ ws /\ forallb is_space ws = true /\ ends_clean (rstrip s).
Proof.
  unfold rstrip, ends_clean.
  destruct (lstrip_spec (rev s)) as (ws & E & Hws & Hc).
  exists (rev ws). repeat split.
  - rewrite <- rev_app_distr, <- E. now rewrite rev_involutive.
  - rewrite forallb_forall in *. intros c Hin. apply Hws. now apply in_rev.
  - now rewrite rev_involutive.
Qed.

Lemma rstrip_unique (x ws : pystr) :
  forallb is_space ws = true -> ends_clean x -> rstrip (x ++ ws) = x.
Proof.
  intros Hws Hx. unfold rstrip. rewrite rev_app_distr, lstrip_unique.
  - apply rev_involutive.
  - rewrite forallb_forall in *. intros c Hin. apply Hws. now apply in_rev.
  - exact Hx.
Qed.

(** [strip] cuts the whitespace off both ends of a clean core. *)
Lemma strip_unique (a x b : pystr) :
  forallb is_space a = true -> forallb is_space b = true ->
  starts_clean x -> ends_clean x ->
  strip (a ++ x ++ b) = x.
Proof.
  intros Ha Hb Hs He. unfold strip.
  destruct x as [|c x].
  - simpl. replace (a ++ b) with ((a ++ b) ++ []) by apply app_nil_r.
    rewrite lstrip_unique; simpl; auto.
    rewrite forallb_app, Ha, Hb. reflexivity.
  - rewrite lstrip_unique; auto.
    now apply rstrip_unique.
Qed.

Lemma strip_spec (s : pystr) :
  exists a b, s = a ++ strip s ++ b /\
              forallb is_space a = true /\ forallb is_space b = true /\
              starts_clean (strip s) /\ ends_clean (strip s).
Proof.
  unfold strip.
  destruct (lstrip_spec s) as (a & Ea & Ha & Hs).
  destruct (rstrip_spec (lstrip s)) as (b & Eb & Hb & He).
  exists a, b. repeat split; auto.
  - now rewrite <- Eb.
  - destruct (rstrip (lstrip s)) as [|c r] eqn:Er; simpl; auto.
    rewrite Eb in Hs. simpl in Hs. exact Hs.
Qed.

Lemma strip_idempotent (s : pystr) : strip (strip s) = strip s.
Proof.
  destruct (strip_spec s) as (a & b & _ & _ & _ & Hs & He).
  replace (strip s) with ([] ++ strip s ++ []) at 1 by (simpl; apply app_nil_r).
  now apply strip_unique.
Qed.

(** Whitespace in front or behind does not change [strip]. *)
Lemma strip_pad (a s b : pystr) :
  forallb is_space a = true -> forallb is_space b = true ->
  strip (a ++ s ++ b) = strip s.
Proof.
  intros Ha Hb.
  destruct (strip_spec s) as (a' & b' & E & Ha' & Hb' & Hs & He).
  rewrite E at 1.
  replace (a ++ (a' ++ strip s ++ b') ++ b) with ((a ++ a') ++ strip s ++ (b' ++ b))
    by (now rewrite <- !app_assoc).
  apply strip_unique; auto; rewrite forallb_app; now rewrite ?Ha, ?Ha', ?Hb, ?Hb'.
Qed.

Lemma startswith_app (p a s : pystr) :
  startswith (p ++ a) (p ++ s) = startswith a s.
Proof.
  induction p as [|c p IH]; simpl; auto. now rewrite N.eqb_refl.
Qed.

Lemma Forall_strip (P : N -> Prop) (s : pystr) : Forall P s -> Forall P (strip s).
Proof.
  intros H. destruct (strip_spec s) as (a & b & E & _).
  rewrite E in H. apply Forall_app in H as [_ H]. now apply Forall_app in H as [H _].
Qed.

End PyStrFacts.

(* ================================================================= *)
(** * The task store *)
(* ================================================================= *)

Module TodoFacts.
Import PyStr PyStrFacts Todo.

Lemma task_eqb_eq (a b : task) : task_eqb a b = true <-> a = b.
Proof.
  unfold task_eqb. destruct a as [i1 t1 s1 c1], b as [i2 t2 s2 c2]; simpl.
  rewrite !andb_true_iff, Z.eqb_eq, !pystr_eqb_eq.
  split.
  - intros [[[-> ->] ->] ->]. reflexivity.
  - intros E. injection E as -> -> -> ->. auto.
Qed.

(** [find] walks past a prefix without a match. *)
Lemma find_skip (r : task_ref) (l1 : list task) (t : task) (l2 : list task) :
  Forall (fun x => id_matches r x = false) l1 ->
  id_matches r t = true ->
  find (id_matches r) (l1 ++ t :: l2) = Some t.
Proof.
  intros Hl1 Ht. induction Hl1 as [|x l1 Hx _ IH]; simpl.
  - now rewrite Ht.
  - now rewrite Hx.
Qed.

Lemma list_remove_skip (r : task_ref) (l1 : list task) (t : task) (l2 : list task) :
  Forall (fun x => id_matches r x = false) l1 ->
  id_matches r t = true ->
  list_remove t (l1 ++ t :: l2) = l1 ++ l2.
Proof.
  intros Hl1 Ht. induction Hl1 as [|x l1 Hx _ IH]; simpl.
  - assert (E : task_eqb t t = true) by now apply task_eqb_eq.
    now rewrite E.
  - destruct (task_eqb x t) eqn:E.
    + apply task_eqb_eq in E. congruence.
    + now rewrite IH.
Qed.

Lemma set_done_first_skip (r : task_ref) (l1 : list task) (t : task) (l2 : list task) :
  Forall (fun x => id_matches r x = false) l1 ->
  id_matches r t = true ->
  set_done_first r (l1 ++ t :: l2)
  = Some (mkTask (id t) (title t) (u "done") (created_at t),
          l1 ++ mkTask (id t) (title t) (u "done") (created_at t) :: l2).
Proof.
  intros Hl1 Ht. induction Hl1 as [|x l1 Hx _ IH]; simpl.
  - now rewrite Ht.
  - now rewrite Hx, IH.
Qed.

(** [remove_task] drops the earliest task with the given id and nothing else. *)
Lemma remove_task_earliest (r : task_ref) l1 t l2 f :
  Forall (fun x => id_matches r x = false) l1 ->
  id_matches r t = true ->
  remove_task r (mkStore (l1 ++ t :: l2) f)
  = (u "Removed task: " ++ title t, mkStore (l1 ++ l2) (Some (l1 ++ l2))).
Proof.
  intros Hl1 Ht. unfold remove_task, _save_tasks. simpl tasks.
  rewrite (find_skip _ _ _ l2 Hl1 Ht), (list_remove_skip _ _ _ l2 Hl1 Ht). reflexivity.
Qed.

(** [mark_done] changes the earliest task with the given id and nothing else. *)
Lemma mark_done_earliest (r : task_ref) l1 t l2 f :
  Forall (fun x => id_matches r x = false) l1 ->
  id_matches r t = true ->
  mark_done r (mkStore (l1 ++ t :: l2) f)
  = (u "Marked done: " ++ title t,
     let l := l1 ++ mkTask (id t) (title t) (u "done") (created_at t) :: l2 in
     mkStore l (Some l)).
Proof.
  intros Hl1 Ht. unfold mark_done, _save_tasks. simpl tasks.
  rewrite (set_done_first_skip _ _ _ l2 Hl1 Ht). reflexivity.
Qed.

Section Claims.
Context {U : UnicodeDB}.
Variable now : pystr.

(** C3. Starting from the empty store, [add_task("Buy milk")] succeeds and
    [get_tasks()] is then exactly one task titled "Buy milk" with status
    "pending"; [mark_done(1)] turns its status into "done"; [remove_task(1)]
    leaves the list empty; a second [remove_task(1)] answers
    "Task not found" and changes nothing. *)
Theorem todo_round_trip :
  let (m1, s1) := add_task now (u "Buy milk") empty_store in
  let (m2, s2) := mark_done (RefInt 1) s1 in
  let (m3, s3) := remove_task (RefInt 1) s2 in
  let (m4, s4) := remove_task (RefInt 1) s3 in
  m1 = u "Task added: Buy milk" /\
  get_tasks None s1 = [mkTask 1 (u "Buy milk") (u "pending") now] /\
  m2 = u "Marked done: Buy milk" /\
  get_tasks None s2 = [mkTask 1 (u "Buy milk") (u "done") now] /\
  m3 = u "Removed task: Buy milk" /\
  get_tasks None s3 = [] /\
  m4 = u "Task not found" /\
  s4 = s3.
Proof.
  set (t := mkTask 1 (u "Buy milk") (u "pending") now).
  set (t' := mkTask 1 (u "Buy milk") (u "done") now).
  assert (E1 : add_task now (u "Buy milk") empty_store
               = (u "Task added: Buy milk", mkStore [t] (Some [t]))) by reflexivity.
  assert (E2 : mark_done (RefInt 1) (mkStore [t] (Some [t]))
               = (u "Marked done: Buy milk", mkStore [t'] (Some [t']))) by reflexivity.
  pose proof (remove_task_earliest (RefInt 1) [] t' [] (Some [t'])
                (Forall_nil _) eq_refl) as E3.
  simpl app in E3.
  rewrite E1, E2, E3. simpl.
  repeat split; reflexivity.
Qed.

(** C10. [add_task] numbers the new task (number of stored tasks) + 1.
    Ids are therefore not unique: after add, add, remove 1, add the store
    holds two different tasks with id 2 (max-existing-id + 1 would be 3).
    [remove_task] and [mark_done] on an id touch only the earliest stored
    task that carries it. *)
Theorem add_task_id_is_count_plus_one :
  (forall title0 s,
      is_empty (strip title0) = false ->
      existsb (fun t => pystr_eqb (lower (title t)) (lower (strip title0))) (tasks s) = false ->
      tasks (snd (add_task now title0 s))
      = tasks s ++ [mkTask (Z.of_nat (List.length (tasks s)) + 1)
                           (strip title0) (u "pending") now]) /\
  (tasks (after_add_add_remove_add now)
   = [mkTask 2 (u "b") (u "pending") now; mkTask 2 (u "c") (u "pending") now] /\
   tasks (snd (remove_task (RefInt 2) (after_add_add_remove_add now)))
   = [mkTask 2 (u "c") (u "pending") now] /\
   tasks (snd (mark_done (RefInt 2) (after_add_add_remove_add now)))
   = [mkTask 2 (u "b") (u "done") now; mkTask 2 (u "c") (u "pending") now]) /\
  (forall n l1 t l2 f,
      Forall (fun x => id x <> n) l1 -> id t = n ->
      tasks (snd (remove_task (RefInt n) (mkStore (l1 ++ t :: l2) f))) = l1 ++ l2 /\
      tasks (snd (mark_done (RefInt n) (mkStore (l1 ++ t :: l2) f)))
      = l1 ++ mkTask (id t) (title t) (u "done") (created_at t) :: l2).
Proof.
  split; [|split].
  - intros title0 s He Hd. unfold add_task. rewrite He, Hd. reflexivity.
  - set (a := mkTask 1 (u "a") (u "pending") now).
    set (b := mkTask 2 (u "b") (u "pending") now).
    set (c := mkTask 2 (u "c") (u "pending") now).
    assert (E1 : snd (add_task now (u "b") (snd (add_task now (u "a") empty_store)))
                 = mkStore [a; b] (Some [a; b])) by reflexivity.
    pose proof (remove_task_earliest (RefInt 1) [] a [b] (Some [a; b])
                  (Forall_nil _) eq_refl) as E2.
    simpl app in E2.
    assert (E3 : snd (add_task now (u "c") (mkStore [b] (Some [b])))
                 = mkStore [b; c] (Some [b; c])) by reflexivity.
    pose proof (remove_task_earliest (RefInt 2) [] b [c] (Some [b; c])
                  (Forall_nil _) eq_refl) as E4.
    simpl app in E4.
    unfold after_add_add_remove_add. rewrite E1, E2. cbn [snd]. rewrite E3, E4.
    repeat split; reflexivity.
  - intros n l1 t l2 f Hl1 Ht.
    assert (H1 : Forall (fun x => id_matches (RefInt n) x = false) l1).
    { eapply Forall_impl; [|exact Hl1]. intros x Hx. simpl. now apply Z.eqb_neq. }
    assert (H2 : id_matches (RefInt n) t = true) by (simpl; now apply Z.eqb_eq).
    rewrite (remove_task_earliest _ _ _ l2 f H1 H2), (mark_done_earliest _ _ _ l2 f H1 H2).
    split; reflexivity.
Qed.

End Claims.

Lemma add_task_id_is_count_plus_one_witness :
  let t7 := mkTask 7 (u "x") (u "pending") (u "2024-01-01T00:00:00") in
  tasks (snd (@add_task ascii_tables (u "2024-01-02T00:00:00") (u " Water plants ")
                (mkStore [t7] None)))
  = [t7; mkTask 2 (u "Water plants") (u "pending") (u "2024-01-02T00:00:00")] /\
  tasks (snd (remove_task (RefInt 7) (mkStore [t7; t7] None))) = [t7].
Proof.
  cbv zeta.
  destruct (@add_task_id_is_count_plus_one ascii_tables (u "2024-01-02T00:00:00"))
    as (Hadd & _ & Hfirst).
  split.
  - apply (Hadd (u " Water plants ")
             (mkStore [mkTask 7 (u "x") (u "pending") (u "2024-01-01T00:00:00")] None));
      reflexivity.
  - apply (Hfirst 7%Z [] (mkTask 7 (u "x") (u "pending") (u "2024-01-01T00:00:00"))
             [mkTask 7 (u "x") (u "pending") (u "2024-01-01T00:00:00")] None).
    + constructor.
    + reflexivity.
Defined.

End TodoFacts.

(* ================================================================= *)
(** * The matcher against the declarative notion of a match *)
(* ================================================================= *)

Module RegexFacts.
Import PyStr Regex.

Section WithUnicode.
Context {U : UnicodeDB}.

Lemma last_opt_app (a b : pystr) (prev : option N) :
  last_opt (a ++ b) prev = last_opt b (last_opt a prev).
Proof. unfold last_opt. apply fold_left_app. Qed.

Lemma last_opt_cons (c : N) (a : pystr) (prev : option N) :
  last_opt (c :: a) prev = last_opt a (Some c).
Proof. reflexivity. Qed.

Lemma last_opt_snoc (a : pystr) (c : N) (prev : option N) :
  last_opt (a ++ [c]) prev = Some c.
Proof. now rewrite last_opt_app. Qed.

(** A successful greedy repetition took some run of matching characters
    and the continuation succeeded behind it. *)
Lemma rep_loop_sound {R : Type} k lo hi (cont : option N -> pystr -> option R) :
  forall rest n prev res,
    rep_loop k lo hi cont n prev rest = Some res ->
    exists taken rest',
      rest = taken ++ rest' /\
      forallb (char_match k) taken = true /\
      lo <= n + List.length taken /\
      (taken = [] \/ within hi (n + List.length taken)) /\
      cont (last_opt taken prev) rest' = Some res.
Proof.
  induction rest as [|c rest IH]; intros n prev res H; simpl in H.
  - destruct (lo <=? n) eqn:E; [|discriminate].
    exists [], []. apply Nat.leb_le in E.
    repeat split; simpl; auto; lia.
  - assert (Stop : (if lo <=? n then cont prev (c :: rest) else None) = Some res ->
                   exists taken rest',
                     c :: rest = taken ++ rest' /\
                     forallb (char_match k) taken = true /\
                     lo <= n + List.length taken /\
                     (taken = [] \/ within hi (n + List.length taken)) /\
                     cont (last_opt taken prev) rest' = Some res).
    { intros H'. destruct (lo <=? n) eqn:E; [|discriminate].
      apply Nat.leb_le in E. exists [], (c :: rest).
      repeat split; simpl; auto; lia. }
    destruct (char_match k c && below hi n) eqn:Hc; [|auto].
    destruct (rep_loop k lo hi cont (S n) (Some c) rest) as [res'|] eqn:Hr; [|auto].
    injection H as <-.
    apply andb_true_iff in Hc as [Hc Hb].
    destruct (IH _ _ _ Hr) as (taken & rest' & -> & Hall & Hlo & Hhi & Hk).
    exists (c :: taken), rest'. simpl. rewrite Hc, Hall.
    repeat split; auto; try lia.
    right. destruct Hhi as [-> | Hhi].
    + unfold within, below in *. destruct hi as [h|]; auto.
      apply Nat.ltb_lt in Hb. simpl. lia.
    + unfold within in *. destruct hi; auto. lia.
Qed.

(** If the continuation succeeds behind some admissible run, the greedy
    repetition succeeds too (possibly with a longer run). *)
Lemma rep_loop_complete {R : Type} k lo hi (cont : option N -> pystr -> option R) :
  forall taken n prev rest res,
    forallb (char_match k) taken = true ->
    lo <= n + List.length taken ->
    within hi (n + List.length taken) ->
    cont (last_opt taken prev) rest = Some res ->
    exists res', rep_loop k lo hi cont n prev (taken ++ rest) = Some res'.
Proof.
  induction taken as [|c taken IH]; intros n prev rest res Hall Hlo Hhi Hk.
  - simpl in *. rewrite Nat.add_0_r in Hlo. apply Nat.leb_le in Hlo.
    destruct rest as [|c rest]; simpl; rewrite Hlo.
    + eauto.
    + destruct (char_match k c && below hi n); [|eauto].
      destruct (rep_loop k lo hi cont (S n) (Some c) rest); eauto.
  - simpl in Hall. apply andb_true_iff in Hall as [Hc Hall].
    simpl List.length in *.
    assert (Hb : below hi n = true).
    { unfold within, below in *. destruct hi; auto. apply Nat.ltb_lt. lia. }
    simpl. rewrite Hc, Hb. simpl.
    destruct (IH (S n) (Some c) rest res Hall) as [res' Hr]; auto; try lia.
    + unfold within in *. destruct hi; auto. lia.
    + rewrite Hr. eauto.
Qed.

(** Every result of the matcher is a match. *)
Theorem exec_sound :
  forall r prev rest st out g,
    exec r prev rest st = Some (out, g) -> Matches r prev rest st out g.
Proof.
  induction r as [|nd r IH]; intros prev rest st out g H; simpl in H.
  - injection H as <- <-. constructor.
  - destruct nd.
    + destruct rest as [|c rest]; [discriminate|].
      destruct (char_match k c) eqn:Hc; [|discriminate].
      constructor; auto.
    + apply rep_loop_sound in H.
      destruct H as (taken & rest' & -> & Hall & Hlo & Hhi & Hk).
      constructor; auto.
      destruct Hhi as [-> | Hhi]; auto.
      unfold within. destruct hi; simpl; auto. lia.
    + destruct prev; [discriminate|]. constructor; auto.
    + destruct rest as [|c [|c' rest]]; try discriminate.
      * constructor; auto.
      * destruct (c =? 10)%N eqn:E; [|discriminate].
        apply N.eqb_eq in E. subst c. constructor; auto.
    + destruct rest; [|discriminate]. constructor; auto.
    + destruct (xorb (is_word_opt prev) (is_word_opt (hd_error rest))) eqn:E;
        [|discriminate].
      constructor; auto.
    + constructor; auto.
    + constructor; auto.
Qed.

(** Where a match exists the matcher finds one. *)
Theorem exec_complete :
  forall r prev rest st out g,
    Matches r prev rest st out g -> exists res, exec r prev rest st = Some res.
Proof.
  intros r prev rest st out g M.
  induction M; simpl.
  - eauto.
  - rewrite H. exact IHM.
  - destruct IHM as [res Hres].
    eapply rep_loop_complete with (n := 0) (res := res); eauto.
  - exact IHM.
  - destruct H as [-> | ->]; simpl; exact IHM.
  - exact IHM.
  - rewrite H. exact IHM.
  - exact IHM.
  - exact IHM.
Qed.

Corollary exec_none :
  forall r prev rest st,
    exec r prev rest st = None ->
    forall out g, ~ Matches r prev rest st out g.
Proof.
  intros r prev rest st H out g M.
  destruct (exec_complete _ _ _ _ _ _ M) as [res Hres]. congruence.
Qed.

(** [search] succeeds exactly when the pattern matches at some position. *)
Lemma search_from_sound r :
  forall s prev res,
    search_from r prev s = Some res ->
    exists pre rest,
      s = pre ++ rest /\
      Matches r (last_opt pre prev) rest no_capture (fst res) (snd res).
Proof.
  induction s as [|c s IH]; intros prev [out g] H; simpl in H.
  - destruct (exec r prev [] no_capture) as [res|] eqn:E; [|discriminate].
    injection H as ->. exists [], []. split; auto.
    now apply exec_sound.
  - destruct (exec r prev (c :: s) no_capture) as [res|] eqn:E.
    + injection H as ->. exists [], (c :: s). split; auto.
      now apply exec_sound.
    + destruct (IH _ _ H) as (pre & rest & -> & M).
      exists (c :: pre), rest. split; auto.
Qed.

Lemma search_from_complete r :
  forall pre prev rest out g,
    Matches r (last_opt pre prev) rest no_capture out g ->
    exists res, search_from r prev (pre ++ rest) = Some res.
Proof.
  induction pre as [|c pre IH]; intros prev rest out g M.
  - simpl in *. destruct (exec_complete _ _ _ _ _ _ M) as [res Hres].
    destruct rest; simpl; rewrite Hres; eauto.
  - simpl. destruct (exec r prev (c :: pre ++ rest) no_capture); eauto.
Qed.

Lemma search_from_none r s prev :
  search_from r prev s = None ->
  forall pre rest out g,
    s = pre ++ rest -> ~ Matches r (last_opt pre prev) rest no_capture out g.
Proof.
  intros H pre rest out g -> M.
  destruct (search_from_complete _ _ _ _ _ _ M) as [res Hres]. congruence.
Qed.

(** ** Deleting the runs of a character class *)

Lemma exec_rep1_none (k : charset) (c : N) (s : pystr) prev st :
  exec [Rep k 1 None] prev (c :: s) st = None -> char_match k c = false.
Proof.
  intros H. destruct (char_match k c) eqn:Hc; auto.
  exfalso. refine (exec_none _ _ _ _ H s (snd st) _).
  change (c :: s) with ([c] ++ s).
  constructor; simpl; auto.
  - now rewrite Hc.
  - constructor.
Qed.

Lemma exec_rep1_some (k : charset) (s : pystr) prev st out g :
  exec [Rep k 1 None] prev s st = Some (out, g) ->
  exists taken, s = taken ++ out /\ forallb (char_match k) taken = true /\ taken <> [].
Proof.
  intros H. apply exec_sound in H. inversion H; subst.
  match goal with M : Matches [] _ _ _ _ _ |- _ => inversion M; subst end.
  exists taken. repeat split; auto.
  intros ->. simpl in *. lia.
Qed.

Lemma filter_all_false {A : Type} (f : A -> bool) (l : list A) :
  forallb (fun x => negb (f x)) l = true -> filter f l = [].
Proof.
  induction l as [|x l IH]; simpl; auto.
  intros H. apply andb_true_iff in H as [Hx Hl].
  apply negb_true_iff in Hx. rewrite Hx. auto.
Qed.

(** [re.sub("[...]+", "", s)] keeps exactly the characters outside the
    class. *)
Lemma sub_empty_rep1 (k : charset) :
  forall fuel s prev,
    List.length s <= fuel ->
    sub_empty_from fuel [Rep k 1 None] prev s
    = filter (fun c => negb (char_match k c)) s.
Proof.
  induction fuel as [|fuel IH]; intros s prev Hlen.
  - destruct s; simpl in *; [reflexivity | lia].
  - destruct s as [|c s]; [reflexivity|].
    cbn [sub_empty_from].
    destruct (exec [Rep k 1 None] prev (c :: s) no_capture) as [[out g]|] eqn:E.
    + destruct (exec_rep1_some _ _ _ _ _ _ E) as (taken & Es & Hall & Hne).
      assert (Hlt : List.length out < List.length (c :: s)).
      { rewrite Es, length_app. destruct taken; [congruence | simpl; lia]. }
      apply Nat.ltb_lt in Hlt. rewrite Hlt.
      rewrite IH.
      * assert (Hnone : filter (fun x => negb (char_match k x)) taken = []).
        { apply filter_all_false. rewrite forallb_forall in *.
          intros x Hx. rewrite negb_involutive. auto. }
        now rewrite Es, filter_app, Hnone.
      * apply Nat.ltb_lt in Hlt. simpl in *. lia.
    + apply exec_rep1_none in E. simpl. rewrite E. simpl.
      f_equal. apply IH. simpl in Hlen. lia.
Qed.

Lemma re_sub_empty_rep1 (k : charset) (s : pystr) :
  re_sub_empty [Rep k 1 None] s = filter (fun c => negb (char_match k c)) s.
Proof. apply sub_empty_rep1. lia. Qed.

(** ** The greedy choice *)

(** An unbounded repetition takes the whole run when the continuation
    accepts what follows it. *)
Lemma rep_loop_greedy {R : Type} k lo (cont : option N -> pystr -> option R) :
  forall taken n prev rest res,
    forallb (char_match k) taken = true ->
    run_ends k rest ->
    lo <= n + List.length taken ->
    cont (last_opt taken prev) rest = Some res ->
    rep_loop k lo None cont n prev (taken ++ rest) = Some res.
Proof.
  induction taken as [|c taken IH]; intros n prev rest res Hall Hend Hlo Hk.
  - simpl in *. rewrite Nat.add_0_r in Hlo. apply Nat.leb_le in Hlo.
    destruct rest as [|c rest]; simpl; rewrite Hlo; auto.
    simpl in Hend. now rewrite Hend.
  - simpl in Hall. apply andb_true_iff in Hall as [Hc Hall].
    simpl. rewrite Hc. simpl.
    rewrite (IH (S n) (Some c) rest res); auto.
    simpl in Hlo. lia.
Qed.


Lemma close_group_text (taken rest : pystr) (g : option pystr) :
  close_group (Some (taken ++ rest), g) rest = (Some (taken ++ rest), Some taken).
Proof.
  unfold close_group. simpl. rewrite length_app.
  replace (List.length taken + List.length rest - List.length rest)
    with (List.length taken + 0) by lia.
  now rewrite firstn_app_2, app_nil_r.
Qed.

End WithUnicode.
End RegexFacts.

(* ================================================================= *)
(** * The chatbot *)
(* ================================================================= *)

Module NormalizeFacts.
Import PyStr PyStrFacts Regex RegexFacts Chatbot.

Lemma ascii_lower_normal (c : N) : normal_char c = true -> ascii_lower c = c.
Proof.
  intros H. unfold ascii_lower. destruct (is_upper_az c) eqn:E; auto.
  exfalso. unfold normal_char in H. bools; lia.
Qed.

Lemma ascii_tables_lower_normal (s : pystr) :
  forallb normal_char s = true -> map ascii_lower s = s.
Proof.
  induction s as [|c s IH]; simpl; auto.
  intros H. apply andb_true_iff in H as [Hc Hs].
  now rewrite ascii_lower_normal, IH.
Qed.

Section WithUnicode.
Context {U : UnicodeDB}.

Lemma normalize_filter (s : pystr) :
  _normalize s = strip (filter normal_char (lower s)).
Proof.
  unfold _normalize, sub_empty.
  change (compile false (u "[^a-z0-9\s]+"))
    with (Some [Rep (CSet true [SRange 97 122; SRange 48 57; SSpace]) 1 None]).
  cbv beta iota. rewrite re_sub_empty_rep1. f_equal. apply filter_ext.
  intros c. unfold normal_char, is_lower_az, is_digit09. simpl.
  destruct (in_range 97 122 c), (in_range 48 57 c), (is_space c); reflexivity.
Qed.

Lemma normalize_chars (s : pystr) : forallb normal_char (_normalize s) = true.
Proof.
  rewrite normalize_filter. apply forallb_forall. apply Forall_forall.
  apply Forall_strip. apply Forall_forall. intros c Hc.
  now apply filter_In in Hc.
Qed.

Lemma filter_all_true {A : Type} (f : A -> bool) (l : list A) :
  forallb f l = true -> filter f l = l.
Proof.
  induction l as [|x l IH]; simpl; auto.
  intros H. apply andb_true_iff in H as [Hx Hl]. rewrite Hx. f_equal. auto.
Qed.

(** Lowercase letters, digits and whitespace have no other lowercase form.
    For a pure ASCII string this is computed; beyond ASCII it is a property
    of the interpreter's case mapping. *)
Hypothesis uni_lower_normal :
  forall s, forallb normal_char s = true -> uni_lower s = s.

Lemma lower_normal (s : pystr) : forallb normal_char s = true -> lower s = s.
Proof.
  intros H. unfold lower. destruct (forallb is_ascii s); auto.
  now apply ascii_tables_lower_normal.
Qed.

(** C9. [_normalize] is idempotent: its output (lowercased, reduced to
    lowercase letters, digits and whitespace, trimmed) is a fixed point. *)
Theorem normalize_idempotent (s : pystr) :
  _normalize (_normalize s) = _normalize s.
Proof.
  pose proof (normalize_chars s) as Hn.
  rewrite (normalize_filter (_normalize s)).
  rewrite (lower_normal _ Hn), (filter_all_true _ _ Hn).
  rewrite (normalize_filter s). apply strip_idempotent.
Qed.

End WithUnicode.

Lemma normalize_idempotent_witness :
  @_normalize ascii_tables (@_normalize ascii_tables (u "  Hello, World!! 42 "))
  = @_normalize ascii_tables (u "  Hello, World!! 42 ").
Proof.
  apply (@normalize_idempotent ascii_tables).
  intros s H. simpl. now apply ascii_tables_lower_normal.
Defined.

End NormalizeFacts.

Module TodoQueryFacts.
Import PyStr PyStrFacts Regex RegexFacts Chatbot.

Section WithUnicode.
Context {U : UnicodeDB}.



Lemma mark_done_prefix (user_msg0 r : pystr) :
  lower (strip user_msg0) = u "mark done" ++ r ->
  _is_todo_query user_msg0
  = if startswith (u " ") r then
      match exec [GroupOpen; Rep CDigit 1 None; GroupClose] (Some 32%N) (tl r) no_capture with
      | Some m =>
        match py_int (group1 m) with
        | Some n => Some (u "done", ArgInt n)
        | None => None
        end
      | None => None
      end
    else None.
Proof.
  intros E. unfold _is_todo_query. rewrite E.
  destruct r as [|c r]; [reflexivity|].
  destruct (N.eq_dec c 32) as [-> | Hc]; [reflexivity|].
  assert (H1 : startswith (u " ") (c :: r) = false).
  { change (u " ") with [32%N]. cbn [startswith].
    now rewrite (proj2 (N.eqb_neq 32 c)) by congruence. }
  assert (H2 : startswith (u "mark done ") (u "mark done" ++ c :: r) = false).
  { change (u "mark done ") with (u "mark done" ++ [32%N]).
    now rewrite startswith_app. }
  rewrite H1, H2. reflexivity.
Qed.


(** "mark done N": the digits are read as far as they go and parsed. *)
Lemma mark_done_with_digits (user_msg0 ds r' : pystr) :
  lower (strip user_msg0) = u "mark done " ++ ds ++ r' ->
  ds <> [] ->
  forallb (char_match CDigit) ds = true ->
  run_ends CDigit r' ->
  exists n, py_int ds = Some n /\
            _is_todo_query user_msg0 = Some (u "done", ArgInt n).
Proof.
  intros E Hne Hds Hend.
  assert (Hint : exists n, py_int ds = Some n).
  { unfold py_int. destruct ds as [|d0 ds0] eqn:Eds; [congruence|].
    rewrite <- Eds in *. clear Eds Hne E.
    assert (G : forall acc, exists n,
               fold_left (fun acc c =>
                 match acc, decimal_value c with
                 | Some n, Some d => Some (10 * n + Z.of_N d)%Z
                 | _, _ => None
                 end) ds (Some acc) = Some n).
    { induction ds as [|d ds IH]; intros acc; simpl; eauto.
      simpl in Hds. apply andb_true_iff in Hds as [Hd Hds].
      destruct (decimal_value d); [|discriminate]. auto. }
    apply G. }
  destruct Hint as [n Hn]. exists n. split; auto.
  rewrite (mark_done_prefix user_msg0 (32%N :: ds ++ r')) by exact E.
  simpl startswith. simpl tl. cbn [exec].
  rewrite (rep_loop_greedy CDigit 1 _ ds 0 (Some 32%N) r'
             (r', Some ds)); auto.
  - unfold group1. simpl. now rewrite Hn.
  - destruct ds; [congruence | simpl; lia].
  - cbn [exec]. now rewrite close_group_text.
Qed.


End WithUnicode.


End TodoQueryFacts.

Module IntentFacts.
Import PyStr PyStrFacts Regex RegexFacts Chatbot.

(** ** Compiled patterns can be compared *)

Lemma list_eqb_eq {A : Type} (eqb : A -> A -> bool) :
  (forall x y, eqb x y = true -> x = y) ->
  forall a b, list_eqb eqb a b = true -> a = b.
Proof.
  intros Heq. induction a as [|x a IH]; intros [|y b] H; simpl in H;
    try discriminate; auto.
  apply andb_true_iff in H as [Hx Hl]. f_equal; auto.
Qed.

Lemma set_item_eqb_eq (a b : set_item) : set_item_eqb a b = true -> a = b.
Proof.
  destruct a, b; simpl; intros H; try discriminate; auto.
  - apply N.eqb_eq in H. congruence.
  - apply andb_true_iff in H as [H1 H2].
    apply N.eqb_eq in H1, H2. congruence.
Qed.

Lemma charset_eqb_eq (a b : charset) : charset_eqb a b = true -> a = b.
Proof.
  destruct a, b; simpl; intros H; try discriminate; auto.
  - apply andb_true_iff in H as [H1 H2].
    apply Bool.eqb_prop in H1. apply N.eqb_eq in H2. congruence.
  - apply andb_true_iff in H as [H1 H2].
    apply Bool.eqb_prop in H1. apply (list_eqb_eq _ set_item_eqb_eq) in H2.
    congruence.
Qed.

Lemma node_eqb_eq (a b : node) : node_eqb a b = true -> a = b.
Proof.
  destruct a, b; simpl; intros H; try discriminate; auto.
  - apply charset_eqb_eq in H. congruence.
  - apply andb_true_iff in H as [H H3]. apply andb_true_iff in H as [H1 H2].
    apply charset_eqb_eq in H1. apply Nat.eqb_eq in H2.
    destruct hi as [h|], hi0 as [h'|]; try discriminate.
    + apply Nat.eqb_eq in H3. congruence.
    + congruence.
Qed.

Lemma compiles_to_spec (ci : bool) (p : pystr) (r : regex) :
  compiles_to ci p r = true -> compile ci p = Some r.
Proof.
  unfold compiles_to. destruct (compile ci p) as [r'|]; [|discriminate].
  intros H. apply (list_eqb_eq _ node_eqb_eq) in H. congruence.
Qed.

(** ** The table *)

Lemma intents_well_formed :
  forallb (fun i => forallb well_formed_pattern (patterns i)
                    && negb (Nat.eqb (List.length (responses i)) 0)) intents = true.
Proof. vm_compute. reflexivity. Qed.

Lemma table_pattern (i : intent) (p : pystr) :
  In i intents -> In p (patterns i) -> well_formed_pattern p = true.
Proof.
  intros Hi Hp. pose proof intents_well_formed as H.
  rewrite forallb_forall in H. specialize (H i Hi).
  apply andb_true_iff in H as [H _]. rewrite forallb_forall in H. auto.
Qed.

Lemma table_responses (i : intent) : In i intents -> responses i <> [].
Proof.
  intros Hi. pose proof intents_well_formed as H.
  rewrite forallb_forall in H. specialize (H i Hi).
  apply andb_true_iff in H as [_ H]. intros E. rewrite E in H. discriminate.
Qed.

Section WithUnicode.
Context {U : UnicodeDB}.

(** ** A literal between word boundaries *)

Lemma exec_literals (p : pystr) (r : regex) :
  forall prev s st,
    exec (map (fun c => Chr (CLit true c)) p ++ r) prev s st
    = if caseless_prefix p s
      then exec r (last_opt (firstn (List.length p) s) prev) (skipn (List.length p) s) st
      else None.
Proof.
  induction p as [|a p IH]; intros prev s st.
  - reflexivity.
  - destruct s as [|c s]; [reflexivity|].
    cbn [map app exec char_match caseless_prefix].
    destruct (caseless_eq a c); [|reflexivity].
    rewrite IH. reflexivity.
Qed.

(** Only a letter or digit equals an ASCII letter up to case.  Among ASCII
    characters this is computed; beyond, it is a property of the
    interpreter's case tables. *)
Hypothesis caseless_letters_are_alnum :
  forall a c, is_ascii_letter a = true -> is_ascii c = false ->
              uni_caseless_eq a c = true -> uni_isalnum c = true.

Lemma caseless_letter_is_word (a c : N) :
  is_ascii_letter a = true -> caseless_eq a c = true -> is_word c = true.
Proof.
  intros Ha Hc. unfold caseless_eq, is_word in *.
  assert (Haa : is_ascii a = true).
  { unfold is_ascii_letter in Ha. bools; apply N.ltb_lt; lia. }
  rewrite Haa in Hc. destruct (is_ascii c) eqn:Ec; simpl in Hc.
  - unfold ascii_lower, is_ascii_letter in *.
    destruct (is_upper_az c) eqn:Euc; [now rewrite orb_true_r|].
    assert (Hlc : is_lower_az c = true); [|now rewrite Hlc].
    destruct (is_upper_az a) eqn:Eua; bools;
      apply andb_true_iff; split; apply N.leb_le; lia.
  - now apply (caseless_letters_are_alnum a).
Qed.

Lemma caseless_prefix_first (p s : pystr) :
  caseless_prefix p s = true ->
  is_ascii_letter (hd 0%N p) = true ->
  is_word_opt (hd_error s) = true.
Proof.
  destruct p as [|a p]; [discriminate|].
  destruct s as [|c s]; [discriminate|]. simpl.
  intros H Ha. apply andb_true_iff in H as [H _].
  now apply (caseless_letter_is_word a).
Qed.

Lemma caseless_prefix_last (p : pystr) :
  forall s prev,
    p <> [] ->
    caseless_prefix p s = true ->
    is_ascii_letter (last p 0%N) = true ->
    is_word_opt (last_opt (firstn (List.length p) s) prev) = true.
Proof.
  induction p as [|a p IH]; intros s prev Hne H Hl; [congruence|].
  destruct s as [|c s]; [discriminate|].
  cbn [caseless_prefix] in H. apply andb_true_iff in H as [Hc H].
  cbn [List.length firstn]. rewrite last_opt_cons.
  destruct p as [|b p].
  - simpl in *. now apply (caseless_letter_is_word a).
  - apply IH; auto. discriminate.
Qed.

Lemma exec_word_bounded (p : pystr) (prev : option N) (s : pystr) (st : capture) :
  well_formed_pattern p = true ->
  Chatbot.matched (exec (word_bounded p) prev s st) = whole_word_at p prev s.
Proof.
  intros Hwf. unfold well_formed_pattern in Hwf.
  apply andb_true_iff in Hwf as [Hwf Hlast].
  apply andb_true_iff in Hwf as [_ Hfirst].
  assert (Hne : p <> []) by (destruct p; [discriminate | discriminate]).
  assert (Hfirst' : is_ascii_letter (hd 0%N p) = true) by (destruct p; auto; discriminate).
  unfold word_bounded, whole_word_at. cbn [exec].
  destruct (caseless_prefix p s) eqn:Hp.
  - rewrite (caseless_prefix_first _ _ Hp Hfirst'), xorb_true_r.
    destruct (is_word_opt prev); [reflexivity|]. cbn [negb andb].
    rewrite exec_literals, Hp. cbn [exec].
    rewrite (caseless_prefix_last _ _ prev Hne Hp Hlast). unfold char_after.
    destruct (is_word_opt (hd_error (skipn (List.length p) s))); reflexivity.
  - destruct (xorb (is_word_opt prev) (is_word_opt (hd_error s))); [|reflexivity].
    now rewrite exec_literals, Hp.
Qed.

Lemma search_word_bounded (p : pystr) :
  well_formed_pattern p = true ->
  forall s prev,
    Chatbot.matched (search_from (word_bounded p) prev s) = whole_word_in p prev s.
Proof.
  intros Hwf. induction s as [|c s IH]; intros prev.
  - cbn [search_from whole_word_in].
    rewrite <- (exec_word_bounded p prev [] no_capture Hwf).
    destruct (exec (word_bounded p) prev [] no_capture); reflexivity.
  - cbn [search_from whole_word_in].
    rewrite <- (exec_word_bounded p prev (c :: s) no_capture Hwf), <- IH.
    destruct (exec (word_bounded p) prev (c :: s) no_capture); reflexivity.
Qed.

(** On a table pattern the compiled regex finds exactly the whole-word
    occurrences. *)
Lemma pattern_search_whole_word (p msg : pystr) :
  well_formed_pattern p = true ->
  pattern_search p msg = whole_word_in p None msg.
Proof.
  intros Hwf. unfold pattern_search, search.
  assert (Hc : compile true (intent_regex p) = Some (word_bounded p)).
  { apply compiles_to_spec. unfold well_formed_pattern in Hwf.
    apply andb_true_iff in Hwf as [Hwf _]. now apply andb_true_iff in Hwf as [Hwf _]. }
  rewrite Hc. now apply search_word_bounded.
Qed.

Lemma only_inside_words_spec (p : pystr) :
  forall s prev, only_inside_words p prev s = negb (whole_word_in p prev s).
Proof.
  induction s as [|c s IH]; intros prev; cbn [only_inside_words whole_word_in];
    unfold whole_word_at; rewrite ?IH;
    destruct (caseless_prefix p _), (is_word_opt prev), (is_word_opt (char_after p _));
    simpl; try reflexivity; destruct (whole_word_in p (Some c) s); reflexivity.
Qed.

(** C7. A table pattern that occurs in the message only inside longer
    words (each occurrence has a word character right before or right
    behind it) is not matched by the pattern-matching step. *)
Theorem pattern_inside_word_not_matched (i : intent) (p msg : pystr) :
  In i intents -> In p (patterns i) ->
  only_inside_words p None msg = true ->
  pattern_search p msg = false.
Proof.
  intros Hi Hp H.
  rewrite (pattern_search_whole_word p msg (table_pattern i p Hi Hp)).
  rewrite only_inside_words_spec in H. now apply negb_true_iff in H.
Qed.

(** ** The first matching intent *)

Lemma match_intents_skip (before rest : list intent) (msg : pystr) :
  forallb (fun j => negb (existsb (fun q => pattern_search q msg) (patterns j))) before = true ->
  match_intents (before ++ rest) msg = match_intents rest msg.
Proof.
  induction before as [|j before IH]; intros H; simpl in *; auto.
  apply andb_true_iff in H as [Hj H]. apply negb_true_iff in Hj.
  rewrite Hj. auto.
Qed.

Lemma random_choice_in {A : Type} (rnd : nat) (l : list A) :
  l <> [] -> exists x, random_choice rnd l = Some x /\ In x l.
Proof.
  intros Hne. unfold random_choice.
  destruct (nth_error l (rnd mod List.length l)) as [x|] eqn:E.
  - exists x. split; auto. eapply nth_error_In; eauto.
  - exfalso. apply nth_error_None in E.
    assert (List.length l <> 0) by (destruct l; simpl; congruence).
    pose proof (Nat.mod_upper_bound rnd (List.length l)). lia.
Qed.

(** C2, as the code has it. For a pattern [p] of a table intent [i]: when
    the message contains [p] as a whole word and no pattern of an intent
    declared before [i] is found in the message, the pattern-matching step
    answers with a reply from [i]'s own list, whatever the random draw. *)
Theorem first_matching_intent_replies
    (before : list intent) (i : intent) (after : list intent)
    (p msg : pystr) (rnd : nat) :
  intents = before ++ i :: after ->
  In p (patterns i) ->
  whole_word_in p None msg = true ->
  forallb (fun j => negb (existsb (fun q => pattern_search q msg) (patterns j))) before = true ->
  exists reply, intent_stage rnd msg = Some (Some reply) /\ In reply (responses i).
Proof.
  intros Ht Hp Hw Hb.
  assert (Hi : In i intents) by (rewrite Ht; apply in_elt).
  assert (Hm : match_intents intents msg = Some (responses i)).
  { rewrite Ht, (match_intents_skip _ _ _ Hb). cbn [match_intents].
    assert (He : existsb (fun q => pattern_search q msg) (patterns i) = true).
    { apply existsb_exists. exists p. split; auto.
      now rewrite (pattern_search_whole_word p msg (table_pattern i p Hi Hp)). }
    now rewrite He. }
  destruct (random_choice_in rnd (responses i) (table_responses i Hi)) as (x & Hx & Hin).
  exists x. unfold intent_stage. rewrite Hm. cbn [option_map]. now rewrite Hx.
Qed.

End WithUnicode.

Lemma ascii_tables_caseless :
  forall a c, is_ascii_letter a = true -> is_ascii c = false ->
              @uni_caseless_eq ascii_tables a c = true ->
              @uni_isalnum ascii_tables c = true.
Proof.
  intros a c Ha Hc H. exfalso. simpl in H. apply N.eqb_eq in H.
  unfold ascii_lower, is_ascii_letter in *.
  destruct (is_upper_az c) eqn:Ec, (is_upper_az a) eqn:Ea; bools; lia.
Qed.

Lemma pattern_inside_word_not_matched_witness :
  @pattern_search ascii_tables (u "hi") (u "history") = false.
Proof.
  apply (@pattern_inside_word_not_matched ascii_tables ascii_tables_caseless
           (hd (mkIntent [] [] []) intents)).
  - left. reflexivity.
  - left. reflexivity.
  - reflexivity.
Defined.

Lemma first_matching_intent_replies_witness :
  exists reply,
    @intent_stage ascii_tables 3 (u "ok, Bye!") = Some (Some reply) /\
    In reply (responses (nth 1 intents (mkIntent [] [] []))).
Proof.
  apply (@first_matching_intent_replies ascii_tables ascii_tables_caseless
           (firstn 1 intents) (nth 1 intents (mkIntent [] [] [])) (skipn 2 intents)
           (u "bye")).
  - reflexivity.
  - left. reflexivity.
  - reflexivity.
  - reflexivity.
Defined.

(** C2 as first stated fails: "good night" is a pattern of [goodbye] and
    the whole message, yet [greet], declared earlier, lists it too and
    answers; none of its replies is a [goodbye] reply. *)
Lemma own_reply_list_counterexample :
  let goodbye := nth 1 intents (mkIntent [] [] []) in
  let msg := u "good night" in
  In goodbye intents /\
  In (u "good night") (patterns goodbye) /\
  @whole_word_in ascii_tables (u "good night") None msg = true /\
  forall rnd, exists reply,
      @intent_stage ascii_tables rnd msg = Some (Some reply) /\
      ~ In reply (responses goodbye).
Proof.
  cbv zeta. split; [|split; [|split]].
  - right. left. reflexivity.
  - do 11 right. left. reflexivity.
  - reflexivity.
  - intros rnd.
    set (greet := hd (mkIntent [] [] []) intents).
    assert (Hm : @match_intents ascii_tables intents (u "good night")
                 = Some (responses greet)) by reflexivity.
    destruct (random_choice_in rnd (responses greet)) as (x & Hx & Hin);
      [discriminate|].
    exists x. split.
    + unfold intent_stage. rewrite Hm. cbn [option_map]. now rewrite Hx.
    + assert (Hno : forallb (fun r => negb (existsb (pystr_eqb r)
                                 (responses (nth 1 intents (mkIntent [] [] [])))))
                            (responses greet) = true) by reflexivity.
      rewrite forallb_forall in Hno. specialize (Hno x Hin).
      apply negb_true_iff in Hno. intros Hc.
      assert (existsb (pystr_eqb x) (responses (nth 1 intents (mkIntent [] [] []))) = true).
      { apply existsb_exists. exists x. split; auto. apply pystr_eqb_refl. }
      congruence.
Qed.

End IntentFacts.

Module CalcQueryFacts.
Import PyStr PyStrFacts Regex RegexFacts Chatbot.

(** ** Lists of whitespace *)

Lemma ws_prefix_unique (a b : pystr) (x y : N) (s t : pystr) :
  forallb is_space a = true -> forallb is_space b = true ->
  is_space x = false -> is_space y = false ->
  a ++ x :: s = b ++ y :: t ->
  a = b /\ x = y /\ s = t.
Proof.
  intros Ha Hb Hx Hy E.
  assert (E' : x :: s = y :: t).
  { rewrite <- (lstrip_unique a (x :: s)), <- (lstrip_unique b (y :: t)); auto.
    now rewrite E. }
  injection E' as -> ->. split; auto.
  now apply app_inv_tail in E.
Qed.

Lemma operator_not_space (c : N) : is_space c = true -> operator_char c = false.
Proof.
  intros H. unfold operator_char. simpl.
  destruct (c =? 43)%N eqn:E1, (c =? 45)%N eqn:E2, (c =? 42)%N eqn:E3,
           (c =? 47)%N eqn:E4, (c =? 37)%N eqn:E5; auto; exfalso; bools; lia.
Qed.

Lemma space_is_expr_char (c : N) : is_space c = true -> expr_char c = true.
Proof. intros H. unfold expr_char. rewrite H. apply orb_true_r. Qed.

Lemma filter_spaces (w : pystr) :
  forallb is_space w = true -> filter expr_char w = w.
Proof.
  induction w as [|c w IH]; simpl; auto. intros H.
  apply andb_true_iff in H as [Hc Hw]. rewrite (space_is_expr_char _ Hc).
  f_equal. auto.
Qed.

Lemma no_operator_in_spaces (w : pystr) :
  forallb is_space w = true -> existsb operator_char w = false.
Proof.
  induction w as [|c w IH]; simpl; auto. intros H.
  apply andb_true_iff in H as [Hc Hw]. now rewrite (operator_not_space _ Hc), IH.
Qed.

Lemma existsb_operator_strip (s : pystr) :
  existsb operator_char (strip s) = existsb operator_char s.
Proof.
  destruct (strip_spec s) as (a & b & E & Ha & Hb & _).
  rewrite E at 2. rewrite !existsb_app.
  now rewrite (no_operator_in_spaces _ Ha), (no_operator_in_spaces _ Hb), orb_false_r.
Qed.

(** Two readings of the same text as whitespace followed by a one-line
    remainder agree on the cleaned remainder. *)
Lemma same_remainder (w G out sep R nl : pystr) :
  w ++ G ++ out = sep ++ R ++ nl ->
  forallb is_space w = true -> forallb is_space sep = true ->
  G <> [] -> R <> [] ->
  forallb (fun c => negb (c =? 10)%N) G = true ->
  forallb (fun c => negb (c =? 10)%N) R = true ->
  (out = [] \/ out = [10%N]) -> (nl = [] \/ nl = [10%N]) ->
  out = nl /\
  strip (filter expr_char G) = strip (filter expr_char R) /\
  existsb operator_char (filter expr_char G)
  = existsb operator_char (filter expr_char R).
Proof.
  intros E Hw Hsep HG HR HGn HRn Hout Hnl.
  assert (Hlast : forall X, X <> [] -> forallb (fun c => negb (c =? 10)%N) X = true ->
                            forall pre Y, pre ++ X = Y ++ [10%N] -> False).
  { intros X HX HXn pre Y EX.
    destruct (exists_last HX) as (X' & z & ->).
    rewrite app_assoc in EX. apply app_inj_tail in EX as [_ ->].
    rewrite forallb_app in HXn. apply andb_true_iff in HXn as [_ HXn].
    simpl in HXn. discriminate. }
  assert (E2 : out = nl /\ w ++ G = sep ++ R).
  { destruct Hout as [-> | ->], Hnl as [-> | ->].
    - rewrite !app_nil_r in E. auto.
    - rewrite app_nil_r in E. exfalso.
      rewrite (app_assoc sep R) in E.
      exact (Hlast G HG HGn w (sep ++ R) E).
    - rewrite app_nil_r in E. exfalso. symmetry in E.
      rewrite (app_assoc w G) in E.
      exact (Hlast R HR HRn sep (w ++ G) E).
    - rewrite (app_assoc w G), (app_assoc sep R) in E.
      apply app_inj_tail in E as [E _]. auto. }
  destruct E2 as [-> E2]. split; auto.
  apply app_eq_app in E2 as [l [[E3 E4] | [E3 E4]]].
  - assert (Hl : forallb is_space l = true).
    { rewrite E3, forallb_app in Hw. now apply andb_true_iff in Hw as [_ Hw]. }
    subst R. rewrite filter_app, (filter_spaces _ Hl). split.
    + rewrite <- (app_nil_r (filter expr_char G)) at 2.
      now rewrite (strip_pad l (filter expr_char G) []).
    + now rewrite existsb_app, (no_operator_in_spaces _ Hl).
  - assert (Hl : forallb is_space l = true).
    { rewrite E3, forallb_app in Hsep. now apply andb_true_iff in Hsep as [_ Hsep]. }
    subst G. rewrite filter_app, (filter_spaces _ Hl). split.
    + rewrite <- (app_nil_r (filter expr_char R)) at 1.
      now rewrite (strip_pad l (filter expr_char R) []).
    + now rewrite existsb_app, (no_operator_in_spaces _ Hl).
Qed.

Section WithUnicode.
Context {U : UnicodeDB}.

(** ** The small patterns *)

Lemma sub_empty_chr (k : charset) :
  forall fuel s prev,
    List.length s <= fuel ->
    sub_empty_from fuel [Chr k] prev s = filter (fun c => negb (char_match k c)) s.
Proof.
  induction fuel as [|fuel IH]; intros s prev Hlen.
  - destruct s; simpl in *; [reflexivity | lia].
  - destruct s as [|c s]; [reflexivity|].
    cbn [sub_empty_from exec filter]. simpl in Hlen.
    destruct (char_match k c); cbn [negb snd].
    + assert (Hlt : (List.length s <? List.length (c :: s)) = true)
        by (apply Nat.ltb_lt; simpl; lia).
      rewrite Hlt. apply IH. lia.
    + f_equal. apply IH. lia.
Qed.

(** [re.sub(r"[^0-9+\-*/%.()\s]", "", s)] keeps the expression characters. *)
Lemma strip_non_expr (s : pystr) :
  sub_empty (u "[^0-9+\-*/%.()\s]") s = filter expr_char s.
Proof.
  unfold sub_empty.
  change (compile false (u "[^0-9+\-*/%.()\s]"))
    with (Some [Chr (CSet true [SRange 48 57; SChar 43; SChar 45; SChar 42;
                                SChar 47; SChar 37; SChar 46; SChar 40;
                                SChar 41; SSpace])]).
  cbv beta iota. unfold re_sub_empty. rewrite sub_empty_chr by lia.
  apply filter_ext. intros c. unfold expr_char, is_digit09. simpl.
  destruct (in_range 48 57 c), (c =? 43)%N, (c =? 45)%N, (c =? 42)%N,
           (c =? 47)%N, (c =? 37)%N, (c =? 46)%N, (c =? 40)%N, (c =? 41)%N,
           (is_space c); reflexivity.
Qed.

(** [re.search(r"[+\-*/%]", s)] succeeds when an operator occurs. *)
Lemma has_operator_spec (s : pystr) : has_operator s = existsb operator_char s.
Proof.
  unfold has_operator, search.
  change (compile false (u "[+\-*/%]"))
    with (Some [Chr (CSet false [SChar 43; SChar 45; SChar 42; SChar 47; SChar 37])]).
  cbv beta iota. unfold re_search. generalize (@None N).
  induction s as [|c s IH]; intros prev; [reflexivity|].
  cbn [search_from exec existsb].
  change (char_match (CSet false [SChar 43; SChar 45; SChar 42; SChar 47; SChar 37]) c)
    with (operator_char c).
  destruct (operator_char c); [reflexivity|]. apply IH.
Qed.

(** An anchored pattern is tried at the start only. *)
Lemma search_bol_later (r : regex) (s : pystr) (c : N) :
  search_from (Bol :: r) (Some c) s = None.
Proof.
  revert c. induction s as [|d s IH]; intros c; cbn [search_from exec]; auto.
Qed.

Lemma search_bol (r : regex) (s : pystr) :
  re_search (Bol :: r) s = exec (Bol :: r) None s no_capture.
Proof.
  unfold re_search. destruct s as [|c s]; cbn [search_from].
  - destruct (exec (Bol :: r) None [] no_capture); reflexivity.
  - destruct (exec (Bol :: r) None (c :: s) no_capture); auto.
    apply search_bol_later.
Qed.

Lemma exec_plain_literals (kw : pystr) (r : regex) :
  forall prev s st,
    exec (literals false kw ++ r) prev (kw ++ s) st = exec r (last_opt kw prev) s st.
Proof.
  induction kw as [|c kw IH]; intros prev s st; [reflexivity|].
  cbn [literals map app exec char_match]. rewrite N.eqb_refl.
  apply IH.
Qed.

(** Leading whitespace, then a keyword: the head of a phrasal pattern. *)
Lemma exec_head_some (kw : pystr) (r : regex) (ws s : pystr) st res :
  forallb is_space ws = true ->
  starts_clean kw -> kw <> [] ->
  exec r (last_opt kw (last_opt ws None)) s st = Some res ->
  exec (Bol :: Rep CSpace 0 None :: literals false kw ++ r) None (ws ++ kw ++ s) st
  = Some res.
Proof.
  intros Hws Hkw Hne Hr. cbn [exec].
  apply rep_loop_greedy; auto.
  - destruct kw as [|c kw]; [congruence|]. exact Hkw.
  - lia.
  - now rewrite exec_plain_literals.
Qed.

(** A message that starts with another keyword fails the pattern. *)
Lemma exec_head_none (a : N) (r : regex) (ws : pystr) (b : N) (s : pystr) st :
  forallb is_space ws = true ->
  is_space a = false -> is_space b = false -> a <> b ->
  exec (Bol :: Rep CSpace 0 None :: Chr (CLit false a) :: r) None (ws ++ b :: s) st
  = None.
Proof.
  intros Hws Ha Hb Hab.
  destruct (exec _ None (ws ++ b :: s) st) as [[out g]|] eqn:E; auto.
  exfalso. apply exec_sound in E.
  inversion E as [| | | r0 rest0 st0 out0 g0 M0 | | | | |]; subst.
  inversion M0 as [| | k lo hi r1 taken prev1 rest1 st1 out1 g1 Hall _ _ M1 Eq | | | | | |];
    subst.
  inversion M1 as [| k r2 c prev2 rest2 st2 out2 g2 Hc _ | | | | | | |]; subst.
  simpl in Hc. apply N.eqb_eq in Hc. subst c.
  match goal with
  | H : taken ++ a :: rest2 = ws ++ b :: s |- _ =>
    destruct (ws_prefix_unique taken ws a b rest2 s Hall Hws Ha Hb H) as (_ & Hx & _)
  end.
  congruence.
Qed.

(** ** The end of a phrasal pattern: [\s+(.+)$] *)

Lemma tail_matches_intro prev (sep R nl : pystr) :
  forallb is_space sep = true -> sep <> [] ->
  forallb (fun c => negb (c =? 10)%N) R = true -> R <> [] ->
  (nl = [] \/ nl = [10%N]) ->
  Matches phrase_tail prev (sep ++ R ++ nl) no_capture nl (Some R).
Proof.
  intros Hsep Hsne HR HRne Hnl. unfold phrase_tail.
  apply M_rep; auto.
  - destruct sep; [congruence | simpl; lia].
  - exact I.
  - apply M_open. apply M_rep; auto.
    + destruct R; [congruence | simpl; lia].
    + exact I.
    + apply M_close. cbn [snd no_capture]. rewrite close_group_text.
      apply M_eol; auto.
      exact (M_nil (last_opt R (last_opt sep prev)) nl (Some (R ++ nl), Some R)).
Qed.

Lemma tail_matches_inv prev (s out : pystr) (g : option pystr) :
  Matches phrase_tail prev s no_capture out g ->
  exists w G,
    s = w ++ G ++ out /\
    forallb is_space w = true /\ w <> [] /\
    forallb (fun c => negb (c =? 10)%N) G = true /\ G <> [] /\
    (out = [] \/ out = [10%N]) /\
    g = Some G.
Proof.
  intros M. unfold phrase_tail in M.
  inversion M as [| | k lo hi r w prev1 rest1 st1 out1 g1 Hw Hwlen _ M1 | | | | | |]; subst.
  inversion M1 as [| | | | | | | r2 prev2 rest2 st2 out2 g2 M2 |]; subst.
  inversion M2 as [| | k lo hi r3 G prev3 rest3 st3 out3 g3 HG HGlen _ M3 | | | | | |]; subst.
  inversion M3 as [| | | | | | | | r4 prev4 rest4 st4 out4 g4 M4]; subst.
  cbn [snd no_capture] in M4. rewrite close_group_text in M4.
  inversion M4 as [| | | | r5 prev5 rest5 st5 out5 g5 Hend M5 | | | |]; subst.
  inversion M5; subst.
  exists w, G. repeat split; auto.
  - intros ->. simpl in Hwlen. lia.
  - intros ->. simpl in HGlen. lia.
Qed.

Lemma tail_exec prev (sep R nl : pystr) :
  forallb is_space sep = true -> sep <> [] ->
  forallb (fun c => negb (c =? 10)%N) R = true -> R <> [] ->
  (nl = [] \/ nl = [10%N]) ->
  exists G,
    exec phrase_tail prev (sep ++ R ++ nl) no_capture = Some (nl, Some G) /\
    strip (filter expr_char G) = strip (filter expr_char R) /\
    existsb operator_char (filter expr_char G)
    = existsb operator_char (filter expr_char R).
Proof.
  intros Hsep Hsne HR HRne Hnl.
  destruct (exec_complete _ _ _ _ _ _
              (tail_matches_intro prev sep R nl Hsep Hsne HR HRne Hnl))
    as [[out g] E].
  destruct (tail_matches_inv _ _ _ _ (exec_sound _ _ _ _ _ _ E))
    as (w & G & Es & Hw & Hwne & HG & HGne & Hout & ->).
  destruct (same_remainder w G out sep R nl) as (-> & H1 & H2); auto.
  exists G. auto.
Qed.

(** ** Each phrasal pattern on each kind of message *)

Lemma search_miss (pat : pystr) (a : N) (r : regex) (ws : pystr) (b : N) (s : pystr) :
  compile false pat = Some (Bol :: Rep CSpace 0 None :: Chr (CLit false a) :: r) ->
  forallb is_space ws = true ->
  is_space a = false -> is_space b = false -> a <> b ->
  search false pat (ws ++ b :: s) = None.
Proof.
  intros Hc Hws Ha Hb Hab. unfold search. rewrite Hc, search_bol.
  now apply exec_head_none.
Qed.

Lemma search_keyword_hit (pat kw ws sep R nl : pystr) :
  compile false pat
  = Some (Bol :: Rep CSpace 0 None :: literals false kw ++ phrase_tail) ->
  starts_clean kw -> kw <> [] ->
  forallb is_space ws = true ->
  forallb is_space sep = true -> sep <> [] ->
  forallb (fun c => negb (c =? 10)%N) R = true -> R <> [] ->
  (nl = [] \/ nl = [10%N]) ->
  exists G,
    search false pat (ws ++ kw ++ sep ++ R ++ nl) = Some (nl, Some G) /\
    strip (filter expr_char G) = strip (filter expr_char R) /\
    existsb operator_char (filter expr_char G)
    = existsb operator_char (filter expr_char R).
Proof.
  intros Hc Hkw Hkne Hws Hsep Hsne HR HRne Hnl.
  destruct (tail_exec (last_opt kw (last_opt ws None)) sep R nl) as (G & E & H1 & H2);
    auto.
  exists G. split; auto.
  unfold search. rewrite Hc, search_bol.
  now apply exec_head_some.
Qed.

Lemma search_what_is_hit (ws sp sep R nl : pystr) :
  forallb is_space ws = true ->
  forallb is_space sp = true -> sp <> [] ->
  forallb is_space sep = true -> sep <> [] ->
  forallb (fun c => negb (c =? 10)%N) R = true -> R <> [] ->
  (nl = [] \/ nl = [10%N]) ->
  exists G,
    search false (u "^\s*what\s+is\s+(.+)$")
           (ws ++ u "what" ++ sp ++ u "is" ++ sep ++ R ++ nl)
    = Some (nl, Some G) /\
    strip (filter expr_char G) = strip (filter expr_char R) /\
    existsb operator_char (filter expr_char G)
    = existsb operator_char (filter expr_char R).
Proof.
  intros Hws Hsp Hspne Hsep Hsne HR HRne Hnl.
  destruct (tail_exec (last_opt (u "is") (last_opt sp (last_opt (u "what") (last_opt ws None))))
              sep R nl) as (G & E & H1 & H2); auto.
  exists G. split; auto.
  unfold search.
  change (compile false (u "^\s*what\s+is\s+(.+)$"))
    with (Some (Bol :: Rep CSpace 0 None :: literals false (u "what")
                  ++ (Rep CSpace 1 None :: literals false (u "is") ++ phrase_tail))).
  cbv beta iota. rewrite search_bol.
  apply exec_head_some; auto; try discriminate; try reflexivity.
  cbn [exec]. apply rep_loop_greedy; auto.
  - reflexivity.
  - destruct sp; [congruence | simpl; lia].
Qed.

Lemma phrasal_hit (pat : pystr) (pats : list pystr) (msg nl G : pystr) :
  search false pat msg = Some (nl, Some G) ->
  phrasal_loop (pat :: pats) msg
  = if existsb operator_char (filter expr_char G)
    then Some (strip (filter expr_char G))
    else phrasal_loop pats msg.
Proof.
  intros E. cbn [phrasal_loop]. rewrite E. unfold group1. cbn [snd].
  now rewrite strip_non_expr, has_operator_spec, existsb_operator_strip.
Qed.

Lemma phrasal_miss (pat : pystr) (pats : list pystr) (msg : pystr) :
  search false pat msg = None ->
  phrasal_loop (pat :: pats) msg = phrasal_loop pats msg.
Proof. intros E. cbn [phrasal_loop]. now rewrite E. Qed.

(** A message with a character outside the expression alphabet is not a
    bare expression. *)
Lemma fullmatch_needs_expr_chars (msg : pystr) (x : N) :
  In x msg -> expr_char x = false ->
  fullmatch (u "[0-9+\-*/%.()\s]+") msg = None.
Proof.
  intros Hin Hx. unfold fullmatch.
  change (compile false (u "[0-9+\-*/%.()\s]+"))
    with (Some [Rep (CSet false [SRange 48 57; SChar 43; SChar 45; SChar 42;
                                 SChar 47; SChar 37; SChar 46; SChar 40;
                                 SChar 41; SSpace]) 1 None]).
  cbv beta iota. unfold re_fullmatch. cbn [app].
  match goal with |- ?e = None => destruct e as [[out g]|] eqn:E; auto end.
  exfalso. apply exec_sound in E.
  inversion E as [| | k lo hi r taken prev1 rest1 st1 out1 g1 Hall _ _ M1 | | | | | |]; subst.
  inversion M1; subst. rewrite app_nil_r in Hin.
  rewrite forallb_forall in Hall. specialize (Hall x Hin).
  assert (Hx' : char_match (CSet false [SRange 48 57; SChar 43; SChar 45; SChar 42;
                                        SChar 47; SChar 37; SChar 46; SChar 40;
                                        SChar 41; SSpace]) x = expr_char x).
  { unfold expr_char, is_digit09. simpl.
    destruct (in_range 48 57 x), (x =? 43)%N, (x =? 45)%N, (x =? 42)%N,
             (x =? 47)%N, (x =? 37)%N, (x =? 46)%N, (x =? 40)%N, (x =? 41)%N,
             (is_space x); reflexivity. }
  congruence.
Qed.

(** C4. When the lowercased message reads (whitespace,) "what is",
    "calculate" or "solve", whitespace, and a remainder R, the detector
    returns R reduced to digits, [+ - * / % .], parentheses and whitespace
    and then trimmed, if one of the operators [+ - * / %] is left in it,
    and nothing otherwise. *)
Theorem calculator_phrasal_query (user_msg_raw kw R : pystr) :
  phrasal_form (lower user_msg_raw) kw R ->
  _is_calculator_query user_msg_raw
  = if existsb operator_char (filter expr_char R)
    then Some (strip (filter expr_char R))
    else None.
Proof.
  intros (ws & sep & nl & E & Hws & Hkw & Hsne & Hsep & HRne & HR & Hnl).
  unfold _is_calculator_query. rewrite E. clear E.
  unfold phrasal.
  destruct Hkw as [sp Hspne Hsp | | ].
  - rewrite <- !app_assoc.
    set (rest := sp ++ u "is" ++ sep ++ R ++ nl).
    destruct (search_what_is_hit ws sp sep R nl) as (G & Hhit & H1 & H2); auto.
    fold rest in Hhit.
    rewrite (phrasal_hit _ _ _ nl G Hhit), H2, H1.
    destruct (existsb operator_char (filter expr_char R)); [reflexivity|].
    assert (M2 : search false (u "^\s*calculate\s+(.+)$") (ws ++ u "what" ++ rest) = None)
      by exact (search_miss (u "^\s*calculate\s+(.+)$") 99 _ ws 119 (u "hat" ++ rest)
                  eq_refl Hws eq_refl eq_refl ltac:(discriminate)).
    assert (M3 : search false (u "^\s*solve\s+(.+)$") (ws ++ u "what" ++ rest) = None)
      by exact (search_miss (u "^\s*solve\s+(.+)$") 115 _ ws 119 (u "hat" ++ rest)
                  eq_refl Hws eq_refl eq_refl ltac:(discriminate)).
    rewrite (phrasal_miss _ _ _ M2), (phrasal_miss _ _ _ M3). cbn [phrasal_loop].
    rewrite (fullmatch_needs_expr_chars _ 119); [reflexivity | | reflexivity].
    apply in_or_app. right. left. reflexivity.
  - set (rest := sep ++ R ++ nl).
    assert (M1 : search false (u "^\s*what\s+is\s+(.+)$") (ws ++ u "calculate" ++ rest) = None)
      by exact (search_miss (u "^\s*what\s+is\s+(.+)$") 119 _ ws 99 (u "alculate" ++ rest)
                  eq_refl Hws eq_refl eq_refl ltac:(discriminate)).
    destruct (search_keyword_hit (u "^\s*calculate\s+(.+)$") (u "calculate") ws sep R nl)
      as (G & Hhit & H1 & H2); auto; try reflexivity; try discriminate.
    fold rest in Hhit.
    rewrite (phrasal_miss _ _ _ M1), (phrasal_hit _ _ _ nl G Hhit), H2, H1.
    destruct (existsb operator_char (filter expr_char R)); [reflexivity|].
    assert (M3 : search false (u "^\s*solve\s+(.+)$") (ws ++ u "calculate" ++ rest) = None)
      by exact (search_miss (u "^\s*solve\s+(.+)$") 115 _ ws 99 (u "alculate" ++ rest)
                  eq_refl Hws eq_refl eq_refl ltac:(discriminate)).
    rewrite (phrasal_miss _ _ _ M3). cbn [phrasal_loop].
    rewrite (fullmatch_needs_expr_chars _ 99); [reflexivity | | reflexivity].
    apply in_or_app. right. left. reflexivity.
  - set (rest := sep ++ R ++ nl).
    assert (M1 : search false (u "^\s*what\s+is\s+(.+)$") (ws ++ u "solve" ++ rest) = None)
      by exact (search_miss (u "^\s*what\s+is\s+(.+)$") 119 _ ws 115 (u "olve" ++ rest)
                  eq_refl Hws eq_refl eq_refl ltac:(discriminate)).
    assert (M2 : search false (u "^\s*calculate\s+(.+)$") (ws ++ u "solve" ++ rest) = None)
      by exact (search_miss (u "^\s*calculate\s+(.+)$") 99 _ ws 115 (u "olve" ++ rest)
                  eq_refl Hws eq_refl eq_refl ltac:(discriminate)).
    destruct (search_keyword_hit (u "^\s*solve\s+(.+)$") (u "solve") ws sep R nl)
      as (G & Hhit & H1 & H2); auto; try reflexivity; try discriminate.
    fold rest in Hhit.
    rewrite (phrasal_miss _ _ _ M1), (phrasal_miss _ _ _ M2),
      (phrasal_hit _ _ _ nl G Hhit), H2, H1.
    destruct (existsb operator_char (filter expr_char R)); [reflexivity|].
    cbn [phrasal_loop].
    rewrite (fullmatch_needs_expr_chars _ 115); [reflexivity | | reflexivity].
    apply in_or_app. right. left. reflexivity.
Qed.

End WithUnicode.

Lemma calculator_phrasal_query_witness :
  @_is_calculator_query ascii_tables (u "what is 5+7") = Some (u "5+7") /\
  @_is_calculator_query ascii_tables (u "what is your name") = None.
Proof.
  split.
  - rewrite (@calculator_phrasal_query ascii_tables _ (u "what is") (u "5+7"));
      [reflexivity|].
    exists [], (u " "), []. repeat split; try reflexivity; try discriminate.
    + exact (kw_what_is (u " ") ltac:(discriminate) eq_refl).
    + now left.
  - rewrite (@calculator_phrasal_query ascii_tables _ (u "what is") (u "your name"));
      [reflexivity|].
    exists [], (u " "), []. repeat split; try reflexivity; try discriminate.
    + exact (kw_what_is (u " ") ltac:(discriminate) eq_refl).
    + now left.
Defined.

End CalcQueryFacts.

(* ================================================================= *)
(** * The calculator *)
(* ================================================================= *)

Module CalculatorFacts.
Import PyStr Regex Calculator.

(** ** Floats without a fractional part *)


Lemma is_integer_int_of_float (f : spec_float) :
  is_integer f = true -> denotes_integer f (int_of_float f).
Proof.
  destruct f as [s | s | | s m e];
    cbn [denotes_integer is_integer int_of_float]; try discriminate; auto.
  destruct e as [|k|k]; intros H.
  - destruct s; rewrite <- ?Pos2Z.opp_pos; ring.
  - destruct s; rewrite <- ?Pos2Z.opp_pos; ring.
  - apply Z.eqb_eq in H.
    assert (Hp : (0 < 2 ^ Z.pos k)%Z) by (apply Z.pow_pos_nonneg; lia).
    pose proof (Z.div_mod (Z.pos m) (2 ^ Z.pos k) ltac:(lia)) as E.
    rewrite H in E. destruct s; lia.
Qed.

Section WithRuntime.
Variable rt : runtime.
Context {U : UnicodeDB}.


Lemma evaluate_invalid_characters (s : pystr) :
  valid_characters (remove_spaces s) = false ->
  evaluate rt s = VStr (u "Invalid characters in expression").
Proof. intros H. unfold evaluate. now rewrite H. Qed.

(** [evaluate] never hands back a float that is a whole number. *)
Lemma evaluate_no_integral_float (s : pystr) (f : spec_float) :
  evaluate rt s = VFloat f -> is_integer f = false.
Proof.
  unfold evaluate.
  destruct (negb (valid_characters (remove_spaces s))); [discriminate|].
  destruct (py_eval rt (remove_spaces s)) as [v | e].
  - destruct v; try discriminate.
    destruct (is_integer f0) eqn:E; [discriminate|].
    intros H. now injection H as <-.
  - destruct e; discriminate.
Qed.


(** C5 at the inputs named by the claim and at two that break it: "10/0"
    gives the division message, a character outside the alphabet or a
    malformed expression gives an error string, but "()" comes back as an
    empty tuple and "..." as [Ellipsis]: neither a number nor a string. *)
Theorem evaluate_returns_tuple_and_ellipsis :
  evaluate rt (u "()") = VEmptyTuple /\
  evaluate rt (u "...") = VEllipsis /\
  evaluate rt (u "10/0") = VStr (u "Division by zero is not allowed") /\
  evaluate rt (u "2 + x") = VStr (u "Invalid characters in expression") /\
  evaluate rt (u "2 +* 3") = VStr (u "Invalid expression").
Proof. repeat split; reflexivity. Qed.

End WithRuntime.


End CalculatorFacts.

(* ================================================================= *)
(** * The dictionary step of [get_response] *)
(* ================================================================= *)

Module ResponseFacts.
Import PyStr Regex Dictionary Chatbot.

Section WithUnicode.
Context {U : UnicodeDB}.
Variable rnd : nat.
Variable later_steps : pystr -> option json.

(** Whatever goes wrong in [get_meaning], the caller gets a sentence, not
    an empty value. *)
Lemma get_meaning_failure (http_get_json : pystr -> option json) (word : pystr) :
  http_get_json (u "https://api.dictionaryapi.dev/api/v2/entries/en/" ++ word) = None ->
  get_meaning http_get_json word = JStr (u "Meaning not found.").
Proof. intros H. unfold get_meaning. now rewrite H. Qed.

(** Any message that reaches the dictionary step with a failing lookup is
    answered "Meaning not found.". *)
Lemma dictionary_step_failure (http_get_json : pystr -> option json)
    (user_msg word : pystr) :
  is_empty user_msg || is_empty (strip user_msg) = false ->
  is_empty (_normalize user_msg) = false ->
  intent_stage rnd user_msg = None ->
  _is_dictionary_query (_normalize user_msg) = Some word ->
  word <> [] ->
  http_get_json (u "https://api.dictionaryapi.dev/api/v2/entries/en/" ++ word) = None ->
  get_response http_get_json rnd later_steps user_msg
  = Some (JStr (u "Meaning not found.")).
Proof.
  intros H1 H2 H3 H4 H5 H6. unfold get_response.
  rewrite H1, H2, H3, H4. destruct word as [|c w]; [congruence|].
  now rewrite (get_meaning_failure _ _ H6).
Qed.

(** C1 on the code. "define umbrella" reaches the dictionary step with
    the term "umbrella". When the lookup fails (the request raises, or the
    answer has no entries) [get_meaning] returns the sentence
    "Meaning not found." and [get_response] passes it on; the apology is
    reached only when the service delivers an empty definition, and its
    text is not the one the claim quotes. *)
Theorem failed_lookup_reply :
  _is_dictionary_query (_normalize (u "define umbrella")) = Some (u "umbrella") /\
  get_response (fun _ => None) rnd later_steps (u "define umbrella")
  = Some (JStr (u "Meaning not found.")) /\
  get_response (fun _ => Some (JObj [(u "title", JStr (u "No Definitions Found"))]))
               rnd later_steps (u "define umbrella")
  = Some (JStr (u "Meaning not found.")) /\
  get_response (fun _ => Some empty_definition) rnd later_steps (u "define umbrella")
  = Some (JStr (u "Sorry, I couldnâ€™t find the meaning of 'umbrella'.")) /\
  u "Sorry, I couldnâ€™t find the meaning of 'umbrella'."
  <> u "Sorry, I couldn't find the meaning of 'umbrella'.".
Proof.
  repeat split; try reflexivity. discriminate.
Qed.

End WithUnicode.
End ResponseFacts.

(* ================================================================= *)
(** * More on the task store *)
(* ================================================================= *)

Module TodoStoreFacts.
Import PyStr PyStrFacts Todo TodoFacts.

Lemma strip_blank (w : pystr) : forallb is_space w = true -> strip w = [].
Proof.
  intros H. rewrite <- (app_nil_r w).
  change (w ++ []) with (w ++ [] ++ []).
  apply strip_unique; simpl; auto. exact I.
Qed.

(** The first task a reference matches, with what stands before it. *)
Lemma find_split (r : task_ref) (l : list task) (t : task) :
  find (id_matches r) l = Some t ->
  exists l1 l2, l = l1 ++ t :: l2 /\
                Forall (fun x => id_matches r x = false) l1 /\
                id_matches r t = true.
Proof.
  induction l as [|x l IH]; simpl; [discriminate|].
  destruct (id_matches r x) eqn:E.
  - intros H. injection H as ->. exists [], l. auto.
  - intros H. destruct (IH H) as (l1 & l2 & -> & H1 & H2).
    exists (x :: l1), l2. auto.
Qed.

Lemma find_none_all (r : task_ref) (l : list task) :
  find (id_matches r) l = None <-> Forall (fun x => id_matches r x = false) l.
Proof.
  induction l as [|x l IH]; simpl.
  - split; auto.
  - destruct (id_matches r x) eqn:E.
    + split; [discriminate|]. intros H. inversion H; congruence.
    + rewrite IH. split; intros H; [constructor; auto | now inversion H].
Qed.

Lemma set_done_first_none (r : task_ref) (l : list task) :
  Forall (fun x => id_matches r x = false) l -> set_done_first r l = None.
Proof.
  induction 1 as [|x l Hx _ IH]; simpl; auto. now rewrite Hx, IH.
Qed.

Section WithUnicode.
Context {U : UnicodeDB}.

(** X1. A title of nothing but whitespace is refused and nothing changes. *)
Theorem add_task_blank_title (now title : pystr) (s : store) :
  forallb is_space title = true ->
  add_task now title s = (u "Task cannot be empty", s).
Proof.
  intros H. unfold add_task. now rewrite (strip_blank _ H).
Qed.

(** X2. A title that equals a stored one up to letter case and surrounding
    whitespace is refused and nothing changes. *)
Theorem add_task_duplicate_title (now title : pystr) (s : store) (t : task) :
  In t (tasks s) ->
  strip title <> [] ->
  lower (Todo.title t) = lower (strip title) ->
  add_task now title s = (u "Task already exists", s).
Proof.
  intros Hin Hne Heq. unfold add_task.
  destruct (strip title) as [|c w] eqn:E; [congruence|]. cbn [is_empty].
  assert (Hex : existsb (fun t0 => pystr_eqb (lower (Todo.title t0)) (lower (c :: w)))
                        (tasks s) = true).
  { apply existsb_exists. exists t. split; auto. now apply pystr_eqb_eq. }
  now rewrite Hex.
Qed.

(** X3. A reference that matches no stored task: both operations answer
    "Task not found" and leave the store alone. *)
Theorem unknown_task_not_found (r : task_ref) (s : store) :
  Forall (fun t => id_matches r t = false) (tasks s) ->
  remove_task r s = (u "Task not found", s) /\
  mark_done r s = (u "Task not found", s).
Proof.
  intros H. unfold remove_task, mark_done.
  rewrite (proj2 (find_none_all r (tasks s)) H), (set_done_first_none r _ H). auto.
Qed.

(** A title is never a valid reference: the store compares ids only. *)
Lemma title_reference_not_found (name : pystr) (s : store) :
  remove_task (RefStr name) s = (u "Task not found", s) /\
  mark_done (RefStr name) s = (u "Task not found", s).
Proof.
  assert (H : Forall (fun t => id_matches (RefStr name) t = false) (tasks s))
    by (apply Forall_forall; intros t _; reflexivity).
  unfold remove_task, mark_done.
  rewrite (proj2 (find_none_all _ (tasks s)) H), (set_done_first_none _ _ H). auto.
Qed.

(** X4. A successful removal takes out exactly the first task with the id, names
    it in the message, and keeps the others in order. *)
Theorem remove_task_removes_one (r : task_ref) (s : store) (t : task) :
  find (id_matches r) (tasks s) = Some t ->
  exists l1 l2,
    tasks s = l1 ++ t :: l2 /\
    remove_task r s = (u "Removed task: " ++ title t, mkStore (l1 ++ l2) (Some (l1 ++ l2))) /\
    List.length (tasks (snd (remove_task r s))) + 1 = List.length (tasks s).
Proof.
  intros H. destruct (find_split r _ t H) as (l1 & l2 & E & H1 & H2).
  exists l1, l2. destruct s as [l f]. simpl in E. subst l.
  rewrite (remove_task_earliest r l1 t l2 f H1 H2). cbn [snd tasks].
  repeat split; auto. rewrite !length_app. simpl. lia.
Qed.

(** ** What [mark_done] changes *)

Lemma set_done_first_some (r : task_ref) (l : list task) (t' : task) (l' : list task) :
  set_done_first r l = Some (t', l') ->
  exists l1 t l2,
    l = l1 ++ t :: l2 /\
    Forall (fun x => id_matches r x = false) l1 /\
    id_matches r t = true /\
    t' = mkTask (id t) (title t) (u "done") (created_at t) /\
    l' = l1 ++ t' :: l2.
Proof.
  revert t' l'. induction l as [|x l IH]; intros t' l' H; simpl in H; [discriminate|].
  destruct (id_matches r x) eqn:E.
  - injection H as <- <-. exists [], x, l. auto.
  - destruct (set_done_first r l) as [[t0 l0]|] eqn:E0; [|discriminate].
    injection H as <- <-.
    destruct (IH _ _ eq_refl) as (l1 & t & l2 & -> & H1 & H2 & -> & ->).
    exists (x :: l1), t, l2. repeat split; auto.
Qed.

(** X5. Marking done twice is marking done once: same answer, same store. *)
Theorem mark_done_idempotent (r : task_ref) (s : store) :
  mark_done r (snd (mark_done r s)) = mark_done r s.
Proof.
  unfold mark_done at 2 3.
  destruct (set_done_first r (tasks s)) as [[t' l']|] eqn:E.
  - destruct (set_done_first_some r _ _ _ E) as (l1 & t & l2 & El & H1 & H2 & Et & El').
    cbn [snd]. unfold mark_done, _save_tasks. cbn [tasks file].
    assert (H2' : id_matches r t' = true).
    { subst t'. destruct r; simpl in *; auto. }
    rewrite El'. rewrite (set_done_first_skip r l1 t' l2 H1 H2').
    subst t'. reflexivity.
  - cbn [snd]. unfold mark_done. now rewrite E.
Qed.

Lemma mark_done_list (r : task_ref) (s : store) :
  tasks (snd (mark_done r s)) = tasks s \/
  exists l1 t l2,
    tasks s = l1 ++ t :: l2 /\
    tasks (snd (mark_done r s))
    = l1 ++ mkTask (id t) (title t) (u "done") (created_at t) :: l2.
Proof.
  unfold mark_done.
  destruct (set_done_first r (tasks s)) as [[t' l']|] eqn:E; cbn [snd tasks _save_tasks].
  - destruct (set_done_first_some r _ _ _ E) as (l1 & t & l2 & El & _ & _ & -> & ->).
    right. exists l1, t, l2. auto.
  - now left.
Qed.

(** X6. [mark_done] touches the status of one task only: the ids, the titles
    and the creation times stay as they are, in the same order, and a task
    that is new in the list has the status "done". *)
Theorem mark_done_keeps_the_rest (r : task_ref) (s : store) :
  let l' := tasks (snd (mark_done r s)) in
  map id l' = map id (tasks s) /\
  map title l' = map title (tasks s) /\
  map created_at l' = map created_at (tasks s) /\
  (forall t, In t l' -> In t (tasks s) \/ status t = u "done").
Proof.
  cbv zeta. destruct (mark_done_list r s) as [-> | (l1 & t & l2 & El & ->)].
  - repeat split; auto.
  - rewrite El, !map_app. cbn [map id title created_at].
    repeat split; auto.
    intros x Hx. apply in_app_or in Hx as [Hx | [<- | Hx]].
    + left. apply in_or_app. auto.
    + right. reflexivity.
    + left. apply in_or_app. right. now right.
Qed.

(** ** Invariants over sequences of operations *)

Lemma reloads_save (s : store) : reloads (_save_tasks s).
Proof. reflexivity. Qed.

Lemma reloads_load (f : option (list task)) : reloads (load f).
Proof. destruct f; reflexivity. Qed.

Lemma step_reloads (s : store) (c : command) : reloads s -> reloads (step s c).
Proof.
  intros H. destruct c as [now title | r | r]; cbn [step].
  - unfold add_task. destruct (is_empty (strip title)); auto.
    destruct (existsb _ (tasks s)); auto. apply reloads_save.
  - unfold remove_task. destruct (find _ (tasks s)); auto. apply reloads_save.
  - unfold mark_done. destruct (set_done_first r (tasks s)) as [[t l]|]; auto.
    apply reloads_save.
Qed.

(** X7. Whatever the file held at start-up and whatever operations followed,
    starting the module again on the file gives the same state: nothing
    is lost between the list in memory and the file. *)
Theorem run_reloads (f : option (list task)) (cs : list command) :
  reloads (run cs (load f)).
Proof.
  unfold run. generalize (reloads_load f). generalize (load f).
  induction cs as [|c cs IH]; intros s H; cbn [fold_left]; auto.
  apply IH. now apply step_reloads.
Qed.

Lemma NoDup_snoc {A : Type} (l : list A) (x : A) :
  NoDup l -> ~ In x l -> NoDup (l ++ [x]).
Proof.
  induction 1 as [|y l Hy Hl IH]; intros Hx; simpl.
  - constructor; auto. constructor.
  - constructor.
    + intros Hin. apply in_app_or in Hin as [Hin | [<- | []]]; auto.
      apply Hx. now left.
    + apply IH. intros Hin. apply Hx. now right.
Qed.

Lemma step_unique_titles (s : store) (c : command) :
  unique_titles (tasks s) -> unique_titles (tasks (step s c)).
Proof.
  unfold unique_titles. intros H. destruct c as [now title0 | r | r]; cbn [step].
  - unfold add_task. destruct (is_empty (strip title0)); auto.
    destruct (existsb _ (tasks s)) eqn:E; auto.
    cbn [snd _save_tasks tasks]. rewrite map_app. cbn [map title].
    apply NoDup_snoc; auto.
    intros Hin. apply in_map_iff in Hin as (t & Ht & Hin).
    assert (Hex : existsb (fun t0 => pystr_eqb (lower (title t0)) (lower (strip title0)))
                          (tasks s) = true).
    { apply existsb_exists. exists t. split; auto. now apply pystr_eqb_eq. }
    congruence.
  - unfold remove_task. destruct (find _ (tasks s)) as [t|] eqn:E; auto.
    destruct (find_split r _ t E) as (l1 & l2 & El & H1 & H2).
    cbn [snd _save_tasks tasks]. rewrite El, (list_remove_skip r l1 t l2 H1 H2).
    rewrite El, map_app in H. cbn [map] in H. apply NoDup_remove_1 in H.
    now rewrite map_app.
  - destruct (mark_done_list r s) as [-> | (l1 & t & l2 & El & ->)]; [exact H|].
    rewrite El in H. rewrite map_app in *. exact H.
Qed.

(** X8. No operation brings in a second task with the same title, letter case
    aside. *)
Theorem run_unique_titles (cs : list command) (s : store) :
  unique_titles (tasks s) -> unique_titles (tasks (run cs s)).
Proof.
  unfold run. revert s.
  induction cs as [|c cs IH]; intros s H; cbn [fold_left]; auto.
  apply IH. now apply step_unique_titles.
Qed.

Lemma step_known_status (s : store) (c : command) :
  Forall known_status (tasks s) -> Forall known_status (tasks (step s c)).
Proof.
  intros H. destruct c as [now title0 | r | r]; cbn [step].
  - unfold add_task. destruct (is_empty (strip title0)); auto.
    destruct (existsb _ (tasks s)); auto.
    cbn [snd _save_tasks tasks]. apply Forall_app. split; auto.
    constructor; [now left | constructor].
  - unfold remove_task. destruct (find _ (tasks s)) as [t|] eqn:E; auto.
    destruct (find_split r _ t E) as (l1 & l2 & El & H1 & H2).
    cbn [snd _save_tasks tasks]. rewrite El, (list_remove_skip r l1 t l2 H1 H2).
    rewrite El in H. apply Forall_app in H as [Ha Hb]. inversion Hb; subst.
    apply Forall_app. auto.
  - destruct (mark_done_list r s) as [-> | (l1 & t & l2 & El & ->)]; [exact H|].
    rewrite El in H. apply Forall_app in H as [Ha Hb]. inversion Hb; subst.
    apply Forall_app. split; [exact Ha|]. constructor; [now right | assumption].
Qed.

(** X9. Operations only ever write the statuses "pending" and "done". *)
Theorem run_known_status (cs : list command) (s : store) :
  Forall known_status (tasks s) -> Forall known_status (tasks (run cs s)).
Proof.
  unfold run. revert s.
  induction cs as [|c cs IH]; intros s H; cbn [fold_left]; auto.
  apply IH. now apply step_known_status.
Qed.

End WithUnicode.

(** ** Listing by status *)

(** With a filter other than "pending" and "done" the listing is empty. *)
Lemma get_tasks_unknown_filter (w : pystr) (s : store) :
  w <> u "pending" -> w <> u "done" -> get_tasks (Some w) s = [].
Proof.
  intros H1 H2. unfold get_tasks.
  destruct (pystr_eqb w (u "pending")) eqn:E1; [apply pystr_eqb_eq in E1; congruence|].
  destruct (pystr_eqb w (u "done")) eqn:E2; [apply pystr_eqb_eq in E2; congruence|].
  reflexivity.
Qed.

(** X10. When every status is "pending" or "done", the two filtered listings
    split the full one. *)
Theorem get_tasks_partition (s : store) :
  Forall known_status (tasks s) ->
  List.length (get_tasks (Some (u "pending")) s)
  + List.length (get_tasks (Some (u "done")) s)
  = List.length (get_tasks None s).
Proof.
  unfold get_tasks.
  change (pystr_eqb (u "pending") (u "pending") || pystr_eqb (u "pending") (u "done"))
    with true.
  change (pystr_eqb (u "done") (u "pending") || pystr_eqb (u "done") (u "done"))
    with true.
  cbv iota. induction 1 as [|t l Ht Hl IH]; [reflexivity|].
  cbn [filter List.length].
  destruct Ht as [Ht | Ht]; rewrite Ht.
  - change (pystr_eqb (u "pending") (u "pending")) with true.
    change (pystr_eqb (u "pending") (u "done")) with false.
    cbn [List.length]. lia.
  - change (pystr_eqb (u "done") (u "pending")) with false.
    change (pystr_eqb (u "done") (u "done")) with true.
    cbn [List.length]. lia.
Qed.

Lemma run_unique_titles_witness :
  @unique_titles ascii_tables
    (tasks (@run ascii_tables
              [CmdAdd (u "t1") (u "Buy milk"); CmdAdd (u "t2") (u "buy MILK ");
               CmdDone (RefInt 1); CmdAdd (u "t3") (u "Call Bob")]
              empty_store)).
Proof.
  apply (@run_unique_titles ascii_tables). constructor.
Defined.

Lemma run_known_status_witness :
  Forall known_status
    (tasks (@run ascii_tables
              [CmdAdd (u "t1") (u "Buy milk"); CmdDone (RefInt 1);
               CmdAdd (u "t3") (u "Call Bob"); CmdRemove (RefInt 1)]
              empty_store)).
Proof.
  exact (@run_known_status ascii_tables
           [CmdAdd (u "t1") (u "Buy milk"); CmdDone (RefInt 1);
            CmdAdd (u "t3") (u "Call Bob"); CmdRemove (RefInt 1)]
           empty_store (Forall_nil known_status)).
Defined.

Lemma get_tasks_partition_witness :
  List.length (get_tasks (Some (u "pending"))
                 (mkStore [mkTask 1 (u "a") (u "done") []; mkTask 2 (u "b") (u "pending") []] None))
  + List.length (get_tasks (Some (u "done"))
                 (mkStore [mkTask 1 (u "a") (u "done") []; mkTask 2 (u "b") (u "pending") []] None))
  = 2.
Proof.
  apply (get_tasks_partition
           (mkStore [mkTask 1 (u "a") (u "done") []; mkTask 2 (u "b") (u "pending") []] None)).
  apply Forall_cons; [now right|]. apply Forall_cons; [now left|]. apply Forall_nil.
Defined.

Lemma add_task_blank_title_witness :
  @add_task ascii_tables (u "t") (u "   ") empty_store = (u "Task cannot be empty", empty_store).
Proof. apply (@add_task_blank_title ascii_tables). reflexivity. Defined.

Lemma add_task_duplicate_title_witness :
  @add_task ascii_tables (u "t") (u " BUY milk ")
            (mkStore [mkTask 1 (u "Buy Milk") (u "pending") []] None)
  = (u "Task already exists", mkStore [mkTask 1 (u "Buy Milk") (u "pending") []] None).
Proof.
  apply (@add_task_duplicate_title ascii_tables (u "t") (u " BUY milk ") _
           (mkTask 1 (u "Buy Milk") (u "pending") [])).
  - now left.
  - discriminate.
  - reflexivity.
Defined.

Lemma unknown_task_not_found_witness :
  remove_task (RefInt 5) (mkStore [mkTask 1 (u "a") (u "done") []] None)
  = (u "Task not found", mkStore [mkTask 1 (u "a") (u "done") []] None) /\
  mark_done (RefInt 5) (mkStore [mkTask 1 (u "a") (u "done") []] None)
  = (u "Task not found", mkStore [mkTask 1 (u "a") (u "done") []] None).
Proof.
  apply (unknown_task_not_found (RefInt 5)). apply Forall_cons; [reflexivity | apply Forall_nil].
Defined.

Lemma remove_task_removes_one_witness :
  exists l1 l2,
    [mkTask 1 (u "a") (u "done") []; mkTask 2 (u "b") (u "pending") []]
    = l1 ++ mkTask 2 (u "b") (u "pending") [] :: l2 /\
    remove_task (RefInt 2)
      (mkStore [mkTask 1 (u "a") (u "done") []; mkTask 2 (u "b") (u "pending") []] None)
    = (u "Removed task: " ++ u "b", mkStore (l1 ++ l2) (Some (l1 ++ l2))) /\
    List.length (tasks (snd (remove_task (RefInt 2)
      (mkStore [mkTask 1 (u "a") (u "done") []; mkTask 2 (u "b") (u "pending") []] None)))) + 1
    = 2.
Proof.
  apply (remove_task_removes_one (RefInt 2)
           (mkStore [mkTask 1 (u "a") (u "done") []; mkTask 2 (u "b") (u "pending") []] None)
           (mkTask 2 (u "b") (u "pending") [])).
  reflexivity.
Defined.

End TodoStoreFacts.

(* ================================================================= *)
(** * More on the calculator *)
(* ================================================================= *)

Module CalculatorMore.
Import PyStr PyStrFacts Regex RegexFacts Calculator CalculatorFacts.

Lemma forallb_same {A : Type} (f g : A -> bool) (l : list A) :
  (forall x, f x = g x) -> forallb f l = forallb g l.
Proof.
  intros H. induction l as [|x l IH]; simpl; auto. now rewrite H, IH.
Qed.

Lemma digit_cases (c : N) :
  is_digit09 c = true ->
  (c = 48 \/ c = 49 \/ c = 50 \/ c = 51 \/ c = 52 \/
   c = 53 \/ c = 54 \/ c = 55 \/ c = 56 \/ c = 57)%N.
Proof. intros H. bools. lia. Qed.

Lemma digit_allowed (c : N) : is_digit09 c = true -> allowed_char c = true.
Proof. intros H. unfold allowed_char. now rewrite H. Qed.

Lemma allowed_not_space (c : N) : allowed_char c = true -> (c =? 32)%N = false.
Proof.
  intros H. destruct (c =? 32)%N eqn:E; auto.
  apply N.eqb_eq in E. subst c. discriminate.
Qed.

Lemma remove_spaces_allowed (s : pystr) :
  forallb allowed_char s = true -> remove_spaces s = s.
Proof.
  induction s as [|c s IH]; simpl; auto. intros H.
  apply andb_true_iff in H as [Hc Hs].
  rewrite (allowed_not_space c Hc). simpl. f_equal. auto.
Qed.

(** ** Tokens of plain numbers *)

Lemma take_digits_app (a rest : pystr) :
  forallb is_digit09 a = true ->
  match rest with c :: _ => is_digit09 c = false | [] => True end ->
  take_digits (a ++ rest) = (a, rest).
Proof.
  intros Ha Hr. induction a as [|c a IH]; cbn [app take_digits].
  - destruct rest as [|x rest]; auto. cbn [take_digits]. now rewrite Hr.
  - cbn [forallb] in Ha. apply andb_true_iff in Ha as [Hc Ha]. now rewrite Hc, IH.
Qed.

Lemma int_literal_plain (a : pystr) :
  plain_number a = true -> int_literal a = Some (VInt (digits_value a)).
Proof.
  unfold plain_number, int_literal. intros H.
  apply andb_true_iff in H as [_ H].
  destruct a as [|c [|x a]]; auto.
  apply negb_true_iff in H. now rewrite H.
Qed.

Lemma plain_number_digits (a : pystr) :
  plain_number a = true -> forallb is_digit09 a = true /\ a <> [].
Proof.
  unfold plain_number. intros H. apply andb_true_iff in H as [H1 H2].
  split; auto. intros ->. discriminate.
Qed.

Lemma tokenize_nil (fuel : nat) : tokenize fuel [] = Some [].
Proof. destruct fuel; reflexivity. Qed.

(** A plain number in front of an operator or at the end is one token. *)
Lemma tokenize_number (fuel : nat) (a : pystr) (o : N) (rest : pystr) :
  plain_number a = true ->
  is_digit09 o = false -> o <> 46%N ->
  tokenize (S fuel) (a ++ o :: rest)
  = option_map (cons (TNum (VInt (digits_value a)))) (tokenize fuel (o :: rest)).
Proof.
  intros Ha Ho Hdot. destruct (plain_number_digits a Ha) as [Hd Hne].
  destruct a as [|c a]; [congruence|].
  assert (Hc : is_digit09 c = true) by (simpl in Hd; now apply andb_true_iff in Hd).
  change ((c :: a) ++ o :: rest) with (c :: (a ++ o :: rest)).
  cbn [tokenize]. rewrite Hc.
  change (c :: (a ++ o :: rest)) with ((c :: a) ++ o :: rest).
  rewrite (take_digits_app (c :: a) (o :: rest) Hd Ho).
  rewrite (int_literal_plain (c :: a) Ha).
  destruct o as [|p]; [reflexivity|].
  repeat (destruct p as [p|p|]; try reflexivity). congruence.
Qed.

Lemma tokenize_last_number (fuel : nat) (b : pystr) :
  plain_number b = true ->
  tokenize (S fuel) b = Some [TNum (VInt (digits_value b))].
Proof.
  intros Hb. destruct (plain_number_digits b Hb) as [Hd Hne].
  destruct b as [|c b]; [congruence|].
  assert (Hc : is_digit09 c = true) by (simpl in Hd; now apply andb_true_iff in Hd).
  cbn [tokenize]. rewrite Hc.
  rewrite <- (app_nil_r (c :: b)) at 1.
  rewrite (take_digits_app (c :: b) [] Hd I).
  rewrite (int_literal_plain (c :: b) Hb).
  now rewrite tokenize_nil.
Qed.

Lemma tokenize_operator (fuel : nat) (op : binop) (c : N) (rest : pystr) :
  is_digit09 c = true ->
  tokenize (S fuel) (op_text op ++ c :: rest)
  = option_map (cons (op_token op)) (tokenize fuel (c :: rest)).
Proof.
  intros Hc.
  destruct op; try reflexivity;
    destruct (digit_cases c Hc) as [->|[->|[->|[->|[->|[->|[->|[->|[->| ->]]]]]]]]];
    reflexivity.
Qed.

Section WithRuntime.
Variable rt : runtime.
Context {U : UnicodeDB}.

Lemma allowed_class (c : N) :
  char_match (CSet false [SRange 48 57; SChar 43; SChar 45; SChar 42; SChar 47;
                          SChar 37; SChar 46; SChar 40; SChar 41]) c
  = allowed_char c.
Proof.
  unfold allowed_char, is_digit09. simpl.
  destruct (in_range 48 57 c), (c =? 43)%N, (c =? 45)%N, (c =? 42)%N,
           (c =? 47)%N, (c =? 37)%N, (c =? 46)%N, (c =? 40)%N, (c =? 41)%N;
    reflexivity.
Qed.

(** A full match of [k+] is a non-empty string of characters of [k]. *)
Lemma fullmatch_rep1 (k : charset) (s : pystr) :
  match re_fullmatch [Rep k 1 None] s with Some _ => true | None => false end
  = negb (is_empty s) && forallb (char_match k) s.
Proof.
  unfold re_fullmatch. cbn [app].
  destruct (exec [Rep k 1 None; Eos] None s no_capture) as [[out g]|] eqn:E.
  - apply exec_sound in E.
    inversion E as [| | k0 lo hi r taken prev1 rest1 st1 out1 g1 Hall Hlen _ M1 | | | | | |];
      subst.
    inversion M1; subst. rewrite app_nil_r, Hall.
    destruct taken; [simpl in Hlen; lia | reflexivity].
  - destruct s as [|c s]; [reflexivity|]. cbn [is_empty negb andb].
    destruct (forallb (char_match k) (c :: s)) eqn:F; [|reflexivity].
    exfalso. refine (exec_none _ _ _ _ E [] None _).
    rewrite <- (app_nil_r (c :: s)). apply M_rep.
    + exact F.
    + simpl. lia.
    + exact I.
    + apply M_eos. exact (M_nil _ [] no_capture).
Qed.

(** The check [re.fullmatch(r"[0-9+\-*/%.()]+", expr)] passes exactly the
    non-empty strings over the alphabet. *)
Lemma valid_characters_spec (s : pystr) :
  valid_characters s = negb (is_empty s) && forallb allowed_char s.
Proof.
  unfold valid_characters.
  change (compile false (u "[0-9+\-*/%.()]+"))
    with (Some [Rep (CSet false [SRange 48 57; SChar 43; SChar 45; SChar 42;
                                 SChar 47; SChar 37; SChar 46; SChar 40;
                                 SChar 41]) 1 None]).
  cbv beta iota. rewrite fullmatch_rep1.
  now rewrite (forallb_same _ _ s allowed_class).
Qed.

Lemma evaluate_returned (s : pystr) :
  valid_characters (remove_spaces s) = true ->
  evaluate rt s = returned (py_eval rt (remove_spaces s)).
Proof. intros H. unfold evaluate. now rewrite H. Qed.

(** X11. A string that is empty once its spaces are gone, or that holds a
    character other than a space, a digit, [+ - * / % .] or a parenthesis
    (a letter, a tab, a newline), is refused before [eval] sees it. *)
Theorem foreign_characters_refused (s : pystr) :
  remove_spaces s = [] \/
  (exists c, In c s /\ c <> 32%N /\ allowed_char c = false) ->
  evaluate rt s = VStr (u "Invalid characters in expression").
Proof.
  intros H. apply evaluate_invalid_characters. rewrite valid_characters_spec.
  destruct H as [-> | (c & Hin & Hc & Ha)]; [reflexivity|].
  apply andb_false_iff. right.
  apply not_true_is_false. intros F. rewrite forallb_forall in F.
  assert (Hin' : In c (remove_spaces s)).
  { apply filter_In. split; auto. apply negb_true_iff. now apply N.eqb_neq. }
  specialize (F c Hin'). congruence.
Qed.

(** Spaces are taken out before anything else, wherever they stand: even
    between two digits. *)
Lemma spaces_ignored (a b : pystr) :
  evaluate rt (a ++ 32%N :: b) = evaluate rt (a ++ b).
Proof.
  unfold evaluate, remove_spaces. now rewrite !filter_app.
Qed.

Lemma binary_text (a b : pystr) (op : binop) :
  plain_number a = true -> plain_number b = true ->
  remove_spaces (a ++ op_text op ++ b) = a ++ op_text op ++ b /\
  valid_characters (a ++ op_text op ++ b) = true.
Proof.
  intros Ha Hb.
  destruct (plain_number_digits a Ha) as [Hda Hnea].
  destruct (plain_number_digits b Hb) as [Hdb Hneb].
  assert (Hop : forallb allowed_char (op_text op) = true) by (destruct op; reflexivity).
  assert (Hall : forallb allowed_char (a ++ op_text op ++ b) = true).
  { assert (Hd : forall l, forallb is_digit09 l = true ->
                            forallb allowed_char l = true).
    { intros l Hl. apply forallb_forall. intros x Hx. apply digit_allowed.
      rewrite forallb_forall in Hl. auto. }
    rewrite !forallb_app, Hop, (Hd a Hda), (Hd b Hdb). reflexivity. }
  split; [now apply remove_spaces_allowed|].
  rewrite valid_characters_spec, Hall. destruct a; [congruence | reflexivity].
Qed.

(** What [eval] makes of two numbers and an operator. *)
Lemma py_eval_binary (a b : pystr) (op : binop) :
  plain_number a = true -> plain_number b = true ->
  py_eval rt (a ++ op_text op ++ b)
  = int_binop rt op (digits_value a) (digits_value b).
Proof.
  intros Ha Hb.
  destruct (plain_number_digits a Ha) as [Hda Hnea].
  destruct (plain_number_digits b Hb) as [Hdb Hneb].
  unfold py_eval.
  destruct b as [|cb b']; [congruence|].
  assert (Hcb : is_digit09 cb = true)
    by (cbn [forallb] in Hdb; now apply andb_true_iff in Hdb).
  assert (Hlen : exists f, List.length (a ++ op_text op ++ cb :: b') = S (S (S f))).
  { destruct a as [|ca a']; [congruence|]. rewrite !length_app.
    destruct op; simpl; eexists; f_equal; f_equal;
      rewrite ?Nat.add_succ_r; reflexivity. }
  destruct Hlen as [f ->].
  assert (Htok : tokenize (S (S (S f))) (a ++ op_text op ++ cb :: b')
                 = Some [TNum (VInt (digits_value a)); op_token op;
                         TNum (VInt (digits_value (cb :: b')))]).
  { assert (Hhead : exists o rest, op_text op ++ cb :: b' = o :: rest /\
                                   is_digit09 o = false /\ o <> 46%N).
    { destruct op; eexists; eexists; (split; [reflexivity|]); split;
        (reflexivity || discriminate). }
    destruct Hhead as (o & rest & Eo & Ho1 & Ho2). rewrite Eo.
    rewrite (tokenize_number (S (S f)) a o rest Ha Ho1 Ho2). rewrite <- Eo.
    rewrite (tokenize_operator (S f) op cb b' Hcb).
    rewrite (tokenize_last_number f (cb :: b') Hb). reflexivity. }
  rewrite Htok.
  destruct op; reflexivity.
Qed.

(** X12. Two plainly written whole numbers and one operator between them: the
    result is Python's integer arithmetic on their values (exact sum,
    difference, product and power, floor quotient and remainder, nearest
    float for [/]), and the division message when the right number is 0
    under [/], [//] or [%].  The numbers are kept under the interpreter's
    limit on the digits of an integer literal (4300 by default), which the
    tokenizer here does not model. *)
Theorem integer_binary_expression (a b : pystr) (op : binop) :
  plain_number a = true -> plain_number b = true ->
  (List.length a <= 4300)%nat -> (List.length b <= 4300)%nat ->
  evaluate rt (a ++ op_text op ++ b)
  = returned (int_binop rt op (digits_value a) (digits_value b)).
Proof.
  intros Ha Hb _ _. destruct (binary_text a b op Ha Hb) as [Hrs Hv].
  rewrite evaluate_returned; rewrite Hrs; [|exact Hv].
  now rewrite (py_eval_binary a b op Ha Hb).
Qed.

End WithRuntime.

Lemma foreign_characters_refused_witness :
  @evaluate bare_runtime ascii_tables (u "2 + x")
  = VStr (u "Invalid characters in expression").
Proof.
  apply (@foreign_characters_refused bare_runtime ascii_tables).
  right. exists 120%N. repeat split.
  - do 4 right. now left.
  - discriminate.
Defined.

Lemma integer_binary_expression_witness :
  @evaluate bare_runtime ascii_tables (u "17//5") = VInt 3 /\
  @evaluate bare_runtime ascii_tables (u "17%0")
  = VStr (u "Division by zero is not allowed").
Proof.
  split.
  - apply (@integer_binary_expression bare_runtime ascii_tables (u "17") (u "5") FloorDiv);
      try reflexivity; simpl; lia.
  - apply (@integer_binary_expression bare_runtime ascii_tables (u "17") (u "0") Mod);
      try reflexivity; simpl; lia.
Defined.

End CalculatorMore.

(* ================================================================= *)
(** * More on the dictionary lookup *)
(* ================================================================= *)

Module DictionaryFacts.
Import PyStr Dictionary.

(** X13. The sentence "Meaning not found." is what every failure gives, and it
    counts as true. So [get_meaning] hands its caller a false value only
    when the service answered with a complete entry (first entry, first
    meaning, first definition, key "definition") whose value is itself
    false: an empty string, [null], [0], an empty list. That is the one
    case in which [get_response] apologises. *)
Theorem falsy_meaning_is_delivered (http_get_json : pystr -> option json)
    (word : pystr) :
  truthy (get_meaning http_get_json word) = false ->
  exists res r0 ms m0 ds d0 v,
    http_get_json (u "https://api.dictionaryapi.dev/api/v2/entries/en/" ++ word)
    = Some res /\
    index0 res = Some r0 /\
    getitem (u "meanings") r0 = Some ms /\
    index0 ms = Some m0 /\
    getitem (u "definitions") m0 = Some ds /\
    index0 ds = Some d0 /\
    getitem (u "definition") d0 = Some v /\
    get_meaning http_get_json word = v /\
    truthy v = false.
Proof.
  unfold get_meaning.
  destruct (http_get_json _) as [res|]; cbn [bind]; [|discriminate].
  destruct (index0 res) as [r0|] eqn:E1; cbn [bind]; [|discriminate].
  destruct (getitem (u "meanings") r0) as [ms|] eqn:E2; cbn [bind]; [|discriminate].
  destruct (index0 ms) as [m0|] eqn:E3; cbn [bind]; [|discriminate].
  destruct (getitem (u "definitions") m0) as [ds|] eqn:E4; cbn [bind]; [|discriminate].
  destruct (index0 ds) as [d0|] eqn:E5; cbn [bind]; [|discriminate].
  destruct (getitem (u "definition") d0) as [v|] eqn:E6; [|discriminate].
  intros H. exists res, r0, ms, m0, ds, d0, v. repeat split; auto.
Qed.

Lemma falsy_meaning_is_delivered_witness :
  exists res r0 ms m0 ds d0 v,
    Some empty_definition = Some res /\
    index0 res = Some r0 /\
    getitem (u "meanings") r0 = Some ms /\
    index0 ms = Some m0 /\
    getitem (u "definitions") m0 = Some ds /\
    index0 ds = Some d0 /\
    getitem (u "definition") d0 = Some v /\
    get_meaning (fun _ => Some empty_definition) (u "umbrella") = v /\
    truthy v = false.
Proof.
  apply (falsy_meaning_is_delivered (fun _ => Some empty_definition) (u "umbrella")).
  reflexivity.
Defined.

End DictionaryFacts.

(* ================================================================= *)
(** * More on the detectors of [chatbot.py] *)
(* ================================================================= *)

Module DetectorFacts.
Import PyStr PyStrFacts Regex RegexFacts Chatbot NormalizeFacts CalcQueryFacts
       CalculatorMore.

Section WithUnicode.
Context {U : UnicodeDB}.

(** ** [_normalize] *)

(** X14. The normalised message holds nothing but [a-z], [0-9] and whitespace,
    and no whitespace at either end. *)
Theorem normalize_shape (s : pystr) :
  forallb normal_char (_normalize s) = true /\
  starts_clean (_normalize s) /\ ends_clean (_normalize s).
Proof.
  split; [apply normalize_chars|].
  rewrite normalize_filter.
  destruct (strip_spec (filter normal_char (lower s))) as (a & b & _ & _ & _ & H1 & H2).
  auto.
Qed.

(** ** [_is_todo_query] *)

Lemma exec_plain_prefix (kw : pystr) (r : regex) :
  forall prev s st,
    exec (literals false kw ++ r) prev s st
    = if startswith kw s
      then exec r (last_opt kw prev) (skipn (List.length kw) s) st
      else None.
Proof.
  induction kw as [|a kw IH]; intros prev s st; [reflexivity|].
  cbn [literals map app exec startswith]. destruct s as [|c s]; [reflexivity|].
  cbn [char_match]. rewrite (N.eqb_sym c a).
  destruct (a =? c)%N eqn:E; cbn [andb]; [|reflexivity].
  apply N.eqb_eq in E. subst c.
  change (map (fun c => Chr (CLit false c)) kw) with (literals false kw).
  rewrite IH. reflexivity.
Qed.

Lemma exec_optional_last (k : charset) (hi : option nat) prev s st :
  matched (exec [Rep k 0 hi] prev s st) = true.
Proof.
  destruct (exec_complete [Rep k 0 hi] prev s st s (snd st)) as [res ->]; [|reflexivity].
  change s with ([] ++ s) at 1. apply M_rep.
  - reflexivity.
  - simpl. lia.
  - destruct hi; simpl; lia.
  - apply M_nil.
Qed.

Lemma show_tasks_match (s : pystr) :
  matched (match_start (u "show tasks?") s) = startswith (u "show task") s.
Proof.
  unfold match_start.
  change (compile false (u "show tasks?"))
    with (Some (literals false (u "show task") ++ [Rep (CLit false 115) 0 (Some 1)])).
  cbv beta iota. unfold re_match. rewrite exec_plain_prefix.
  destruct (startswith (u "show task") s); [|reflexivity].
  apply exec_optional_last.
Qed.

Lemma startswith_head (a b : N) (p q s : pystr) :
  a <> b -> startswith (a :: p) s = true -> startswith (b :: q) s = false.
Proof.
  intros Hab H. destruct s as [|c s]; [discriminate|].
  cbn [startswith] in *. apply andb_true_iff in H as [H _].
  apply N.eqb_eq in H. subst c.
  destruct (b =? a)%N eqn:E; [|reflexivity].
  apply N.eqb_eq in E. congruence.
Qed.

(** X15. The listing is asked for by any message that, trimmed and lowercased,
    begins with "show task", whatever follows ("show tasks", "show task
    list", "show taskmaster"), and by no other. *)
Theorem show_tasks_prefix (user_msg : pystr) :
  _is_todo_query user_msg = Some (u "show", ArgNone)
  <-> startswith (u "show task") (lower (strip user_msg)) = true.
Proof.
  unfold _is_todo_query. cbv zeta. rewrite show_tasks_match.
  set (m := lower (strip user_msg)).
  destruct (startswith (u "add task ") m) eqn:Ea.
  - split; [discriminate|]. intros H.
    assert (F : startswith (u "show task") m = false).
    { apply (startswith_head 97 115 (u "dd task ") (u "how task") m);
        [discriminate | exact Ea]. }
    congruence.
  - destruct (startswith (u "show task") m) eqn:Es; [tauto|].
    split; [|discriminate].
    destruct (startswith (u "remove task ") m).
    + destruct (negb _); discriminate.
    + destruct (startswith (u "mark done ") m); [|discriminate].
      destruct (match_start _ m) as [mt|]; [|discriminate].
      destruct (py_int (group1 mt)); discriminate.
Qed.

(** ** [_is_calculator_query] *)

Lemma expr_class (c : N) :
  char_match (CSet false [SRange 48 57; SChar 43; SChar 45; SChar 42; SChar 47;
                          SChar 37; SChar 46; SChar 40; SChar 41; SSpace]) c
  = expr_char c.
Proof.
  unfold expr_char, is_digit09. simpl.
  destruct (in_range 48 57 c), (c =? 43)%N, (c =? 45)%N, (c =? 42)%N,
           (c =? 47)%N, (c =? 37)%N, (c =? 46)%N, (c =? 40)%N, (c =? 41)%N,
           (is_space c);
    reflexivity.
Qed.

(** The second form: the whole message is an expression. *)
Lemma whole_message_check (msg : pystr) :
  matched (fullmatch (u "[0-9+\-*/%.()\s]+") msg)
  = negb (is_empty msg) && forallb expr_char msg.
Proof.
  unfold fullmatch.
  change (compile false (u "[0-9+\-*/%.()\s]+"))
    with (Some [Rep (CSet false [SRange 48 57; SChar 43; SChar 45; SChar 42;
                                 SChar 47; SChar 37; SChar 46; SChar 40;
                                 SChar 41; SSpace]) 1 None]).
  cbv beta iota. unfold matched. rewrite fullmatch_rep1.
  now rewrite (forallb_same _ _ msg expr_class).
Qed.

Lemma forallb_filter_same {A : Type} (f : A -> bool) (l : list A) :
  forallb f (filter f l) = true.
Proof.
  apply forallb_forall. intros x Hx. now apply filter_In in Hx.
Qed.

Lemma forallb_strip (f : N -> bool) (s : pystr) :
  forallb f s = true -> forallb f (strip s) = true.
Proof.
  intros H. apply forallb_forall. apply Forall_forall.
  apply Forall_strip. apply Forall_forall. now apply forallb_forall.
Qed.

Lemma phrasal_loop_shape (pats : list pystr) (msg e : pystr) :
  phrasal_loop pats msg = Some e ->
  exists G, e = strip (filter expr_char G) /\
            existsb operator_char (filter expr_char G) = true.
Proof.
  induction pats as [|pat pats IH]; cbn [phrasal_loop]; [discriminate|].
  destruct (search false pat msg) as [m|]; auto.
  rewrite strip_non_expr, has_operator_spec, existsb_operator_strip.
  destruct (existsb operator_char (filter expr_char (group1 m))) eqn:E; auto.
  intros H. injection H as <-. eauto.
Qed.

(** X16. Whatever the detector hands on as an expression holds only digits,
    [+ - * / % .], parentheses and whitespace, at least one of the operators
    [+ - * / %], and no whitespace at either end; in particular it is not
    empty. *)
Theorem calculator_query_shape (user_msg_raw e : pystr) :
  _is_calculator_query user_msg_raw = Some e ->
  forallb expr_char e = true /\
  existsb operator_char e = true /\
  starts_clean e /\ ends_clean e /\ e <> [].
Proof.
  unfold _is_calculator_query. cbv zeta. intros H.
  assert (Hshape : exists X, e = strip X /\ forallb expr_char X = true /\
                             existsb operator_char X = true).
  { destruct (phrasal_loop phrasal (lower user_msg_raw)) as [e'|] eqn:E.
    - injection H as <-.
      destruct (phrasal_loop_shape _ _ _ E) as (G & -> & HG).
      exists (filter expr_char G). repeat split; auto. apply forallb_filter_same.
    - rewrite whole_message_check, has_operator_spec in H.
      destruct (negb (is_empty (lower user_msg_raw))
                && forallb expr_char (lower user_msg_raw)
                && existsb operator_char (lower user_msg_raw)) eqn:C; [|discriminate].
      injection H as <-.
      apply andb_true_iff in C as [C C3]. apply andb_true_iff in C as [_ C2].
      eauto. }
  destruct Hshape as (X & -> & HX & HO).
  destruct (strip_spec X) as (a & b & _ & _ & _ & H1 & H2).
  rewrite <- (existsb_operator_strip X) in HO.
  repeat split; auto.
  - now apply forallb_strip.
  - intros E. rewrite E in HO. discriminate.
Qed.

End WithUnicode.

Lemma calculator_query_shape_witness :
  forallb expr_char (u "12 * (3+4)") = true /\
  existsb operator_char (u "12 * (3+4)") = true /\
  starts_clean (u "12 * (3+4)") /\ ends_clean (u "12 * (3+4)") /\
  u "12 * (3+4)" <> [].
Proof.
  apply (@calculator_query_shape ascii_tables (u "Calculate  12 * (3+4) please")).
  reflexivity.
Defined.

End DetectorFacts.

(* ================================================================= *)
(** * The whole of [get_response] *)
(* ================================================================= *)

Module PipelineFacts.
Import PyStr PyStrFacts Regex RegexFacts Calculator Dictionary Todo TodoFacts
       Chatbot Pipeline IntentFacts TodoStoreFacts.

(** ** The tables *)

Lemma suggestion_table_ok :
  forallb suggestion_entry_ok _single_word_to_intent = true.
Proof. vm_compute. reflexivity. Qed.

Lemma dict_get_in (w : pystr) (d : list (pystr * pystr)) :
  In w (map fst d) -> exists name, dict_get w d = Some name /\ In (w, name) d.
Proof.
  induction d as [|[k v] d IH]; cbn [map fst dict_get In]; [tauto|].
  intros H. destruct (pystr_eqb k w) eqn:E.
  - apply pystr_eqb_eq in E. subst k. eauto.
  - destruct H as [-> | H]; [now rewrite pystr_eqb_refl in E|].
    destruct (IH H) as (name & H1 & H2). eauto.
Qed.

Lemma suggestion_entry (w name : pystr) :
  In (w, name) _single_word_to_intent ->
  exists i, In i intents /\ responses_of name = Some (responses i) /\
            In w (patterns i) /\ responses i <> [].
Proof.
  intros H.
  pose proof (proj1 (forallb_forall _ _) suggestion_table_ok _ H) as Hok.
  unfold suggestion_entry_ok in Hok. cbn [fst snd] in Hok.
  unfold responses_of.
  destruct (find (fun i => pystr_eqb (intent_name i) name) intents) as [i|] eqn:E;
    [|discriminate].
  apply andb_true_iff in Hok as [Hm Hr].
  exists i. split; [exact (proj1 (find_some _ _ E))|]. split; [reflexivity|]. split.
  - unfold member in Hm. apply existsb_exists in Hm as (x & Hx & Ex).
    apply pystr_eqb_eq in Ex. subst x. exact Hx.
  - intros F. rewrite F in Hr. discriminate Hr.
Qed.

(** ** Printing an integer *)

Lemma digits_value_snoc (d : pystr) (c : N) :
  digits_value (d ++ [c]) = (10 * digits_value d + Z.of_N (c - 48))%Z.
Proof. unfold digits_value. now rewrite fold_left_app. Qed.

Lemma last_digit (n : N) :
  is_digit09 (48 + n mod 10) = true /\ (48 + n mod 10 - 48 = n mod 10)%N.
Proof.
  assert (H : (n mod 10 < 10)%N) by (apply N.mod_lt; discriminate).
  revert H. generalize (n mod 10)%N. intros m H.
  split; [|lia]. unfold is_digit09, in_range.
  apply andb_true_iff. split; apply N.leb_le; lia.
Qed.

(** [decimal_digits] writes the decimal digits of [n], most significant
    first and without a leading zero, in front of [acc]. *)
Lemma decimal_digits_spec (fuel : nat) :
  forall n acc,
    (n < 2 ^ N.of_nat (S fuel))%N ->
    exists d,
      decimal_digits (S fuel) n acc = d ++ acc /\
      forallb is_digit09 d = true /\
      digits_value d = Z.of_N n /\
      match d with
      | [] => False
      | c :: d' => (c = 48%N -> d' = [] /\ n = 0%N)
      end.
Proof.
  induction fuel as [|fuel IH]; intros n acc Hn.
  - change (2 ^ N.of_nat 1)%N with 2%N in Hn.
    assert (Hlt : (n <? 10)%N = true) by (apply N.ltb_lt; lia).
    cbn [decimal_digits]. rewrite Hlt.
    assert (Hm : (n mod 10 = n)%N) by (apply N.mod_small; lia).
    exists [(48 + n mod 10)%N].
    destruct (last_digit n) as [Hd Hv].
    split; [reflexivity|]. split; [cbn [forallb]; now rewrite Hd|]. split.
    + unfold digits_value. cbn [fold_left]. rewrite Hv, Hm. lia.
    + intros E. split; [reflexivity | lia].
  - change (decimal_digits (S (S fuel)) n acc)
      with (if (n <? 10)%N then (48 + n mod 10)%N :: acc
            else decimal_digits (S fuel) (n / 10)%N ((48 + n mod 10)%N :: acc)).
    destruct (last_digit n) as [Hd Hv].
    destruct (n <? 10)%N eqn:Hlt.
    + apply N.ltb_lt in Hlt.
      assert (Hm : (n mod 10 = n)%N) by (apply N.mod_small; lia).
      exists [(48 + n mod 10)%N].
      split; [reflexivity|]. split; [cbn [forallb]; now rewrite Hd|]. split.
      * unfold digits_value. cbn [fold_left]. rewrite Hv, Hm. lia.
      * intros E. split; [reflexivity | lia].
    + apply N.ltb_ge in Hlt.
      assert (Hq : (n / 10 < 2 ^ N.of_nat (S fuel))%N).
      { apply N.Div0.div_lt_upper_bound.
        replace (N.of_nat (S (S fuel))) with (N.succ (N.of_nat (S fuel))) in Hn by lia.
        rewrite N.pow_succ_r' in Hn. lia. }
      destruct (IH (n / 10)%N ((48 + n mod 10)%N :: acc) Hq) as (d & E & Hall & Hval & Hhd).
      exists (d ++ [(48 + n mod 10)%N]). split; [|split; [|split]].
      * rewrite E, <- app_assoc. reflexivity.
      * rewrite forallb_app, Hall. cbn [forallb]. now rewrite Hd.
      * rewrite digits_value_snoc, Hval, Hv.
        rewrite (N.div_mod n 10) at 3 by discriminate. lia.
      * destruct d as [|c d']; [destruct Hhd|]. cbn [app]. intros Ec.
        destruct (Hhd Ec) as [_ Hz].
        assert (n < 10)%N; [|lia].
        rewrite (N.div_mod n 10) by discriminate. rewrite Hz.
        pose proof (N.mod_lt n 10). lia.
Qed.

Lemma str_of_N_spec (n : N) :
  plain_number (str_of_N n) = true /\ digits_value (str_of_N n) = Z.of_N n.
Proof.
  unfold str_of_N.
  assert (Hn : (n < 2 ^ N.of_nat (S (N.to_nat (N.log2 n))))%N).
  { replace (N.of_nat (S (N.to_nat (N.log2 n)))) with (N.succ (N.log2 n)) by lia.
    destruct n as [|p]; [reflexivity|]. apply N.log2_spec. reflexivity. }
  destruct (decimal_digits_spec _ n [] Hn) as (d & -> & Hall & Hval & Hhd).
  rewrite app_nil_r. split; [|exact Hval].
  unfold plain_number. rewrite Hall. cbn [andb].
  destruct d as [|c [|c' d']]; [destruct Hhd | reflexivity |].
  destruct (c =? 48)%N eqn:E; [|reflexivity].
  apply N.eqb_eq in E. destruct (Hhd E) as [F _]. discriminate.
Qed.

Lemma str_of_Z_of_N (n : N) : str_of_Z (Z.of_N n) = str_of_N n.
Proof. destruct n; reflexivity. Qed.

Lemma fallback_nonempty : _fallback_responses <> [].
Proof. discriminate. Qed.

Section WithUnicode.
Context {U : UnicodeDB}.

Lemma match_intents_some (table : list intent) (msg : pystr) (rs : list pystr) :
  match_intents table msg = Some rs ->
  exists i, In i table /\ rs = responses i.
Proof.
  induction table as [|i table IH]; cbn [match_intents]; [discriminate|].
  destruct (existsb _ (patterns i)).
  - intros H. injection H as <-. exists i. split; [now left | reflexivity].
  - intros H. destruct (IH H) as (j & Hj & ->). exists j. split; [now right | reflexivity].
Qed.

Lemma match_intents_hit (table : list intent) (i : intent) (p msg : pystr) :
  In i table -> In p (patterns i) -> pattern_search p msg = true ->
  exists rs, match_intents table msg = Some rs.
Proof.
  intros Hi Hp Hm. induction table as [|j table IH]; [destruct Hi|].
  cbn [match_intents].
  destruct (existsb (fun q => pattern_search q msg) (patterns j)) eqn:E; [eauto|].
  destruct Hi as [-> | Hi]; [|auto].
  assert (F : existsb (fun q => pattern_search q msg) (patterns i) = true)
    by (apply existsb_exists; eauto).
  congruence.
Qed.

Lemma strip_nonempty (s : pystr) : is_empty (strip s) = false -> is_empty s = false.
Proof. destruct s; [discriminate | reflexivity]. Qed.

Section Steps.
Variable rt : runtime.
Variable float_repr : spec_float -> pystr.
Variable complex_repr : spec_float -> spec_float -> pystr.
Variable max_str_digits : option nat.
Variable get_close_matches : pystr -> list pystr -> spec_float -> list pystr.
Variable http_get_json : pystr -> option json.
Variable rnd : nat.
Variable now : pystr.

Local Notation "'respond_'" :=
  (respond rt float_repr complex_repr max_str_digits get_close_matches
           http_get_json rnd now).
Local Notation "'later_'" :=
  (later_steps rt float_repr complex_repr max_str_digits get_close_matches rnd now).
Local Notation "'todo_'" := (todo_step max_str_digits now).
Local Notation "'token_'" := (token_step get_close_matches rnd).
Local Notation "'message_'" := (message_step get_close_matches rnd).

(** ** The model of the claims and the whole function agree *)

Lemma respond_get_response (s : store) (user_msg : pystr) :
  option_map fst (respond_ s user_msg)
  = get_response http_get_json rnd (fun m => option_map fst (later_ s m)) user_msg.
Proof.
  unfold respond, get_response.
  destruct (is_empty user_msg || is_empty (strip user_msg)); [reflexivity|].
  destruct (is_empty (_normalize user_msg)); [reflexivity|].
  destruct (intent_stage rnd user_msg) as [[r|]|]; try reflexivity.
  destruct (_is_dictionary_query (_normalize user_msg)) as [[|c w]|]; try reflexivity.
  destruct (truthy _); reflexivity.
Qed.

Lemma respond_later (s : store) (user_msg : pystr) :
  falls_through user_msg = true -> respond_ s user_msg = later_ s user_msg.
Proof.
  unfold falls_through, respond. intros H.
  apply andb_true_iff in H as [H H4]. apply andb_true_iff in H as [H H3].
  apply andb_true_iff in H as [H1 H2].
  apply negb_true_iff in H1, H2, H3.
  rewrite (strip_nonempty _ H1), H1, H2. cbn [orb].
  unfold intent_stage. destruct (match_intents intents user_msg); [discriminate|].
  cbn [option_map].
  destruct (_is_dictionary_query (_normalize user_msg)) as [[|c w]|];
    [reflexivity | discriminate | reflexivity].
Qed.

(** ** What the steps do to the store *)

Lemma todo_step_add (a : pystr) (s : store) :
  todo_ (u "add") (ArgStr a) s
  = Some (Some (JStr (fst (add_task now a s)), snd (add_task now a s))).
Proof.
  unfold todo_step. change (pystr_eqb (u "add") (u "add")) with true.
  cbv iota. now destruct (add_task now a s).
Qed.

Lemma todo_step_remove (arg : todo_arg) (s : store) :
  todo_ (u "remove") arg s
  = Some (Some (JStr (fst (remove_task (task_ref_of arg) s)),
                snd (remove_task (task_ref_of arg) s))).
Proof.
  unfold todo_step.
  change (pystr_eqb (u "remove") (u "add")) with false.
  change (pystr_eqb (u "remove") (u "show")) with false.
  change (pystr_eqb (u "remove") (u "remove")) with true.
  cbv iota. now destruct (remove_task (task_ref_of arg) s).
Qed.

Lemma todo_step_done (arg : todo_arg) (s : store) :
  todo_ (u "done") arg s
  = Some (Some (JStr (fst (mark_done (task_ref_of arg) s)),
                snd (mark_done (task_ref_of arg) s))).
Proof.
  unfold todo_step.
  change (pystr_eqb (u "done") (u "add")) with false.
  change (pystr_eqb (u "done") (u "show")) with false.
  change (pystr_eqb (u "done") (u "remove")) with false.
  change (pystr_eqb (u "done") (u "done")) with true.
  cbv iota. now destruct (mark_done (task_ref_of arg) s).
Qed.

Lemma todo_step_show (arg : todo_arg) (s : store) :
  todo_ (u "show") arg s
  = match tasks s with
    | [] => Some (Some (JStr (u "No tasks found."), s))
    | l => Some (option_map (fun lines => (JStr (join [10%N] lines), s))
                            (format_tasks max_str_digits l))
    end.
Proof.
  unfold todo_step.
  change (pystr_eqb (u "show") (u "add")) with false.
  change (pystr_eqb (u "show") (u "show")) with true.
  reflexivity.
Qed.

(** The commands [_is_todo_query] can name. *)
Lemma todo_query_commands (user_msg cmd : pystr) (arg : todo_arg) :
  _is_todo_query user_msg = Some (cmd, arg) ->
  (cmd = u "add" /\ exists a, arg = ArgStr a) \/
  (cmd = u "show" /\ arg = ArgNone) \/
  (cmd = u "remove" /\ exists a, arg = ArgStr a /\ a <> []) \/
  (cmd = u "done" /\ exists n, arg = ArgInt n).
Proof.
  unfold _is_todo_query. cbv zeta.
  destruct (startswith (u "add task ") _).
  { intros H. injection H as <- <-. left. eauto. }
  destruct (matched (match_start (u "show tasks?") _)).
  { intros H. injection H as <- <-. right. left. auto. }
  destruct (startswith (u "remove task ") _).
  { destruct (strip (skipn 12 _)) as [|c t] eqn:E; cbn [is_empty negb]; [discriminate|].
    intros H. injection H as <- <-. right. right. left. split; auto.
    eexists. split; [reflexivity | discriminate]. }
  destruct (startswith (u "mark done ") _); [|discriminate].
  destruct (match_start _ _) as [mt|]; [|discriminate].
  destruct (py_int (group1 mt)) as [n|]; [|discriminate].
  intros H. injection H as <- <-. right. right. right. eauto.
Qed.

Lemma todo_step_store (cmd : pystr) (arg : todo_arg) (s : store) r :
  todo_ cmd arg s = Some r ->
  r = None \/ exists j s', r = Some (j, s') /\ (s' = s \/ exists c, s' = step s c).
Proof.
  unfold todo_step.
  destruct (pystr_eqb cmd (u "add")).
  { destruct arg as [|a|n]; [intros H; injection H as <-; auto | |
                              intros H; injection H as <-; auto].
    destruct (add_task now a s) as [m s'] eqn:E.
    intros H; injection H as <-. right.
    exists (JStr m), s'. split; auto. right. exists (CmdAdd now a).
    cbn [step]. now rewrite E. }
  destruct (pystr_eqb cmd (u "show")).
  { destruct (get_tasks None s) as [|t l]; intros H; injection H as <-.
    - right. exists (JStr (u "No tasks found.")), s. auto.
    - destruct (format_task max_str_digits t) as [x|];
        [destruct (format_tasks max_str_digits l) as [xs|]|];
        cbn [option_map]; [right | now left | now left].
      exists (JStr (join [10%N] (x :: xs))), s. auto. }
  destruct (pystr_eqb cmd (u "remove")).
  { destruct (remove_task (task_ref_of arg) s) as [m s'] eqn:E.
    intros H; injection H as <-. right.
    exists (JStr m), s'. split; auto. right. exists (CmdRemove (task_ref_of arg)).
    cbn [step]. now rewrite E. }
  destruct (pystr_eqb cmd (u "done")); [|discriminate].
  destruct (mark_done (task_ref_of arg) s) as [m s'] eqn:E.
  intros H; injection H as <-. right.
  exists (JStr m), s'. split; auto. right. exists (CmdDone (task_ref_of arg)).
  cbn [step]. now rewrite E.
Qed.

Lemma with_store_same {A : Type} (r : option A) (s s' : store) (j : A) :
  option_map (fun x => (x, s)) r = Some (j, s') -> s' = s.
Proof. destruct r; [|discriminate]. intros H. now injection H. Qed.

Lemma later_steps_store (s : store) (user_msg : pystr) (j : json) (s' : store) :
  later_ s user_msg = Some (j, s') -> s' = s \/ exists c, s' = step s c.
Proof.
  unfold later_steps. cbv zeta.
  assert (Hrest :
    match
      match _is_todo_query user_msg with
      | Some (cmd, arg) => todo_ cmd arg s
      | None => None
      end
    with
    | Some r => r
    | None =>
      match token_ (map fst _single_word_to_intent) (split (_normalize user_msg)) with
      | Some r => option_map (fun j => (j, s)) r
      | None =>
        match message_ (_normalize user_msg) with
        | Some r => option_map (fun j => (j, s)) r
        | None => option_map (fun j => (j, s))
                    (option_map JStr (random_choice rnd _fallback_responses))
        end
      end
    end = Some (j, s') -> s' = s \/ exists c, s' = step s c).
  { destruct (match _is_todo_query user_msg with
              | Some (cmd, arg) => todo_ cmd arg s
              | None => None end) as [r|] eqn:E.
    - destruct (_is_todo_query user_msg) as [[cmd arg]|]; [|discriminate].
      destruct (todo_step_store _ _ _ _ E) as [-> | (j0 & s0 & -> & H)]; [discriminate|].
      intros H'. injection H' as <- <-. exact H.
    - destruct (token_ _ _) as [r|].
      + intros H. left. exact (with_store_same _ _ _ _ H).
      + destruct (message_ _) as [r|]; intros H; left;
          exact (with_store_same _ _ _ _ H). }
  destruct (_is_calculator_query (lower user_msg)) as [[|c e]|]; auto.
  intros H. left. exact (with_store_same _ _ _ _ H).
Qed.

Lemma respond_store (s : store) (user_msg : pystr) (j : json) (s' : store) :
  respond_ s user_msg = Some (j, s') -> s' = s \/ exists c, s' = step s c.
Proof.
  unfold respond.
  destruct (is_empty user_msg || is_empty (strip user_msg)).
  { intros H. injection H as <- <-. auto. }
  destruct (is_empty (_normalize user_msg)).
  { intros H. injection H as <- <-. auto. }
  destruct (intent_stage rnd user_msg) as [[reply|]|]; [| discriminate |].
  { intros H. injection H as <- <-. auto. }
  destruct (_is_dictionary_query (_normalize user_msg)) as [[|c w]|];
    try apply later_steps_store.
  destruct (truthy _); intros H; injection H as <- <-; auto.
Qed.

(** ** Small talk comes first *)

(** X17. When a pattern of the table occurs in the message, the reply is one of
    the replies of an intent of the table and nothing else happens: a
    message that is also a to-do command ("add task say hello to Bob") or
    an expression adds no task and computes nothing. *)
Theorem intent_reply_first (s : store) (user_msg : pystr) (i : intent) (p : pystr) :
  is_empty (strip user_msg) = false ->
  is_empty (_normalize user_msg) = false ->
  In i intents -> In p (patterns i) -> pattern_search p user_msg = true ->
  exists j r, In j intents /\ In r (responses j) /\
              respond_ s user_msg = Some (JStr r, s).
Proof.
  intros Hs Hn Hi Hp Hm.
  destruct (match_intents_hit intents i p user_msg Hi Hp Hm) as [rs E].
  destruct (match_intents_some _ _ _ E) as (j & Hj & ->).
  destruct (random_choice_in rnd (responses j) (table_responses j Hj)) as (r & Hr & Hin).
  exists j, r. split; [exact Hj|]. split; [exact Hin|].
  unfold respond. rewrite (strip_nonempty _ Hs), Hs, Hn. cbn [orb].
  unfold intent_stage. rewrite E. cbn [option_map]. rewrite Hr. reflexivity.
Qed.

(** ** Removing by title *)

(** X18. [get_response] passes a title on to [remove_task] when the argument is
    no number, expecting the store to handle it. The store compares ids
    only: the answer is "Task not found" and nothing is removed, whatever
    the list holds. *)
Theorem remove_by_title_never_works (s : store) (user_msg a : pystr) :
  falls_through user_msg = true ->
  not_calculation user_msg = true ->
  _is_todo_query user_msg = Some (u "remove", ArgStr a) ->
  int_of_str a = None ->
  respond_ s user_msg = Some (JStr (u "Task not found"), s).
Proof.
  intros Hf Hc Ht Hi. rewrite (respond_later s _ Hf).
  unfold later_steps. cbv zeta. unfold not_calculation in Hc.
  rewrite Ht, todo_step_remove. cbn [task_ref_of]. rewrite Hi.
  rewrite (proj1 (title_reference_not_found a s)). cbn [fst snd].
  destruct (_is_calculator_query (lower user_msg)) as [[|c e]|];
    [reflexivity | discriminate Hc | reflexivity].
Qed.

(** ** Suggestions and the fallback *)

Lemma did_you_mean_some (w : pystr) (replies : list pystr) :
  replies <> [] ->
  exists reply, In reply replies /\
    did_you_mean rnd w replies
    = Some (JStr (u "(Did you mean **" ++ w ++ u "**?)" ++ [10%N] ++ reply)).
Proof.
  intros H. destruct (random_choice_in rnd replies H) as (r & Hr & Hin).
  exists r. split; [exact Hin|]. unfold did_you_mean. now rewrite Hr.
Qed.

Lemma token_step_shape (tokens : list pystr) r :
  (forall w v c x, In x (get_close_matches w v c) -> In x v) ->
  token_ (map fst _single_word_to_intent) tokens = Some r ->
  exists w i reply,
    In i intents /\ In w (patterns i) /\ In reply (responses i) /\
    r = Some (JStr (u "(Did you mean **" ++ w ++ u "**?)" ++ [10%N] ++ reply)).
Proof.
  intros Hc. induction tokens as [|t tokens IH]; cbn [token_step]; [discriminate|].
  destruct (get_close_matches t _ _) as [|w ws] eqn:E; [exact IH|].
  assert (Hw : In w (map fst _single_word_to_intent)).
  { apply (Hc t _ (float_of_ratio 4 5)). rewrite E. now left. }
  destruct (dict_get_in w _ Hw) as (name & Hg & Hin).
  destruct (suggestion_entry w name Hin) as (i & Hi & Hr & Hp & Hne).
  rewrite Hg, Hr.
  destruct (did_you_mean_some w (responses i) Hne) as (reply & Hin' & ->).
  intros H. injection H as <-. exists w, i, reply.
  exact (conj Hi (conj Hp (conj Hin' eq_refl))).
Qed.

Lemma message_step_shape (normalized : pystr) r :
  message_ normalized = Some r ->
  exists w i reply,
    In i intents /\ In w (patterns i) /\ In reply (responses i) /\
    r = Some (JStr (u "(Did you mean **" ++ w ++ u "**?)" ++ [10%N] ++ reply)).
Proof.
  unfold message_step.
  destruct (get_close_matches normalized _ _) as [|w ws]; [discriminate|].
  destruct (find (fun i => member w (patterns i)) intents) as [i|] eqn:E; [|discriminate].
  destruct (find_some _ _ E) as [Hi Hm].
  destruct (did_you_mean_some w (responses i) (table_responses i Hi))
    as (reply & Hin' & ->).
  intros H. injection H as <-. exists w, i, reply.
  split; [exact Hi|]. split; [|exact (conj Hin' eq_refl)].
  unfold member in Hm. apply existsb_exists in Hm as (x & Hx & Ex).
  apply pystr_eqb_eq in Ex. subst x. exact Hx.
Qed.

Lemma token_step_none (vocab tokens : list pystr) :
  (forall t, In t tokens -> get_close_matches t vocab (float_of_ratio 4 5) = []) ->
  token_ vocab tokens = None.
Proof.
  induction tokens as [|t tokens IH]; intros H; cbn [token_step]; [reflexivity|].
  rewrite (H t (or_introl eq_refl)). apply IH. intros x Hx. apply H. now right.
Qed.

Lemma fallback_some (s : store) :
  exists r, In r _fallback_responses /\
    option_map (fun j => (j, s)) (option_map JStr (random_choice rnd _fallback_responses))
    = Some (JStr r, s).
Proof.
  destruct (random_choice_in rnd _ fallback_nonempty) as (r & Hr & Hin).
  exists r. split; [exact Hin|]. now rewrite Hr.
Qed.

(** The steps after the to-do commands, for a message that is none. *)
Lemma later_unrecognised (s : store) (user_msg : pystr) :
  not_calculation user_msg = true ->
  _is_todo_query user_msg = None ->
  later_ s user_msg
  = match token_ (map fst _single_word_to_intent) (split (_normalize user_msg)) with
    | Some r => option_map (fun j => (j, s)) r
    | None =>
      match message_ (_normalize user_msg) with
      | Some r => option_map (fun j => (j, s)) r
      | None => option_map (fun j => (j, s))
                  (option_map JStr (random_choice rnd _fallback_responses))
      end
    end.
Proof.
  intros Hc Ht. unfold later_steps. cbv zeta. unfold not_calculation in Hc.
  rewrite Ht.
  destruct (_is_calculator_query (lower user_msg)) as [[|c e]|];
    [reflexivity | discriminate Hc | reflexivity].
Qed.

(** X19. With a [get_close_matches] that returns only words it was offered
    (as [difflib] does), a message that is nothing the assistant knows gets
    either a suggestion, made of a pattern of the table and a reply of an
    intent that lists this pattern, or one of the six fallback sentences,
    and the task list is left alone. *)
Theorem unrecognised_message_reply (s : store) (user_msg : pystr) :
  (forall w v c x, In x (get_close_matches w v c) -> In x v) ->
  falls_through user_msg = true ->
  not_calculation user_msg = true ->
  _is_todo_query user_msg = None ->
  exists r,
    respond_ s user_msg = Some (JStr r, s) /\
    (In r _fallback_responses \/
     exists w i reply,
       In i intents /\ In w (patterns i) /\ In reply (responses i) /\
       r = u "(Did you mean **" ++ w ++ u "**?)" ++ [10%N] ++ reply).
Proof.
  intros Hp Hf Hc Ht.
  rewrite (respond_later s _ Hf), (later_unrecognised s _ Hc Ht).
  destruct (token_ _ _) as [r|] eqn:E1.
  { destruct (token_step_shape _ _ Hp E1) as (w & i & reply & H1 & H2 & H3 & ->).
    eexists. split; [reflexivity|]. right. exists w, i, reply.
    exact (conj H1 (conj H2 (conj H3 eq_refl))). }
  destruct (message_ _) as [r|] eqn:E2.
  { destruct (message_step_shape _ _ E2) as (w & i & reply & H1 & H2 & H3 & ->).
    eexists. split; [reflexivity|]. right. exists w, i, reply.
    exact (conj H1 (conj H2 (conj H3 eq_refl))). }
  destruct (fallback_some s) as (r & Hin & ->). exists r.
  split; [reflexivity | left; exact Hin].
Qed.

(** X20. When nothing close is found, neither for a word of the message nor for
    the message as a whole, the reply is one of the fallback sentences. *)
Theorem fallback_reply (s : store) (user_msg : pystr) :
  falls_through user_msg = true ->
  not_calculation user_msg = true ->
  _is_todo_query user_msg = None ->
  (forall t, In t (split (_normalize user_msg)) ->
             get_close_matches t (map fst _single_word_to_intent) (float_of_ratio 4 5)
             = []) ->
  get_close_matches (_normalize user_msg) (flat_map patterns intents)
                    (float_of_ratio 3 4) = [] ->
  exists r, In r _fallback_responses /\ respond_ s user_msg = Some (JStr r, s).
Proof.
  intros Hf Hc Ht Htok Hmsg.
  rewrite (respond_later s _ Hf), (later_unrecognised s _ Hc Ht).
  rewrite (token_step_none _ _ Htok). unfold message_step. rewrite Hmsg.
  apply fallback_some.
Qed.

(** ** No message makes [get_response] raise *)

Lemma format_tasks_total (l : list task) :
  max_str_digits = None -> exists lines, format_tasks max_str_digits l = Some lines.
Proof.
  intros H. induction l as [|t l [lines IH]]; [now exists []|].
  cbn [format_tasks]. unfold format_task, str_of_int. rewrite H. cbn [option_map].
  rewrite H in IH. rewrite IH. eauto.
Qed.

Lemma py_str_total (v : pyval) :
  max_str_digits = None -> exists t, py_str float_repr complex_repr max_str_digits v = Some t.
Proof.
  intros H. destruct v; cbn [py_str]; eauto. unfold str_of_int. rewrite H. eauto.
Qed.

Lemma todo_step_total (user_msg cmd : pystr) (arg : todo_arg) (s : store) :
  max_str_digits = None ->
  _is_todo_query user_msg = Some (cmd, arg) ->
  exists j s', todo_ cmd arg s = Some (Some (j, s')).
Proof.
  intros Hm H.
  destruct (todo_query_commands _ _ _ H)
    as [(-> & a & ->) | [(-> & ->) | [(-> & a & -> & _) | (-> & n & ->)]]].
  - rewrite todo_step_add. eauto.
  - rewrite todo_step_show. destruct (tasks s) as [|t l] eqn:E; [eauto|].
    destruct (format_tasks_total (t :: l) Hm) as [lines ->]. cbn [option_map]. eauto.
  - rewrite todo_step_remove. eauto.
  - rewrite todo_step_done. eauto.
Qed.

(** X21. On an interpreter that puts no limit on the digits of a printed
    integer, and with a [get_close_matches] that returns only words it was
    offered (as [difflib] does), every message gets a reply, whatever the
    task list holds and whatever the lookup service does: no key is
    missing, no reply list is empty, and no path of [get_response] raises.
    (Errors of the file system while the task file is written are not part
    of the model.) *)
Theorem get_response_always_answers (s : store) (user_msg : pystr) :
  max_str_digits = None ->
  (forall w v c x, In x (get_close_matches w v c) -> In x v) ->
  exists j s', respond_ s user_msg = Some (j, s').
Proof.
  intros Hm Hp. unfold respond.
  destruct (is_empty user_msg || is_empty (strip user_msg)); [eauto|].
  destruct (is_empty (_normalize user_msg)); [eauto|].
  unfold intent_stage.
  destruct (match_intents intents user_msg) as [rs|] eqn:E; cbn [option_map].
  { destruct (match_intents_some _ _ _ E) as (i & Hi & ->).
    destruct (random_choice_in rnd _ (table_responses i Hi)) as (r & -> & _).
    cbn [option_map]. eauto. }
  assert (Hlater : exists j s', later_ s user_msg = Some (j, s')).
  { unfold later_steps. cbv zeta.
    assert (Hrest : exists j s',
      match
        match _is_todo_query user_msg with
        | Some (cmd, arg) => todo_ cmd arg s
        | None => None
        end
      with
      | Some r => r
      | None =>
        match token_ (map fst _single_word_to_intent) (split (_normalize user_msg)) with
        | Some r => option_map (fun j => (j, s)) r
        | None =>
          match message_ (_normalize user_msg) with
          | Some r => option_map (fun j => (j, s)) r
          | None => option_map (fun j => (j, s))
                      (option_map JStr (random_choice rnd _fallback_responses))
          end
        end
      end = Some (j, s')).
    { destruct (_is_todo_query user_msg) as [[cmd arg]|] eqn:Et.
      - destruct (todo_step_total _ _ _ s Hm Et) as (j & s' & ->). eauto.
      - destruct (token_ _ _) as [r|] eqn:E1.
        { destruct (token_step_shape _ _ Hp E1) as (w & i & reply & _ & _ & _ & ->).
          cbn [option_map]. eauto. }
        destruct (message_ _) as [r|] eqn:E2.
        { destruct (message_step_shape _ _ E2) as (w & i & reply & _ & _ & _ & ->).
          cbn [option_map]. eauto. }
        destruct (fallback_some s) as (r & _ & ->). eauto. }
    destruct (_is_calculator_query (lower user_msg)) as [[|c e]|]; auto.
    destruct (py_str_total (evaluate rt (c :: e)) Hm) as [t ->].
    cbn [option_map]. eauto. }
  destruct (_is_dictionary_query (_normalize user_msg)) as [[|c w]|]; auto.
  destruct (truthy _); eauto.
Qed.

(** ** Expressions typed as they are *)

Local Notation "'unlettered'" :=
  (forallb (fun c => is_ascii c && negb (is_ascii_letter c))).

Lemma expr_not_letter (c : N) : expr_char c = true -> is_ascii_letter c = false.
Proof.
  intros H. destruct (is_ascii_letter c) eqn:E; [exfalso | reflexivity].
  unfold expr_char, is_ascii_letter in *. simpl in H.
  bools; lia.
Qed.

Lemma letter_is_ascii (a : N) : is_ascii_letter a = true -> is_ascii a = true.
Proof.
  intros H. unfold is_ascii_letter in H. unfold is_ascii. apply N.ltb_lt.
  bools; lia.
Qed.

Lemma ascii_lower_letter (a : N) :
  is_ascii_letter a = true -> is_lower_az (ascii_lower a) = true.
Proof.
  intros H. unfold is_ascii_letter in H. unfold ascii_lower.
  destruct (is_upper_az a) eqn:E.
  - unfold is_lower_az, in_range. bools; apply andb_true_iff;
      split; apply N.leb_le; lia.
  - now rewrite orb_false_r in H.
Qed.

Lemma ascii_lower_fix (c : N) : is_ascii_letter c = false -> ascii_lower c = c.
Proof.
  unfold is_ascii_letter, ascii_lower. intros H.
  apply orb_false_iff in H as [_ ->]. reflexivity.
Qed.

Lemma caseless_letter_other (a c : N) :
  is_ascii_letter a = true ->
  is_ascii c && negb (is_ascii_letter c) = true ->
  caseless_eq a c = false.
Proof.
  intros Ha Hc. apply andb_true_iff in Hc as [Hc1 Hc2]. apply negb_true_iff in Hc2.
  unfold caseless_eq. rewrite (letter_is_ascii a Ha), Hc1. cbn [andb].
  rewrite (ascii_lower_fix c Hc2).
  destruct (c =? ascii_lower a)%N eqn:E; [|reflexivity].
  apply N.eqb_eq in E. subst c.
  pose proof (ascii_lower_letter a Ha) as Hl.
  unfold is_ascii_letter in Hc2. rewrite Hl in Hc2. discriminate.
Qed.

Lemma unlettered_of_expr (s : pystr) :
  forallb is_ascii s = true -> forallb expr_char s = true -> unlettered s = true.
Proof.
  intros H1 H2. apply forallb_forall. intros c Hc.
  rewrite (proj1 (forallb_forall _ _) H1 c Hc).
  now rewrite (expr_not_letter c (proj1 (forallb_forall _ _) H2 c Hc)).
Qed.

Lemma lower_unlettered (s : pystr) : unlettered s = true -> lower s = s.
Proof.
  intros H. unfold lower.
  assert (Ha : forallb is_ascii s = true).
  { apply forallb_forall. intros c Hc.
    pose proof (proj1 (forallb_forall _ _) H c Hc) as Hx.
    now apply andb_true_iff in Hx. }
  rewrite Ha. induction s as [|c s IH]; [reflexivity|].
  cbn [forallb map] in *. apply andb_true_iff in H as [Hc Hs].
  apply andb_true_iff in Ha as [_ Ha]. apply andb_true_iff in Hc as [_ Hc].
  apply negb_true_iff in Hc. now rewrite (ascii_lower_fix c Hc), (IH Hs Ha).
Qed.

Lemma exec_letter_none (a : N) (r : regex) prev (s : pystr) st :
  is_ascii_letter a = true -> unlettered s = true ->
  exec (Chr (CLit true a) :: r) prev s st = None.
Proof.
  intros Ha Hs. destruct s as [|c s]; [reflexivity|].
  cbn [exec char_match]. cbn [forallb] in Hs. apply andb_true_iff in Hs as [Hc _].
  now rewrite (caseless_letter_other a c Ha Hc).
Qed.

Lemma search_letter_none (a : N) (r : regex) (s : pystr) :
  is_ascii_letter a = true -> unlettered s = true ->
  forall prev, search_from (Chr (CLit true a) :: r) prev s = None.
Proof.
  intros Ha. induction s as [|c s IH]; intros Hs prev.
  - reflexivity.
  - cbn [search_from]. rewrite (exec_letter_none a r prev (c :: s) _ Ha Hs).
    cbn [forallb] in Hs. apply andb_true_iff in Hs as [_ Hs]. now apply IH.
Qed.

Lemma exec_word_letter_none (a : N) (r : regex) prev (s : pystr) st :
  is_ascii_letter a = true -> unlettered s = true ->
  exec (WordB :: Chr (CLit true a) :: r) prev s st = None.
Proof.
  intros Ha Hs.
  change (exec (WordB :: Chr (CLit true a) :: r) prev s st)
    with (if xorb (is_word_opt prev) (is_word_opt (hd_error s))
          then exec (Chr (CLit true a) :: r) prev s st else None).
  rewrite (exec_letter_none a r prev s st Ha Hs). now destruct (xorb _ _).
Qed.

Lemma search_word_letter_none (a : N) (r : regex) (s : pystr) :
  is_ascii_letter a = true -> unlettered s = true ->
  forall prev, search_from (WordB :: Chr (CLit true a) :: r) prev s = None.
Proof.
  intros Ha. induction s as [|c s IH]; intros Hs prev; cbn [search_from];
    rewrite (exec_word_letter_none a r prev _ _ Ha Hs); [reflexivity|].
  cbn [forallb] in Hs. apply andb_true_iff in Hs as [_ Hs]. now apply IH.
Qed.

Lemma pattern_search_unlettered (p msg : pystr) :
  well_formed_pattern p = true -> unlettered msg = true ->
  pattern_search p msg = false.
Proof.
  unfold well_formed_pattern. intros H Hm.
  apply andb_true_iff in H as [H _]. apply andb_true_iff in H as [Hc Ha].
  unfold pattern_search, search. rewrite (compiles_to_spec _ _ _ Hc).
  destruct p as [|a p]; [discriminate|].
  unfold re_search, word_bounded. cbn [map app].
  now rewrite (search_word_letter_none a _ msg Ha Hm).
Qed.

Lemma match_intents_none (table : list intent) (msg : pystr) :
  (forall i p, In i table -> In p (patterns i) -> pattern_search p msg = false) ->
  match_intents table msg = None.
Proof.
  induction table as [|i table IH]; intros H; [reflexivity|].
  cbn [match_intents].
  assert (E : existsb (fun p => pattern_search p msg) (patterns i) = false).
  { apply not_true_is_false. intros F. apply existsb_exists in F as (p & Hp & F).
    rewrite (H i p (or_introl eq_refl) Hp) in F. discriminate. }
  rewrite E. apply IH. intros j p Hj. apply H. now right.
Qed.

Lemma search_true_letter (pat : pystr) (a : N) (r : regex) (s : pystr) :
  compile true pat = Some (Chr (CLit true a) :: r) ->
  is_ascii_letter a = true -> unlettered s = true ->
  search true pat s = None.
Proof.
  intros Hc Ha Hs. unfold search. rewrite Hc. unfold re_search.
  now apply search_letter_none.
Qed.

Lemma dictionary_query_unlettered (s : pystr) :
  unlettered s = true -> _is_dictionary_query s = None.
Proof.
  intros Hs. unfold _is_dictionary_query, dictionary_patterns. cbn [first_capture].
  rewrite (search_true_letter (u "meaning of (.+)") 109 _ s eq_refl eq_refl Hs).
  rewrite (search_true_letter (u "what does (.+) mean") 119 _ s eq_refl eq_refl Hs).
  rewrite (search_true_letter (u "define (.+)") 100 _ s eq_refl eq_refl Hs).
  rewrite (search_true_letter (u "definition of (.+)") 100 _ s eq_refl eq_refl Hs).
  reflexivity.
Qed.

Lemma existsb_strip_same (f : N -> bool) (s : pystr) :
  (forall c, is_space c = true -> f c = false) ->
  existsb f (strip s) = existsb f s.
Proof.
  intros Hf.
  assert (Hw : forall w, forallb is_space w = true -> existsb f w = false).
  { induction w as [|c w IH]; [reflexivity|]. cbn [forallb existsb]. intros H.
    apply andb_true_iff in H as [Hc Hw]. now rewrite (Hf c Hc), (IH Hw). }
  destruct (strip_spec s) as (a & b & E & Ha & Hb & _).
  rewrite E at 2. rewrite !existsb_app.
  now rewrite (Hw _ Ha), (Hw _ Hb), orb_false_r.
Qed.

Lemma existsb_filter_same {A : Type} (f g : A -> bool) (l : list A) :
  (forall c, f c = true -> g c = true) ->
  existsb f (filter g l) = existsb f l.
Proof.
  intros H. induction l as [|c l IH]; [reflexivity|]. cbn [filter existsb].
  destruct (g c) eqn:G; cbn [existsb]; rewrite IH; [reflexivity|].
  destruct (f c) eqn:F; [|reflexivity]. rewrite (H c F) in G. discriminate.
Qed.

Lemma existsb_nonempty {A : Type} (f : A -> bool) (l : list A) :
  existsb f l = true -> l <> [].
Proof. intros H E. rewrite E in H. discriminate. Qed.

Lemma digit_not_space (c : N) : is_space c = true -> is_digit09 c = false.
Proof.
  intros H. destruct (is_digit09 c) eqn:E; [exfalso | reflexivity]. bools; lia.
Qed.

Lemma digit_is_normal (c : N) : is_digit09 c = true -> normal_char c = true.
Proof. intros H. unfold normal_char. now rewrite H, orb_true_r. Qed.

Lemma forallb_filter_keeps {A : Type} (f g : A -> bool) (l : list A) :
  forallb f l = true -> forallb f (filter g l) = true.
Proof.
  intros H. apply forallb_forall. intros x Hx. apply filter_In in Hx as [Hx _].
  exact (proj1 (forallb_forall _ _) H x Hx).
Qed.

Lemma normalize_unlettered (s : pystr) :
  unlettered s = true ->
  unlettered (_normalize s) = true /\
  existsb is_digit09 (_normalize s) = existsb is_digit09 s.
Proof.
  intros H. rewrite NormalizeFacts.normalize_filter, (lower_unlettered s H). split.
  - apply DetectorFacts.forallb_strip. now apply forallb_filter_keeps.
  - rewrite (existsb_strip_same _ _ digit_not_space).
    apply existsb_filter_same. exact digit_is_normal.
Qed.

Lemma phrasal_none (msg : pystr) :
  unlettered msg = true -> existsb operator_char msg = true ->
  phrasal_loop phrasal msg = None.
Proof.
  intros Hm Ho.
  destruct (lstrip_spec msg) as (ws & E & Hws & Hc).
  destruct (lstrip msg) as [|b rest] eqn:El.
  { rewrite app_nil_r in E. subst ws.
    rewrite (CalcQueryFacts.no_operator_in_spaces _ Hws) in Ho. discriminate. }
  cbn [starts_clean] in Hc.
  assert (Hb : is_ascii_letter b = false).
  { rewrite E in Hm. rewrite forallb_app in Hm. apply andb_true_iff in Hm as [_ Hm].
    cbn [forallb] in Hm. apply andb_true_iff in Hm as [Hm _].
    apply andb_true_iff in Hm as [_ Hm]. now apply negb_true_iff in Hm. }
  assert (Hne : forall a, is_ascii_letter a = true -> a <> b)
    by (intros a Ha F; subst a; congruence).
  rewrite E. unfold phrasal.
  rewrite (CalcQueryFacts.phrasal_miss _ _ _
             (CalcQueryFacts.search_miss (u "^\s*what\s+is\s+(.+)$") 119 _ ws b rest
                eq_refl Hws eq_refl Hc (Hne 119%N eq_refl))).
  rewrite (CalcQueryFacts.phrasal_miss _ _ _
             (CalcQueryFacts.search_miss (u "^\s*calculate\s+(.+)$") 99 _ ws b rest
                eq_refl Hws eq_refl Hc (Hne 99%N eq_refl))).
  rewrite (CalcQueryFacts.phrasal_miss _ _ _
             (CalcQueryFacts.search_miss (u "^\s*solve\s+(.+)$") 115 _ ws b rest
                eq_refl Hws eq_refl Hc (Hne 115%N eq_refl))).
  reflexivity.
Qed.

Lemma calculator_query_whole (msg : pystr) :
  forallb is_ascii msg = true -> forallb expr_char msg = true ->
  existsb operator_char msg = true ->
  _is_calculator_query msg = Some (strip msg).
Proof.
  intros Ha He Ho. pose proof (unlettered_of_expr msg Ha He) as Hu.
  unfold _is_calculator_query. cbv zeta. rewrite (lower_unlettered msg Hu).
  rewrite (phrasal_none msg Hu Ho).
  rewrite DetectorFacts.whole_message_check, CalcQueryFacts.has_operator_spec, He, Ho.
  destruct msg; [discriminate | reflexivity].
Qed.

(** Steps 1 to 4 let such a message through. *)
Lemma expression_falls_through (user_msg : pystr) :
  forallb is_ascii user_msg = true ->
  forallb expr_char user_msg = true ->
  existsb operator_char user_msg = true ->
  existsb is_digit09 user_msg = true ->
  falls_through user_msg = true.
Proof.
  intros Ha He Ho Hd. pose proof (unlettered_of_expr user_msg Ha He) as Hu.
  destruct (normalize_unlettered user_msg Hu) as [Hn1 Hn2].
  assert (Hs : strip user_msg <> []).
  { apply (existsb_nonempty operator_char).
    now rewrite CalcQueryFacts.existsb_operator_strip. }
  unfold falls_through.
  rewrite (dictionary_query_unlettered _ Hn1).
  rewrite (match_intents_none intents user_msg).
  2:{ intros i p Hi Hp. apply pattern_search_unlettered; [|exact Hu].
      exact (table_pattern i p Hi Hp). }
  assert (Hn : _normalize user_msg <> []).
  { apply (existsb_nonempty is_digit09). now rewrite Hn2. }
  destruct (strip user_msg); [congruence|].
  destruct (_normalize user_msg); [congruence | reflexivity].
Qed.

(** Step 5 answers it. *)
Lemma later_expression (s : store) (user_msg : pystr) :
  forallb is_ascii user_msg = true ->
  forallb expr_char user_msg = true ->
  existsb operator_char user_msg = true ->
  later_ s user_msg
  = option_map (fun t => (JStr (u "The result is: " ++ t), s))
               (py_str float_repr complex_repr max_str_digits
                       (evaluate rt (strip user_msg))).
Proof.
  intros Ha He Ho. pose proof (unlettered_of_expr user_msg Ha He) as Hu.
  assert (Hs : strip user_msg <> []).
  { apply (existsb_nonempty operator_char).
    now rewrite CalcQueryFacts.existsb_operator_strip. }
  unfold later_steps. cbv zeta.
  rewrite (lower_unlettered _ Hu), (calculator_query_whole _ Ha He Ho).
  destruct (strip user_msg) as [|c e]; [congruence|].
  destruct (py_str _ _ _ _); reflexivity.
Qed.

(** X22. A message written with digits, [+ - * / % .], parentheses and ASCII
    whitespace only, with at least one digit and one operator, is answered
    by the calculator: the reply is "The result is: " and what [evaluate]
    returns for the trimmed message, printed. Nothing else is consulted and
    the task list is left alone. *)
Theorem expression_message_reply (s : store) (user_msg : pystr) :
  forallb is_ascii user_msg = true ->
  forallb expr_char user_msg = true ->
  existsb operator_char user_msg = true ->
  existsb is_digit09 user_msg = true ->
  respond_ s user_msg
  = option_map (fun t => (JStr (u "The result is: " ++ t), s))
               (py_str float_repr complex_repr max_str_digits
                       (evaluate rt (strip user_msg))).
Proof.
  intros Ha He Ho Hd.
  rewrite (respond_later s _ (expression_falls_through _ Ha He Ho Hd)).
  exact (later_expression s _ Ha He Ho).
Qed.

(** ** Arithmetic on typed numbers *)

Lemma digits_are_plain_text (d : pystr) :
  forallb is_digit09 d = true ->
  forallb is_ascii d = true /\ forallb expr_char d = true.
Proof.
  intros H. split; apply forallb_forall; intros c Hc;
    pose proof (proj1 (forallb_forall _ _) H c Hc) as Hd.
  - unfold is_ascii. apply N.ltb_lt. bools; lia.
  - unfold expr_char. now rewrite Hd.
Qed.

Lemma starts_clean_digits (d rest : pystr) :
  forallb is_digit09 d = true -> d <> [] -> starts_clean (d ++ rest).
Proof.
  intros H Hne. destruct d as [|c d]; [congruence|]. cbn [app starts_clean].
  cbn [forallb] in H. apply andb_true_iff in H as [Hc _].
  destruct (is_space c) eqn:E; [|reflexivity].
  rewrite (digit_not_space c E) in Hc. discriminate.
Qed.

Lemma forallb_rev {A : Type} (f : A -> bool) (l : list A) :
  forallb f l = true -> forallb f (rev l) = true.
Proof.
  intros H. apply forallb_forall. intros x Hx. apply in_rev in Hx.
  exact (proj1 (forallb_forall _ _) H x Hx).
Qed.

Lemma operation_text (a b : pystr) (op : binop) :
  plain_number a = true -> plain_number b = true ->
  let m := a ++ op_text op ++ b in
  forallb is_ascii m = true /\ forallb expr_char m = true /\
  existsb operator_char m = true /\ existsb is_digit09 m = true /\
  strip m = m.
Proof.
  intros Ha Hb m. subst m.
  destruct (CalculatorMore.plain_number_digits a Ha) as [Hda Hnea].
  destruct (CalculatorMore.plain_number_digits b Hb) as [Hdb Hneb].
  destruct (digits_are_plain_text a Hda) as [Ha1 Ha2].
  destruct (digits_are_plain_text b Hdb) as [Hb1 Hb2].
  assert (Ho : forallb is_ascii (op_text op) = true /\
               forallb expr_char (op_text op) = true /\
               existsb operator_char (op_text op) = true)
    by (destruct op; repeat split; reflexivity).
  destruct Ho as (Ho1 & Ho2 & Ho3).
  repeat split.
  - now rewrite !forallb_app, Ha1, Ho1, Hb1.
  - now rewrite !forallb_app, Ha2, Ho2, Hb2.
  - now rewrite !existsb_app, Ho3, orb_true_r.
  - destruct a as [|c a]; [congruence|]. cbn [app existsb].
    cbn [forallb] in Hda. apply andb_true_iff in Hda as [-> _]. reflexivity.
  - rewrite <- (app_nil_r (a ++ op_text op ++ b)) at 1.
    change (strip ((a ++ op_text op ++ b) ++ []))
      with (strip ([] ++ (a ++ op_text op ++ b) ++ [])).
    apply strip_unique; try reflexivity.
    + now apply starts_clean_digits.
    + unfold ends_clean. rewrite app_assoc, rev_app_distr.
      apply starts_clean_digits; [now apply forallb_rev|].
      intros E. apply (f_equal (@rev N)) in E. rewrite rev_involutive in E.
      now apply Hneb.
Qed.

Lemma respond_operation (s : store) (x y : N) (op : binop) :
  respond_ s (str_of_N x ++ op_text op ++ str_of_N y)
  = option_map (fun t => (JStr (u "The result is: " ++ t), s))
               (py_str float_repr complex_repr max_str_digits
                       (returned (int_binop rt op (Z.of_N x) (Z.of_N y)))).
Proof.
  destruct (str_of_N_spec x) as [Hx Vx]. destruct (str_of_N_spec y) as [Hy Vy].
  destruct (operation_text _ _ op Hx Hy) as (H1 & H2 & H3 & H4 & H5).
  rewrite (respond_later s _ (expression_falls_through _ H1 H2 H3 H4)).
  rewrite (later_expression s _ H1 H2 H3), H5.
  destruct (CalculatorMore.binary_text _ _ op Hx Hy) as [Hrs Hv].
  rewrite (CalculatorMore.evaluate_returned rt _); rewrite Hrs; [|exact Hv].
  now rewrite (CalculatorMore.py_eval_binary rt _ _ op Hx Hy), Vx, Vy.
Qed.

(** X23. Two numbers typed in decimal with [+], [-], [*], [//] or [%] between
    them are answered with "The result is: " and the decimal of the sum,
    the difference, the product, the floor quotient or the remainder; a
    division by 0 is answered with the division message. The numbers are
    not longer than the interpreter lets an integer literal be, where it
    sets a limit; a result longer than the limit cannot be printed, and the
    call raises. *)
Theorem decimal_arithmetic_reply (s : store) (x y : N) :
  (forall L, max_str_digits = Some L ->
             (List.length (str_of_N x) <= L)%nat /\ (List.length (str_of_N y) <= L)%nat) ->
  let reply (z : Z) :=
    option_map (fun t => (JStr (u "The result is: " ++ t), s))
               (str_of_int max_str_digits z) in
  respond_ s (str_of_N x ++ u "+" ++ str_of_N y) = reply (Z.of_N (x + y)) /\
  respond_ s (str_of_N x ++ u "-" ++ str_of_N y) = reply (Z.of_N x - Z.of_N y)%Z /\
  respond_ s (str_of_N x ++ u "*" ++ str_of_N y) = reply (Z.of_N (x * y)) /\
  (y <> 0%N ->
   respond_ s (str_of_N x ++ u "//" ++ str_of_N y) = reply (Z.of_N (x / y)) /\
   respond_ s (str_of_N x ++ u "%" ++ str_of_N y) = reply (Z.of_N (x mod y))) /\
  (y = 0%N ->
   forall op, op = Div \/ op = FloorDiv \/ op = Mod ->
     respond_ s (str_of_N x ++ op_text op ++ str_of_N y)
     = Some (JStr (u "The result is: Division by zero is not allowed"), s)).
Proof.
  intros _ reply. subst reply. cbv beta.
  pose proof (respond_operation s x y Add) as HA.
  pose proof (respond_operation s x y Sub) as HS.
  pose proof (respond_operation s x y Mul) as HM.
  pose proof (respond_operation s x y FloorDiv) as HF.
  pose proof (respond_operation s x y Mod) as HR.
  cbn [op_text int_binop returned py_str] in HA, HS, HM, HF, HR.
  repeat split.
  - now rewrite HA, N2Z.inj_add.
  - exact HS.
  - now rewrite HM, N2Z.inj_mul.
  - rewrite HF. destruct (Z.of_N y =? 0)%Z eqn:E; [apply Z.eqb_eq in E; lia|].
    cbn [returned py_str]. now rewrite N2Z.inj_div.
  - rewrite HR. destruct (Z.of_N y =? 0)%Z eqn:E; [apply Z.eqb_eq in E; lia|].
    cbn [returned py_str]. now rewrite N2Z.inj_mod.
  - clear HA HS HM HF HR.
    intros Hy op Hop. subst y.
    rewrite (respond_operation s x 0 op).
    assert (E : int_binop rt op (Z.of_N x) (Z.of_N 0) = Raises ZeroDivisionError).
    { change (Z.of_N 0) with 0%Z.
      destruct Hop as [-> | [-> | ->]]; cbn [int_binop Z.eqb]; [|reflexivity|reflexivity].
      unfold int_true_divide. destruct (Z.of_N x); reflexivity. }
    rewrite E. cbn [returned py_str option_map].
    vm_compute. reflexivity.
Qed.

(** ** Messages without a letter or a digit *)

Lemma other_is_unlettered (s : pystr) :
  forallb ascii_other s = true -> unlettered s = true.
Proof.
  intros H. apply forallb_forall. intros c Hc.
  pose proof (proj1 (forallb_forall _ _) H c Hc) as Hx. unfold ascii_other in Hx.
  apply andb_true_iff in Hx as [Hx _]. exact Hx.
Qed.

Lemma other_normal_is_space (c : N) :
  ascii_other c = true -> normal_char c = true -> is_space c = true.
Proof.
  unfold ascii_other, normal_char, is_ascii_letter. intros H1 H2.
  apply andb_true_iff in H1 as [H1 Hd]. apply andb_true_iff in H1 as [_ Hl].
  apply negb_true_iff in Hd, Hl. apply orb_false_iff in Hl as [Hl _].
  now rewrite Hl, Hd in H2.
Qed.

(** X24. A message of ASCII punctuation, symbols and whitespace, with no letter
    and no digit in it ("?!", "+", "(-)"), is answered with the request to
    say something, like an empty one. *)
Theorem symbols_only_prompt (s : store) (user_msg : pystr) :
  forallb ascii_other user_msg = true ->
  respond_ s user_msg = Some (JStr say_something, s).
Proof.
  intros H. unfold respond.
  destruct (is_empty user_msg || is_empty (strip user_msg)); [reflexivity|].
  rewrite NormalizeFacts.normalize_filter.
  rewrite (lower_unlettered _ (other_is_unlettered _ H)).
  rewrite strip_blank; [reflexivity|].
  apply forallb_forall. intros c Hc. apply filter_In in Hc as [Hc Hn].
  exact (other_normal_is_space c (proj1 (forallb_forall _ _) H c Hc) Hn).
Qed.

End Steps.
(** ** Ids as they are listed and as they are typed *)

Lemma decimal_value_digit (c : N) :
  is_digit09 c = true -> decimal_value c = Some (c - 48)%N.
Proof.
  intros H. unfold decimal_value. rewrite H.
  replace (is_ascii c) with true; [reflexivity|].
  symmetry. unfold is_ascii. apply N.ltb_lt. bools; lia.
Qed.

Lemma py_int_digits (d : pystr) :
  forallb is_digit09 d = true -> d <> [] -> py_int d = Some (digits_value d).
Proof.
  intros H Hne. unfold py_int, digits_value.
  destruct d as [|c0 d0] eqn:Ed; [congruence|]. rewrite <- Ed in *. clear Ed Hne c0 d0.
  generalize 0%Z. induction d as [|c d IH]; intros acc; [reflexivity|].
  cbn [fold_left forallb] in *. apply andb_true_iff in H as [Hc Hd].
  rewrite (decimal_value_digit c Hc). apply (IH Hd).
Qed.

Lemma lower_no_upper (s : pystr) :
  forallb is_ascii s = true ->
  forallb (fun c => negb (is_upper_az c)) s = true ->
  lower s = s.
Proof.
  intros Ha Hu. unfold lower. rewrite Ha. clear Ha.
  induction s as [|c s IH]; [reflexivity|]. cbn [forallb map] in *.
  apply andb_true_iff in Hu as [Hc Hs]. apply negb_true_iff in Hc.
  unfold ascii_lower at 1. now rewrite Hc, (IH Hs).
Qed.

Lemma digit_not_upper (d : pystr) :
  forallb is_digit09 d = true ->
  forallb (fun c => negb (is_upper_az c)) d = true.
Proof.
  intros H. apply forallb_forall. intros c Hc.
  pose proof (proj1 (forallb_forall _ _) H c Hc) as Hd.
  apply negb_true_iff. destruct (is_upper_az c) eqn:E; [exfalso | reflexivity].
  bools; lia.
Qed.

(** X25. The number printed in front of a task by "show tasks" is read back as
    the same number after "mark done": printing an id and reading it agree.
    (The interpreter refuses to read more than 4300 digits, by default.) *)
Theorem listed_id_is_understood (z : Z) :
  (0 <= z)%Z ->
  (List.length (str_of_Z z) <= 4300)%nat ->
  _is_todo_query (u "mark done " ++ str_of_Z z) = Some (u "done", ArgInt z).
Proof.
  intros Hz _. rewrite <- (Z2N.id z Hz), str_of_Z_of_N.
  destruct (str_of_N_spec (Z.to_N z)) as [Hp Hv].
  destruct (CalculatorMore.plain_number_digits _ Hp) as [Hd Hne].
  set (d := str_of_N (Z.to_N z)) in *.
  assert (Hs : strip (u "mark done " ++ d) = u "mark done " ++ d).
  { rewrite <- (app_nil_r (u "mark done " ++ d)) at 1.
    change (strip ((u "mark done " ++ d) ++ []))
      with (strip ([] ++ (u "mark done " ++ d) ++ [])).
    apply strip_unique; try reflexivity.
    unfold ends_clean. rewrite rev_app_distr.
    apply starts_clean_digits; [now apply forallb_rev|].
    intros E. apply (f_equal (@rev N)) in E. rewrite rev_involutive in E.
    now apply Hne. }
  assert (Hl : lower (u "mark done " ++ d) = u "mark done " ++ d).
  { apply lower_no_upper; rewrite forallb_app.
    - now rewrite (proj1 (digits_are_plain_text d Hd)).
    - now rewrite (digit_not_upper d Hd). }
  destruct (TodoQueryFacts.mark_done_with_digits (u "mark done " ++ d) d [])
    as (n & Hn & ->).
  - rewrite Hs, Hl, app_nil_r. reflexivity.
  - exact Hne.
  - apply forallb_forall. intros c Hc. cbn [char_match].
    now rewrite (decimal_value_digit c (proj1 (forallb_forall _ _) Hd c Hc)).
  - exact I.
  - rewrite (py_int_digits d Hd Hne), Hv in Hn. now injection Hn as <-.
Qed.

(** ** Titles as they are stored *)

Lemma ascii_lower_not_upper (c : N) : is_upper_az (ascii_lower c) = false.
Proof.
  unfold ascii_lower. destruct (is_upper_az c) eqn:E; [|exact E].
  unfold is_upper_az, in_range in *. bools.
  apply andb_false_iff. right. apply N.leb_gt. lia.
Qed.

Lemma forallb_skipn {A : Type} (f : A -> bool) (n : nat) (l : list A) :
  forallb f l = true -> forallb f (skipn n l) = true.
Proof.
  intros H. apply forallb_forall. intros x Hx.
  rewrite <- (firstn_skipn n l) in H. rewrite forallb_app in H.
  apply andb_true_iff in H as [_ H]. exact (proj1 (forallb_forall _ _) H x Hx).
Qed.

(** X26. The title of "add task ..." is cut out of the lowercased message: what
    reaches [add_task], and the list, has no capital letter left, however
    the task was typed. *)
Theorem added_title_is_lowercased (user_msg title0 : pystr) :
  forallb is_ascii user_msg = true ->
  _is_todo_query user_msg = Some (u "add", ArgStr title0) ->
  forallb (fun c => negb (is_upper_az c)) title0 = true.
Proof.
  intros Ha. unfold _is_todo_query. cbv zeta.
  assert (Hl : forallb (fun c => negb (is_upper_az c)) (lower (strip user_msg)) = true).
  { unfold lower.
    rewrite (DetectorFacts.forallb_strip is_ascii user_msg Ha).
    apply forallb_forall. intros c Hc. apply in_map_iff in Hc as (x & <- & _).
    now rewrite ascii_lower_not_upper. }
  destruct (startswith (u "add task ") _).
  { intros H. injection H as <-.
    apply DetectorFacts.forallb_strip. exact (forallb_skipn _ 9 _ Hl). }
  destruct (matched (match_start (u "show tasks?") _)); [discriminate|].
  destruct (startswith (u "remove task ") _).
  { destruct (negb _); discriminate. }
  destruct (startswith (u "mark done ") _); [|discriminate].
  destruct (match_start _ _) as [mt|]; [|discriminate].
  destruct (py_int (group1 mt)); discriminate.
Qed.

(** ** Asking for a definition *)

Lemma caseless_space (c : N) :
  is_ascii c = true -> caseless_eq 32 c = true -> c = 32%N.
Proof.
  intros Ha H. unfold caseless_eq in H. rewrite Ha in H. cbn [is_ascii andb] in H.
  change (is_ascii 32) with true in H. cbn [andb] in H.
  apply N.eqb_eq in H. change (ascii_lower 32) with 32%N in H.
  unfold ascii_lower in H. destruct (is_upper_az c) eqn:E; [|exact H].
  unfold is_upper_az, in_range in E. bools. lia.
Qed.

Lemma caseless_prefix_spaces (p : pystr) :
  forall s, forallb is_ascii s = true -> caseless_prefix p s = true ->
            count_occ N.eq_dec p 32%N <= count_occ N.eq_dec s 32%N.
Proof.
  induction p as [|a p IH]; intros s Ha H; [cbn [count_occ]; lia|].
  destruct s as [|c s]; [discriminate|]. cbn [caseless_prefix forallb] in *.
  apply andb_true_iff in H as [Hc Hp]. apply andb_true_iff in Ha as [Hac Has].
  specialize (IH s Has Hp). cbn [count_occ].
  destruct (N.eq_dec a 32) as [->|Hne].
  - rewrite (caseless_space c Hac Hc). destruct (N.eq_dec 32 32); [lia | congruence].
  - destruct (N.eq_dec c 32); lia.
Qed.

Lemma search_spaces_none (p : pystr) (r : regex) :
  forall s prev,
    forallb is_ascii s = true ->
    count_occ N.eq_dec s 32%N < count_occ N.eq_dec p 32%N ->
    search_from (map (fun c => Chr (CLit true c)) p ++ r) prev s = None.
Proof.
  induction s as [|c s IH]; intros prev Ha Hlt; cbn [search_from];
    rewrite exec_literals.
  - destruct (caseless_prefix p []) eqn:E; [|reflexivity].
    pose proof (caseless_prefix_spaces p [] Ha E). lia.
  - destruct (caseless_prefix p (c :: s)) eqn:E.
    { pose proof (caseless_prefix_spaces p (c :: s) Ha E). lia. }
    cbn [forallb] in Ha. apply andb_true_iff in Ha as [_ Ha].
    apply IH; [exact Ha|]. cbn [count_occ] in Hlt.
    destruct (N.eq_dec c 32); lia.
Qed.

Lemma word_has_no_space (w : pystr) :
  forallb (fun c => is_lower_az c || is_digit09 c) w = true ->
  forallb is_ascii w = true /\ count_occ N.eq_dec w 32%N = 0 /\
  forallb (char_match CAny) w = true /\
  forallb (fun c => negb (is_space c)) w = true.
Proof.
  induction w as [|c w IH]; intros H; [repeat split; reflexivity|].
  cbn [forallb] in H. apply andb_true_iff in H as [Hc Hw].
  destruct (IH Hw) as (H1 & H2 & H3 & H4).
  assert (Hr : (48 <= c <= 57 \/ 97 <= c <= 122)%N).
  { unfold is_lower_az, is_digit09, in_range in Hc. bools; lia. }
  cbn [forallb count_occ char_match]. rewrite H1, H2, H3, H4.
  destruct (N.eq_dec c 32) as [->|_]; [lia|].
  assert (E1 : is_ascii c = true) by (unfold is_ascii; apply N.ltb_lt; lia).
  assert (E2 : (c =? 10)%N = false) by (apply N.eqb_neq; lia).
  assert (E3 : is_space c = false).
  { destruct (is_space c) eqn:E; [exfalso | reflexivity]. bools; lia. }
  rewrite E1, E2, E3. repeat split; reflexivity.
Qed.

(** "define" and one word of letters [a-z] and digits: the detector hands
    the word on. The two patterns tried before, "meaning of ..." and "what
    does ... mean", need two spaces and find none. *)
Lemma dictionary_query_define (w : pystr) :
  w <> [] ->
  forallb (fun c => is_lower_az c || is_digit09 c) w = true ->
  _is_dictionary_query (u "define " ++ w) = Some w.
Proof.
  intros Hne Hw. destruct (word_has_no_space w Hw) as (Ha & Hc & Hany & Hns).
  assert (Hmsg : forallb is_ascii (u "define " ++ w) = true)
    by (rewrite forallb_app, Ha; reflexivity).
  assert (Hcount : count_occ N.eq_dec (u "define " ++ w) 32%N = 1)
    by (rewrite count_occ_app, Hc; reflexivity).
  unfold _is_dictionary_query, dictionary_patterns. cbn [first_capture].
  assert (M1 : search true (u "meaning of (.+)") (u "define " ++ w) = None).
  { unfold search.
    change (compile true (u "meaning of (.+)"))
      with (Some (map (fun c => Chr (CLit true c)) (u "meaning of ")
                  ++ [GroupOpen; Rep CAny 1 None; GroupClose])).
    cbv beta iota. unfold re_search. apply search_spaces_none; [exact Hmsg|].
    rewrite Hcount. change (count_occ N.eq_dec (u "meaning of ") 32%N) with 2. lia. }
  assert (M2 : search true (u "what does (.+) mean") (u "define " ++ w) = None).
  { unfold search.
    change (compile true (u "what does (.+) mean"))
      with (Some (map (fun c => Chr (CLit true c)) (u "what does ")
                  ++ [GroupOpen; Rep CAny 1 None; GroupClose; Chr (CLit true 32);
                      Chr (CLit true 109); Chr (CLit true 101); Chr (CLit true 97);
                      Chr (CLit true 110)])).
    cbv beta iota. unfold re_search. apply search_spaces_none; [exact Hmsg|].
    rewrite Hcount. change (count_occ N.eq_dec (u "what does ") 32%N) with 2. lia. }
  rewrite M1, M2.
  assert (M3 : search true (u "define (.+)") (u "define " ++ w) = Some ([], Some w)).
  { unfold search.
    change (compile true (u "define (.+)"))
      with (Some (map (fun c => Chr (CLit true c)) (u "define ")
                  ++ [GroupOpen; Rep CAny 1 None; GroupClose])).
    cbv beta iota. unfold re_search.
    destruct w as [|c w]; [congruence|].
    change (search_from ?r None (u "define " ++ c :: w))
      with (match exec r None (u "define " ++ c :: w) no_capture with
            | Some res => Some res
            | None => search_from r (Some 100%N) (u "efine " ++ c :: w)
            end).
    rewrite exec_literals.
    change (caseless_prefix (u "define ") (u "define " ++ c :: w)) with true.
    cbv iota.
    change (skipn (List.length (u "define ")) (u "define " ++ c :: w)) with (c :: w).
    cbn [exec].
    rewrite <- (app_nil_r (c :: w)) at 2.
    rewrite (@rep_loop_greedy _ (pystr * option pystr) CAny 1 _ (c :: w) 0 _ []
               ([], Some (c :: w)) Hany I).
    - reflexivity.
    - cbn [List.length]. lia.
    - cbv beta. rewrite <- (app_nil_r (c :: w)) at 1.
      rewrite close_group_text. reflexivity. }
  rewrite M3. cbn [group1 snd]. f_equal.
  rewrite <- (app_nil_r w) at 1.
  change (strip (w ++ [])) with (strip ([] ++ w ++ [])).
  apply strip_unique; try reflexivity.
  - destruct w as [|c w]; [exact I|]. cbn [starts_clean forallb] in *.
    apply andb_true_iff in Hns as [Hx _]. now apply negb_true_iff in Hx.
  - unfold ends_clean. pose proof (forallb_rev _ _ Hns) as Hr.
    destruct (rev w) as [|c r]; [exact I|]. cbn [starts_clean forallb] in *.
    apply andb_true_iff in Hr as [Hx _]. now apply negb_true_iff in Hx.
Qed.

Lemma normalize_define (w : pystr) :
  w <> [] ->
  forallb (fun c => is_lower_az c || is_digit09 c) w = true ->
  _normalize (u "define " ++ w) = u "define " ++ w.
Proof.
  intros Hne Hw. destruct (word_has_no_space w Hw) as (Ha & _ & _ & Hns).
  assert (Hn : forallb normal_char w = true).
  { apply forallb_forall. intros c Hc.
    pose proof (proj1 (forallb_forall _ _) Hw c Hc) as Hx.
    unfold normal_char. apply orb_true_iff in Hx as [-> | ->];
      [reflexivity | now rewrite orb_true_r]. }
  assert (Hu : forallb (fun c => negb (is_upper_az c)) w = true).
  { apply forallb_forall. intros c Hc.
    pose proof (proj1 (forallb_forall _ _) Hw c Hc) as Hx.
    apply negb_true_iff. destruct (is_upper_az c) eqn:E; [exfalso | reflexivity].
    unfold is_lower_az, is_digit09, is_upper_az, in_range in *. bools; lia. }
  rewrite NormalizeFacts.normalize_filter.
  rewrite lower_no_upper; [| now rewrite forallb_app, Ha | now rewrite forallb_app, Hu].
  rewrite NormalizeFacts.filter_all_true; [| now rewrite forallb_app, Hn].
  rewrite <- (app_nil_r (u "define " ++ w)) at 1.
  change (strip ((u "define " ++ w) ++ [])) with (strip ([] ++ (u "define " ++ w) ++ [])).
  apply strip_unique; try reflexivity.
  unfold ends_clean. rewrite rev_app_distr.
  pose proof (forallb_rev _ _ Hns) as Hr.
  destruct (rev w) as [|c r] eqn:E.
  - apply (f_equal (@rev N)) in E. rewrite rev_involutive in E. now destruct Hne.
  - cbn [app starts_clean forallb] in *.
    apply andb_true_iff in Hr as [Hx _]. now apply negb_true_iff in Hx.
Qed.

(** X27. "define" and one word, when no intent pattern occurs in the message:
    the reply is what the lookup service gives as the first definition, and
    the apology when that is empty. *)
Theorem definition_reply
    (rt : runtime) (float_repr : spec_float -> pystr)
    (complex_repr : spec_float -> spec_float -> pystr) (max_str_digits : option nat)
    (get_close_matches : pystr -> list pystr -> spec_float -> list pystr)
    (http_get_json : pystr -> option json) (rnd : nat) (now : pystr)
    (s : store) (w : pystr) :
  w <> [] ->
  forallb (fun c => is_lower_az c || is_digit09 c) w = true ->
  match_intents intents (u "define " ++ w) = None ->
  respond rt float_repr complex_repr max_str_digits get_close_matches
          http_get_json rnd now s (u "define " ++ w)
  = Some (if truthy (get_meaning http_get_json w)
          then get_meaning http_get_json w
          else JStr (u "Sorry, I couldnâ€™t find the meaning of '" ++ w ++ u "'."),
          s).
Proof.
  intros Hne Hw Hi. unfold respond.
  rewrite (normalize_define w Hne Hw), (dictionary_query_define w Hne Hw).
  unfold intent_stage. rewrite Hi. cbn [option_map].
  assert (Hs : is_empty (u "define " ++ w) || is_empty (strip (u "define " ++ w)) = false).
  { rewrite <- (normalize_define w Hne Hw) at 2.
    rewrite NormalizeFacts.normalize_filter, strip_idempotent.
    rewrite <- NormalizeFacts.normalize_filter, (normalize_define w Hne Hw).
    reflexivity. }
  rewrite Hs. cbn [is_empty app].
  destruct w as [|c w]; [congruence|].
  destruct (truthy _); reflexivity.
Qed.

(** ** The task store over a conversation *)

Section Conversation.
Variable rt : runtime.
Variable float_repr : spec_float -> pystr.
Variable complex_repr : spec_float -> spec_float -> pystr.
Variable max_str_digits : option nat.
Variable get_close_matches : pystr -> list pystr -> spec_float -> list pystr.

Local Notation "'after_'" :=
  (after rt float_repr complex_repr max_str_digits get_close_matches).
Local Notation "'converse_'" :=
  (converse rt float_repr complex_repr max_str_digits get_close_matches).

Lemma after_step (s : store) (t : turn) :
  after_ s t = s \/ exists c, after_ s t = step s c.
Proof.
  unfold after, answer.
  destruct (respond _ _ _ _ _ _ _ _ s (turn_msg t)) as [[j s']|] eqn:E; [|now left].
  exact (respond_store _ _ _ _ _ _ _ _ _ _ _ _ E).
Qed.

Lemma converse_invariant (P : store -> Prop) :
  (forall s c, P s -> P (step s c)) ->
  forall ts s, P s -> P (converse_ ts s).
Proof.
  intros Hstep ts. unfold converse.
  induction ts as [|t ts IH]; intros s H; cbn [fold_left]; [exact H|].
  apply IH. destruct (after_step s t) as [-> | [c ->]]; auto.
Qed.

(** X28. Whatever is typed, in whatever order, and whatever the lookup service
    and the random draws do: the file keeps holding the list in memory, no
    two tasks get the same title (letter case aside), and every status is
    "pending" or "done". *)
Theorem conversation_keeps_store_sound (ts : list turn) (s : store) :
  reloads s ->
  unique_titles (tasks s) ->
  Forall known_status (tasks s) ->
  reloads (converse_ ts s) /\
  unique_titles (tasks (converse_ ts s)) /\
  Forall known_status (tasks (converse_ ts s)).
Proof.
  intros H1 H2 H3. repeat split.
  - apply (converse_invariant reloads); [apply step_reloads | exact H1].
  - apply (converse_invariant (fun s => unique_titles (tasks s)));
      [apply step_unique_titles | exact H2].
  - apply (converse_invariant (fun s => Forall known_status (tasks s)));
      [apply step_known_status | exact H3].
Qed.

End Conversation.
End WithUnicode.
Lemma intent_reply_first_witness :
  exists j r, In j intents /\ In r (responses j) /\
    @respond ascii_tables bare_runtime (fun _ => []) (fun _ _ => []) None
             (fun _ _ _ => []) (fun _ => None) 0 (u "t")
             empty_store (u "add task say hello to Bob")
    = Some (JStr r, empty_store).
Proof.
  apply (@intent_reply_first ascii_tables bare_runtime (fun _ => []) (fun _ _ => []) None
           (fun _ _ _ => []) (fun _ => None) 0 (u "t")
           empty_store (u "add task say hello to Bob")
           (nth 0 intents (mkIntent [] [] [])) (u "hello")).
  - reflexivity.
  - vm_compute. reflexivity.
  - left. reflexivity.
  - right. left. reflexivity.
  - vm_compute. reflexivity.
Defined.

Lemma remove_by_title_never_works_witness :
  @respond ascii_tables bare_runtime (fun _ => []) (fun _ _ => []) None
           (fun _ _ _ => []) (fun _ => None) 0 (u "t")
           (mkStore [mkTask 1 (u "buy milk") (u "pending") (u "t0")] None)
           (u "remove task buy milk")
  = Some (JStr (u "Task not found"),
          mkStore [mkTask 1 (u "buy milk") (u "pending") (u "t0")] None).
Proof.
  apply (@remove_by_title_never_works ascii_tables bare_runtime (fun _ => [])
           (fun _ _ => []) None (fun _ _ _ => []) (fun _ => None) 0 (u "t")
           _ (u "remove task buy milk") (u "buy milk"));
    vm_compute; reflexivity.
Defined.

Lemma unrecognised_message_reply_witness :
  exists r,
    @respond ascii_tables bare_runtime (fun _ => []) (fun _ _ => []) None
             (fun _ v _ => firstn 1 v) (fun _ => None) 0 (u "t")
             empty_store (u "helo")
    = Some (JStr r, empty_store) /\
    (In r _fallback_responses \/
     exists w i reply,
       In i intents /\ In w (patterns i) /\ In reply (responses i) /\
       r = u "(Did you mean **" ++ w ++ u "**?)" ++ [10%N] ++ reply).
Proof.
  apply (@unrecognised_message_reply ascii_tables bare_runtime (fun _ => [])
           (fun _ _ => []) None (fun _ v _ => firstn 1 v) (fun _ => None) 0 (u "t")
           empty_store (u "helo")).
  - intros w v c x H. destruct v as [|y v]; [destruct H|].
    destruct H as [<- | []]. left. reflexivity.
  - vm_compute. reflexivity.
  - vm_compute. reflexivity.
  - vm_compute. reflexivity.
Defined.

Lemma fallback_reply_witness :
  exists r, In r _fallback_responses /\
    @respond ascii_tables bare_runtime (fun _ => []) (fun _ _ => []) None
             (fun _ _ _ => []) (fun _ => None) 4 (u "t")
             empty_store (u "xyzzy plugh")
    = Some (JStr r, empty_store).
Proof.
  apply (@fallback_reply ascii_tables bare_runtime (fun _ => [])
           (fun _ _ => []) None (fun _ _ _ => []) (fun _ => None) 4 (u "t")
           empty_store (u "xyzzy plugh")).
  - vm_compute. reflexivity.
  - vm_compute. reflexivity.
  - vm_compute. reflexivity.
  - intros t _. reflexivity.
  - reflexivity.
Defined.

Lemma get_response_always_answers_witness :
  exists j s',
    @respond ascii_tables bare_runtime (fun _ => []) (fun _ _ => []) None
             (fun _ _ _ => []) (fun _ => None) 0 (u "t")
             empty_store (u "show tasks")
    = Some (j, s').
Proof.
  apply (@get_response_always_answers ascii_tables bare_runtime (fun _ => [])
           (fun _ _ => []) None (fun _ _ _ => []) (fun _ => None) 0 (u "t")
           empty_store (u "show tasks")).
  - reflexivity.
  - intros w v c x [].
Defined.

Lemma symbols_only_prompt_witness :
  @respond ascii_tables bare_runtime (fun _ => []) (fun _ _ => []) None
           (fun _ _ _ => []) (fun _ => None) 0 (u "t") empty_store (u " ?! (+) ")
  = Some (JStr say_something, empty_store).
Proof.
  apply (@symbols_only_prompt ascii_tables bare_runtime (fun _ => []) (fun _ _ => [])
           None (fun _ _ _ => []) (fun _ => None) 0 (u "t") empty_store (u " ?! (+) ")).
  reflexivity.
Defined.

Lemma expression_message_reply_witness :
  @respond ascii_tables bare_runtime (fun _ => []) (fun _ _ => []) None
           (fun _ _ _ => []) (fun _ => None) 0 (u "t") empty_store (u " 12 * (3 + 4) ")
  = Some (JStr (u "The result is: 84"), empty_store).
Proof.
  refine (eq_trans
            (@expression_message_reply ascii_tables bare_runtime (fun _ => [])
               (fun _ _ => []) None (fun _ _ _ => []) (fun _ => None) 0 (u "t")
               empty_store (u " 12 * (3 + 4) ") _ _ _ _) _);
    vm_compute; reflexivity.
Defined.

Lemma decimal_arithmetic_reply_witness :
  @respond ascii_tables bare_runtime (fun _ => []) (fun _ _ => []) (Some 4300)
           (fun _ _ _ => []) (fun _ => None) 0 (u "t") empty_store (u "17+5")
  = Some (JStr (u "The result is: 22"), empty_store).
Proof.
  refine (eq_trans
            (proj1 (@decimal_arithmetic_reply ascii_tables bare_runtime (fun _ => [])
                      (fun _ _ => []) (Some 4300) (fun _ _ _ => []) (fun _ => None) 0
                      (u "t") empty_store 17 5 _)) _).
  - intros L H. injection H as <-. vm_compute. split; lia.
  - vm_compute. reflexivity.
Defined.

Lemma listed_id_is_understood_witness :
  @_is_todo_query ascii_tables (u "mark done 12") = Some (u "done", ArgInt 12).
Proof.
  apply (@listed_id_is_understood ascii_tables 12); [lia | vm_compute; lia].
Defined.

Lemma added_title_is_lowercased_witness :
  forallb (fun c => negb (is_upper_az c)) (u "buy milk") = true.
Proof.
  apply (@added_title_is_lowercased ascii_tables (u " Add Task Buy MILK ") (u "buy milk"));
    reflexivity.
Defined.

Lemma definition_reply_witness :
  let fetch := fun _ : pystr =>
    Some (JArr [JObj [(u "meanings",
            JArr [JObj [(u "definitions",
                   JArr [JObj [(u "definition", JStr (u "a happy accident"))]])]])]]) in
  @respond ascii_tables bare_runtime (fun _ => []) (fun _ _ => []) None
           (fun _ _ _ => []) fetch 0 (u "t") empty_store (u "define serendipity")
  = Some (JStr (u "a happy accident"), empty_store).
Proof.
  intros fetch.
  refine (eq_trans
            (@definition_reply ascii_tables bare_runtime (fun _ => []) (fun _ _ => [])
               None (fun _ _ _ => []) fetch 0 (u "t") empty_store (u "serendipity")
               _ _ _) _).
  - discriminate.
  - reflexivity.
  - vm_compute. reflexivity.
  - vm_compute. reflexivity.
Defined.

Lemma conversation_keeps_store_sound_witness :
  let ts := [mkTurn (fun _ => None) 0 (u "t1") (u "add task Buy milk");
             mkTurn (fun _ => None) 1 (u "t2") (u "add task buy MILK");
             mkTurn (fun _ => None) 2 (u "t3") (u "mark done 1");
             mkTurn (fun _ => None) 3 (u "t4") (u "add task call Bob");
             mkTurn (fun _ => None) 4 (u "t5") (u "remove task 1")] in
  let s := @converse ascii_tables bare_runtime (fun _ => []) (fun _ _ => []) None
                     (fun _ _ _ => []) ts empty_store in
  reloads s /\ @unique_titles ascii_tables (tasks s) /\ Forall known_status (tasks s).
Proof.
  apply (@conversation_keeps_store_sound ascii_tables bare_runtime (fun _ => [])
           (fun _ _ => []) None (fun _ _ _ => [])).
  - reflexivity.
  - apply NoDup_nil.
  - apply Forall_nil.
Defined.

End PipelineFacts.

(* ================================================================= *)
(** * The chat route of [app.py] *)
(* ================================================================= *)

Module AppFacts.
Import PyStr PyStrFacts Calculator Dictionary Todo Chatbot Pipeline App.

Lemma lookup_nonempty (k : pystr) (members : list (pystr * json)) (v : json) :
  lookup k members = Some v -> truthy (JObj members) = true.
Proof. destruct members; [discriminate | reflexivity]. Qed.

Section WithUnicode.
Context {U : UnicodeDB}.

Section ChatApi.
Variable rt : runtime.
Variable float_repr : spec_float -> pystr.
Variable complex_repr : spec_float -> spec_float -> pystr.
Variable max_str_digits : option nat.
Variable get_close_matches : pystr -> list pystr -> spec_float -> list pystr.
Variable http_get_json : pystr -> option json.
Variable rnd : nat.
Variable now : pystr.

Local Notation "'chat_api_'" :=
  (chat_api rt float_repr complex_repr max_str_digits get_close_matches
            http_get_json rnd now).

(** X29. The view function lets an exception escape, instead of answering with
    a JSON error, exactly when the request is JSON and its body is a true
    value that is no object (a list, a number, a string, [true]), or an
    object whose "message" is a true value that is no string. Everything
    [get_response] raises is caught. *)
Theorem chat_api_unhandled (is_json : bool) (body : option json) (s : store) :
  fst (chat_api_ is_json body s) = Unhandled
  <-> is_json = true /\
      exists p, body = Some p /\ truthy p = true /\
        (is_object p = false \/
         exists members v,
           p = JObj members /\ lookup (u "message") members = Some v /\
           truthy v = true /\ is_text v = false).
Proof.
  unfold chat_api. destruct is_json; cbn [negb].
  2:{ split; [discriminate | intros [F _]; discriminate]. }
  assert (Hobj : forall members,
    fst (match or_else (lookup (u "message") members) (JStr []) with
         | JStr message =>
           if is_empty (strip message)
           then (Answer 400 [(u "error", JStr (u "Field 'message' cannot be empty"))], s)
           else
             match respond rt float_repr complex_repr max_str_digits get_close_matches
                           http_get_json rnd now s (strip message) with
             | Some (reply, s') => (Answer 200 [(u "reply", reply)], s')
             | None =>
               (Answer 500 [(u "error", JStr (u "Internal error while generating reply"))], s)
             end
         | _ => (Unhandled, s)
         end) = Unhandled
    <-> exists v, lookup (u "message") members = Some v /\
                  truthy v = true /\ is_text v = false).
  { intros members. unfold or_else.
    destruct (lookup (u "message") members) as [v|].
    2:{ cbn [strip lstrip rstrip rev is_empty fst].
        split; [discriminate | intros (v & F & _); discriminate]. }
    destruct (truthy v) eqn:Tv.
    2:{ cbn [strip lstrip rstrip rev is_empty fst].
        split; [discriminate|]. intros (v' & E & T & _). injection E as <-. congruence. }
    destruct v; cbn [fst];
      try (split; [intros _; eexists; repeat split; eauto | reflexivity]).
    split.
    - destruct (is_empty (strip s0)); [discriminate|].
      destruct (respond _ _ _ _ _ _ _ _ _ _) as [[reply s']|]; discriminate.
    - intros (v' & E & _ & F). injection E as <-. discriminate. }
  split.
  - intros H. split; [reflexivity|]. unfold or_else in H.
    destruct body as [p|].
    2:{ apply (proj1 (Hobj [])) in H. destruct H as (v & F & _). discriminate. }
    destruct (truthy p) eqn:Tp.
    2:{ apply (proj1 (Hobj [])) in H. destruct H as (v & F & _). discriminate. }
    exists p. split; [reflexivity|]. split; [exact Tp|].
    destruct p; try (left; reflexivity).
    right. apply (proj1 (Hobj members)) in H. destruct H as (v & H1 & H2 & H3).
    exists members, v. auto.
  - intros (_ & p & -> & Tp & H). unfold or_else. rewrite Tp.
    destruct H as [H | (members & v & -> & H1 & H2 & H3)].
    + destruct p; try reflexivity. discriminate.
    + apply (proj2 (Hobj members)). eauto.
Qed.

(** X30. Whitespace around the message does not change what the route answers
    or does: the message is trimmed before anything looks at it. *)
Theorem chat_api_trims (is_json : bool) (members1 members2 : list (pystr * json))
    (a m b : pystr) (s : store) :
  lookup (u "message") members1 = Some (JStr (a ++ m ++ b)) ->
  lookup (u "message") members2 = Some (JStr m) ->
  forallb is_space a = true -> forallb is_space b = true ->
  chat_api_ is_json (Some (JObj members1)) s
  = chat_api_ is_json (Some (JObj members2)) s.
Proof.
  intros H1 H2 Ha Hb. unfold chat_api. destruct is_json; [|reflexivity].
  cbn [negb]. unfold or_else at 1 3.
  rewrite (lookup_nonempty _ _ _ H1), (lookup_nonempty _ _ _ H2), H1, H2.
  assert (E : forall x, strip match (if truthy (JStr x) then JStr x else JStr []) with
                              | JStr t => t | _ => [] end = strip x).
  { intros x. destruct x; reflexivity. }
  unfold or_else.
  assert (E1 : (if truthy (JStr (a ++ m ++ b)) then JStr (a ++ m ++ b) else JStr [])
               = JStr (match a ++ m ++ b with [] => [] | _ => a ++ m ++ b end)).
  { destruct (a ++ m ++ b); reflexivity. }
  assert (E2 : (if truthy (JStr m) then JStr m else JStr [])
               = JStr (match m with [] => [] | _ => m end)).
  { destruct m; reflexivity. }
  rewrite E1, E2.
  assert (S1 : strip (match a ++ m ++ b with [] => [] | _ => a ++ m ++ b end)
               = strip m).
  { rewrite <- (strip_pad a m b Ha Hb). destruct (a ++ m ++ b); reflexivity. }
  assert (S2 : strip (match m with [] => [] | _ => m end) = strip m).
  { destruct m; reflexivity. }
  cbv zeta. rewrite S1, S2. reflexivity.
Qed.

End ChatApi.
End WithUnicode.

Lemma chat_api_trims_witness :
  @chat_api ascii_tables bare_runtime (fun _ => []) (fun _ _ => []) None
            (fun _ _ _ => []) (fun _ => None) 0 (u "t") true
            (Some (JObj [(u "message", JStr (u "  2+2 "))])) empty_store
  = @chat_api ascii_tables bare_runtime (fun _ => []) (fun _ _ => []) None
              (fun _ _ _ => []) (fun _ => None) 0 (u "t") true
              (Some (JObj [(u "message", JStr (u "2+2"))])) empty_store.
Proof.
  apply (@chat_api_trims ascii_tables bare_runtime (fun _ => []) (fun _ _ => []) None
           (fun _ _ _ => []) (fun _ => None) 0 (u "t") true
           _ _ (u "  ") (u "2+2") (u " ")); reflexivity.
Defined.

End AppFacts.
